(** * screenshot-ocr: the overlap locator and the stitching pipeline

    A shallow embedding of [src/image_stitcher.py] (class [ImageStitcher]).

    - Python [int] values are [Z]; the finite Python [float] values (the
      threshold, the correlation score, the factors 0.1 and 0.9) are exact
      rationals [Q]; [int(x)] truncates toward zero.  The two products that
      are truncated, [min(h1, h2) * 0.1] and [min(h1, h2) * 0.9], are
      compared with their binary64 values in
      [overlap_sizes_agree_with_binary64].
    - [search_region] is a caller's float, finite or not: a [py_float].
      [int(h1 * search_region)] raises when the product is a NaN or an
      infinity, which it is compared with binary64 for in
      [search_height_agrees_with_binary64].
    - A numpy image is a list of pixel rows together with the rest of its
      [shape]: the column count and, for a 3-dimensional array, the channel
      count.
    - [cv2.resize], [cv2.cvtColor], [cv2.matchTemplate] followed by
      [cv2.minMaxLoc], and [cv2.imread] are external: they are the members of
      the class [Cv2], with the shape laws the stitcher relies on.
    - [print] appends an event to a log and [raise] ends the computation:
      the monad [M] carries both. *)

From Stdlib Require Import String ZArith QArith Qround List Bool Lia Lqa.
From Stdlib Require Import PrimFloat FloatOps SpecFloat Uint63.
From Stdlib Require Import Ascii DecimalString Sorted.
Import ListNotations.

Open Scope Z_scope.

(** ** Python values *)

(** [int(x)] on a float: truncation toward zero. *)
Definition py_int (x : Q) : Z := Z.quot (Qnum x) (Zpos (Qden x)).

(** [len(range(start, stop, step))], as CPython computes it. *)
Definition range_len (start stop step : Z) : nat :=
  if 0 <? step then
    if start <? stop then Z.to_nat ((stop - start - 1) / step + 1) else 0%nat
  else if step <? 0 then
    if stop <? start then Z.to_nat ((start - stop - 1) / (- step) + 1) else 0%nat
  else 0%nat.

(** [list(range(start, stop, step))]. *)
Definition py_range (start stop step : Z) : list Z :=
  map (fun k => start + Z.of_nat k * step) (seq 0 (range_len start stop step)).

(** A slice bound, normalised against a sequence of length [n]: a negative
    bound counts from the end, and both are clamped into [0, n]. *)
Definition slice_bound (n i : Z) : Z :=
  if i <? 0 then Z.max (i + n) 0 else Z.min i n.

(** [l[lo:hi]]. *)
Definition py_slice {A : Type} (lo hi : Z) (l : list A) : list A :=
  let n := Z.of_nat (length l) in
  let lo' := slice_bound n lo in
  let hi' := slice_bound n hi in
  firstn (Z.to_nat (hi' - lo')) (skipn (Z.to_nat lo') l).

Definition Qlt_bool (x y : Q) : bool := negb (Qle_bool y x).

(** ** Images *)

(** The samples of one pixel row. *)
Definition row := list Z.

(** [shape = (len rows, cols)] when [chan = None], and
    [shape = (len rows, cols, c)] when [chan = Some c]. *)
Record ndarray : Type := mk_ndarray {
  rows : list row;
  cols : Z;
  chan : option Z
}.

Definition height (img : ndarray) : Z := Z.of_nat (length (rows img)).
Definition width (img : ndarray) : Z := cols img.

(** [len(img.shape) == 3] *)
Definition is_3d (img : ndarray) : bool :=
  match chan img with Some _ => true | None => false end.

(** [img[lo:hi, :]] *)
Definition slice_rows (lo hi : Z) (img : ndarray) : ndarray :=
  mk_ndarray (py_slice lo hi (rows img)) (cols img) (chan img).

Definition chan_eqb (a b : option Z) : bool :=
  match a, b with
  | None, None => true
  | Some x, Some y => x =? y
  | _, _ => false
  end.

(** ** Exceptions, output, and the monad of the stitcher *)

Inductive exn : Type :=
| ValueError (msg : string)
| cv2_error
| numpy_ValueError
| OverflowError (msg : string).

Inductive result (A : Type) : Type :=
| Ok (a : A)
| Raise (e : exn).
Arguments Ok {A} a.
Arguments Raise {A} e.

(** What the stitcher prints. *)
Inductive event : Type :=
| FoundOverlapMsg (confidence : Q)
| NoOverlapMsg
| StitchingCountMsg (n : nat)
| LoadedMsg (i : Z) (path : string)
| WarningSkipMsg (path : string)
| StitchingImageMsg (i : Z) (path : string)
| FinalSizeMsg (w h : Z).

Definition M (A : Type) : Type := (list event * result A)%type.

Definition ret {A} (a : A) : M A := ([], Ok a).
Definition raise {A} (e : exn) : M A := ([], Raise e).
Definition print (e : event) : M unit := ([e], Ok tt).
Definition lift {A} (r : result A) : M A := ([], r).

Definition bind {A B} (m : M A) (f : A -> M B) : M B :=
  match snd m with
  | Ok a => (fst m ++ fst (f a), snd (f a))
  | Raise e => (fst m, Raise e)
  end.

Notation "'let*' x ':=' m 'in' k" := (bind m (fun x => k))
  (at level 10, x name, m at level 100, k at level 200).
Notation "m ;;; k" := (bind m (fun _ => k))
  (at level 100, k at level 200, right associativity).

Definition printed {A} (m : M A) : list event := fst m.
Definition outcome {A} (m : M A) : result A := snd m.

(** A [for] loop that threads a state. *)
Fixpoint for_each {A S} (body : S -> A -> M S) (st : S) (l : list A) : M S :=
  match l with
  | [] => ret st
  | x :: l' => let* st' := body st x in for_each body st' l'
  end.

(** ** Floats that need not be finite *)

(** A Python [float], a binary64 value.  A finite value is carried as the
    rational it is. *)
Inductive py_float : Type :=
| Finite (x : Q)
| Infinity (negative : bool)
| NaN.

(** From this magnitude on a product rounds to an infinity: the midpoint
    of the largest binary64, [2 ^ 1024 - 2 ^ 971], and [2 ^ 1024]. *)
Definition float_overflow : Q := inject_Z (2 ^ 1024 - 2 ^ 970).

(** [h * x] for the length [h] of an axis of a numpy array and a float
    [x].  An axis length is an [npy_intp], below [2 ^ 63]; it is taken as
    exactly representable, and the product as exact unless it overflows. *)
Definition axis_times_float (h : Z) (x : py_float) : py_float :=
  let h := h mod 2 ^ 63 in
  match x with
  | Finite x =>
      let product := (inject_Z h * x)%Q in
      if Qle_bool float_overflow product then Infinity false
      else if Qle_bool product (- float_overflow) then Infinity true
      else Finite product
  | Infinity negative => if h =? 0 then NaN else Infinity negative
  | NaN => NaN
  end.

(** [int(x)] on a float that need not be finite. *)
Definition int_of_float (x : py_float) : result Z :=
  match x with
  | Finite x => Ok (py_int x)
  | Infinity _ =>
      Raise (OverflowError "cannot convert float infinity to integer")
  | NaN => Raise (ValueError "cannot convert float NaN to integer")
  end.

(** ** Stacking *)

(** [np.vstack([a, b])]: the two arrays must agree on every axis but the
    first. *)
Definition vstack (a b : ndarray) : result ndarray :=
  if (cols a =? cols b) && chan_eqb (chan a) (chan b)
  then Ok (mk_ndarray (rows a ++ rows b) (cols a) (chan a))
  else Raise numpy_ValueError.

(** ** The OpenCV calls *)

(** A raster buffer: at least one row and one column; a 2-dimensional
    (grayscale) or a 3-channel (BGR) array. *)
Definition raster (img : ndarray) : Prop :=
  0 < height img /\ 0 < width img /\ (chan img = None \/ chan img = Some 3).

Class Cv2 : Type := {
  (** [cv2.resize(src, (w, h))] *)
  resize : ndarray -> Z -> Z -> result ndarray;
  (** [cv2.cvtColor(src, cv2.COLOR_BGR2GRAY)] *)
  cvtColor_BGR2GRAY : ndarray -> result ndarray;
  (** [max_val] of [cv2.minMaxLoc(cv2.matchTemplate(image, templ,
      cv2.TM_CCOEFF_NORMED))] *)
  matchTemplate_max : ndarray -> ndarray -> result Q;
  (** [cv2.imread(path)]; [None] when the file cannot be read *)
  imread : string -> option ndarray;

  resize_shape : forall src w h dst,
    resize src w h = Ok dst ->
    height dst = h /\ width dst = w /\ chan dst = chan src;
  resize_defined : forall src w h,
    0 < height src -> 0 < width src -> 0 < w -> 0 < h ->
    exists dst, resize src w h = Ok dst;
  cvtColor_shape : forall src dst,
    cvtColor_BGR2GRAY src = Ok dst ->
    height dst = height src /\ width dst = width src /\ chan dst = None;
  cvtColor_defined : forall src,
    0 < height src -> 0 < width src -> chan src = Some 3 ->
    exists dst, cvtColor_BGR2GRAY src = Ok dst;
  matchTemplate_defined : forall image templ,
    chan image = None -> chan templ = None ->
    0 < height templ -> 0 < width templ ->
    height templ <= height image -> width templ <= width image ->
    exists v, matchTemplate_max image templ = Ok v;
  imread_raster : forall path img,
    imread path = Some img -> raster img /\ chan img = Some 3
}.

(** ** ImageStitcher *)

Record ImageStitcher : Type := mk_ImageStitcher {
  overlap_threshold : Q
}.

Section Stitcher.

Context `{cv : Cv2}.

Definition min_overlap (h1 h2 : Z) : Z :=
  py_int (inject_Z (Z.min h1 h2) * (1 # 10)).
Definition max_overlap (h1 h2 : Z) : Z :=
  py_int (inject_Z (Z.min h1 h2) * (9 # 10)).

(** The candidate sizes of the sweep:
    [range(max_overlap, min_overlap, -10)]. *)
Definition sweep (h1 h2 : Z) : list Z :=
  py_range (max_overlap h1 h2) (min_overlap h1 h2) (-10).

(** The loop state: [(best_match_score, best_offset)]. *)
Definition best : Type := (Q * option Z)%type.

(** Lines 60-65: when the widths differ, the narrower of the template and
    the search area is resized to the wider one, keeping its height. *)
Definition resize_to_same_width (w1 w2 : Z) (template search_area : ndarray)
  : M (ndarray * ndarray) :=
  if negb (w1 =? w2) then
    if w1 <? w2 then
      let* t := lift (resize template w2 (height template)) in
      ret (t, search_area)
    else
      let* s := lift (resize search_area w1 (height search_area)) in
      ret (template, s)
  else ret (template, search_area).

(** Lines 68-69: [cv2.cvtColor(x, cv2.COLOR_BGR2GRAY) if len(x.shape) == 3
    else x]. *)
Definition to_gray (img : ndarray) : M ndarray :=
  if is_3d img then lift (cvtColor_BGR2GRAY img) else ret img.

(** The part of the loop body that produces [max_val]; [None] is the
    [continue] of the geometry check. *)
Definition candidate_score (img1 img2 : ndarray) (overlap_size : Z)
  : M (option Q) :=
  let h1 := height img1 in let w1 := width img1 in
  let h2 := height img2 in let w2 := width img2 in
  let template := slice_rows (h1 - overlap_size) h1 img1 in
  let search_area := slice_rows 0 (Z.min (overlap_size + 100) h2) img2 in
  let* ts := resize_to_same_width w1 w2 template search_area in
  let* template_gray := to_gray (fst ts) in
  let* search_gray := to_gray (snd ts) in
  if height template_gray >? height search_gray then ret None
  else
    let* max_val := lift (matchTemplate_max search_gray template_gray) in
    ret (Some max_val).

(** The update of the best match. *)
Definition update_best (threshold : Q) (h1 : Z) (st : best)
  (overlap_size : Z) (max_val : Q) : best :=
  if Qlt_bool (fst st) max_val && Qle_bool threshold max_val
  then (max_val, Some (h1 - overlap_size))
  else st.

Definition find_overlap_body (self : ImageStitcher) (img1 img2 : ndarray)
  (st : best) (overlap_size : Z) : M best :=
  let* r := candidate_score img1 img2 overlap_size in
  match r with
  | None => ret st
  | Some max_val =>
      ret (update_best (overlap_threshold self) (height img1) st
             overlap_size max_val)
  end.

(** The sweep itself: the state when the loop ends. *)
Definition find_overlap_loop (self : ImageStitcher) (img1 img2 : ndarray)
  : M best :=
  for_each (find_overlap_body self img1 img2) (0%Q, None)
    (sweep (height img1) (height img2)).

Definition find_overlap (self : ImageStitcher) (img1 img2 : ndarray)
  (search_region : py_float) : M (option Z) :=
  let h1 := height img1 in
  let* search_height :=
    lift (int_of_float (axis_times_float h1 search_region)) in
  let search_start := h1 - search_height in
  let* st := find_overlap_loop self img1 img2 in
  match snd st with
  | Some best_offset =>
      print (FoundOverlapMsg (fst st)) ;;; ret (Some best_offset)
  | None =>
      print NoOverlapMsg ;;; ret None
  end.

(** The width matching of [stitch_two_images], the same in both branches. *)
Definition match_widths (img1 img2 : ndarray) : M (ndarray * ndarray) :=
  let h1 := height img1 in let w1 := width img1 in
  let h2 := height img2 in let w2 := width img2 in
  if negb (w1 =? w2) then
    let max_width := Z.max w1 w2 in
    let* img1' := (if w1 <? max_width then lift (resize img1 max_width h1)
              else ret img1) in
    let* img2' := (if w2 <? max_width then lift (resize img2 max_width h2)
              else ret img2) in
    ret (img1', img2')
  else ret (img1, img2).

Definition stitch_two_images (self : ImageStitcher) (img1 img2 : ndarray)
  : M ndarray :=
  let* overlap_offset := find_overlap self img1 img2 (Finite (1 # 2)) in
  match overlap_offset with
  | None =>
      let* p := match_widths img1 img2 in
      lift (vstack (fst p) (snd p))
  | Some overlap_offset =>
      let* p := match_widths img1 img2 in
      let overlap_height := height img1 - overlap_offset in
      lift (vstack (slice_rows 0 overlap_offset (fst p)) (snd p))
  end.

Definition stitch_loop_body (self : ImageStitcher) (st : Z * ndarray)
  (img_path : string) : M (Z * ndarray) :=
  let i := fst st in
  let result := snd st in
  match imread img_path with
  | None =>
      print (WarningSkipMsg img_path) ;;; ret (i + 1, result)
  | Some img =>
      print (StitchingImageMsg i img_path) ;;;
      let* result' := stitch_two_images self result img in
      ret (i + 1, result')
  end.

Definition stitch_multiple_images (self : ImageStitcher)
  (image_paths : list string) : M ndarray :=
  match image_paths with
  | [] => raise (ValueError "No images provided")
  | [path] =>
      match imread path with
      | None => raise (ValueError (String.append "Could not read image: " path))
      | Some img => ret img
      end
  | path :: rest =>
      print (StitchingCountMsg (length image_paths)) ;;;
      match imread path with
      | None => raise (ValueError (String.append "Could not read image: " path))
      | Some result =>
          print (LoadedMsg 1 path) ;;;
          let* st := for_each (stitch_loop_body self) (2, result) rest in
          print (FinalSizeMsg (width (snd st)) (height (snd st))) ;;;
          ret (snd st)
      end
  end.

End Stitcher.


(** ** The truncated products in binary64 *)

(** [int(x)] on a binary64 value; [None] where Python raises (infinities
    and NaN). *)
Definition float_to_int (x : float) : option Z :=
  match Prim2SF x with
  | S754_zero _ => Some 0
  | S754_finite s m e =>
      let magnitude :=
        if 0 <=? e then Z.pos m * 2 ^ e else Z.pos m / 2 ^ (- e) in
      Some (if s then - magnitude else magnitude)
  | S754_infinity _ => None
  | S754_nan => None
  end.

(** [int(h * factor)] for an [int] [h] and a binary64 [factor]. *)
Definition int_of_product (h : Z) (factor : float) : option Z :=
  float_to_int (PrimFloat.mul (PrimFloat.of_uint63 (Uint63.of_Z h)) factor).

(** The doubles nearest to 0.1 and 0.9. *)
Definition binary64_0_1 : float := 0x1.999999999999ap-4%float.
Definition binary64_0_9 : float := 0x1.ccccccccccccdp-1%float.

(** Whether, for the smaller height [h], the binary64 computation of the
    source gives the overlap sizes of the model. *)
Definition binary64_agrees (h : Z) : bool :=
  match int_of_product h binary64_0_1, int_of_product h binary64_0_9 with
  | Some lo, Some hi => (lo =? min_overlap h h) && (hi =? max_overlap h h)
  | _, _ => false
  end.

(** ** The conversion of the search region *)

(** Line 42 on its own: [int(h1 * search_region)]. *)
Definition search_height (h1 : Z) (search_region : py_float) : result Z :=
  int_of_float (axis_times_float h1 search_region).

(** A result behind line 42: the exception of the conversion when it
    raises, and [m] when it does not. *)
Definition after_search_height {A} (h1 : Z) (search_region : py_float)
  (m : M A) : M A :=
  lift (search_height h1 search_region) ;;; m.

(** A binary64 value as a [py_float]. *)
Definition of_binary64 (x : float) : py_float :=
  match Prim2SF x with
  | S754_zero _ => Finite 0
  | S754_finite s m e =>
      let magnitude :=
        if 0 <=? e then inject_Z (Z.pos m * 2 ^ e)
        else (inject_Z (Z.pos m) / inject_Z (2 ^ (- e)))%Q in
      Finite (if s then - magnitude else magnitude)%Q
  | S754_infinity s => Infinity s
  | S754_nan => NaN
  end.

(** Whether the conversion of the model raises where binary64 does, and
    with the exception Python has there: [ValueError] for a NaN,
    [OverflowError] for an infinity. *)
Definition binary64_converts_alike (h : Z) (x : float) : bool :=
  let product := PrimFloat.mul (PrimFloat.of_uint63 (Uint63.of_Z h)) x in
  match search_height h (of_binary64 x), float_to_int product with
  | Ok _, Some _ => true
  | Raise (ValueError _), None => PrimFloat.is_nan product
  | Raise (OverflowError _), None => PrimFloat.is_infinity product
  | _, _ => false
  end.

(** Search regions to compare on: fractions; values near 1e308 and 1e300;
    the largest binary64 and values whose product with a small height is
    just below, at and just above the overflow bound; infinities, a NaN,
    zeros and a subnormal. *)
Definition binary64_samples : list float :=
  [0.5; binary64_0_1; binary64_0_9; 1; 2.5; -0.5;
   0x1.1ccf385ebc8ap+1023; -0x1.1ccf385ebc8ap+1023; 0x1.7e43c8800759cp+996;
   0x1p1023; -0x1p1023; 0x1.fffffffffffffp1023;
   0x1.5555555555555p1022; 0x1.5555555555554p1022;
   0x1p1016; 0x1.fffffffffffffp1015; -0x1.fffffffffffffp1015; 0x1p1015;
   infinity; neg_infinity; nan; 0; -0;
   0x0.00000000007e8p-1022]%float.

(** A computation that prints nothing. *)
Definition silent {A} (m : M A) : Prop := printed m = [].

(** ** The sweep seen as a list of candidate results *)

Section Locator.

Context `{cv : Cv2}.

(** The candidates of a sweep with what [candidate_score] gives for each,
    in sweep order. *)
Fixpoint scan (img1 img2 : ndarray) (l : list Z) : M (list (Z * option Q)) :=
  match l with
  | [] => ret []
  | s :: l' =>
      let* r := candidate_score img1 img2 s in
      let* rs := scan img1 img2 l' in
      ret ((s, r) :: rs)
  end.

(** What one iteration does to the loop state, given the candidate's result. *)
Definition apply_result (threshold : Q) (h1 : Z) (st : best)
  (r : Z * option Q) : best :=
  match snd r with
  | None => st
  | Some max_val => update_best threshold h1 st (fst r) max_val
  end.

End Locator.

(** ** The locator as the specification words it *)

Inductive OverlapResult : Type :=
| NotFound
| Found (offset : Z) (confidence : Q).

(** The result the final loop state stands for. *)
Definition overlap_result (st : best) : OverlapResult :=
  match snd st with
  | Some best_offset => Found best_offset (fst st)
  | None => NotFound
  end.

(** Tracking the best (correlation, size) pair over the candidates that
    [accept] lets through: there is no best pair at first, and a later
    candidate replaces the current one only on a strictly greater
    correlation. *)
Fixpoint track_best (accept : Q -> bool) (cur : option (Q * Z))
  (rs : list (Z * option Q)) : option (Q * Z) :=
  match rs with
  | [] => cur
  | (_, None) :: rs' => track_best accept cur rs'
  | (s, Some c) :: rs' =>
      if accept c then
        match cur with
        | None => track_best accept (Some (c, s)) rs'
        | Some (c0, _) =>
            if Qlt_bool c0 c then track_best accept (Some (c, s)) rs'
            else track_best accept cur rs'
        end
      else track_best accept cur rs'
  end.

Definition located (h1 : Z) (b : option (Q * Z)) : OverlapResult :=
  match b with
  | Some (c, s) => Found (h1 - s) c
  | None => NotFound
  end.

(** Candidates qualify when their correlation is at least the threshold. *)
Definition locate_at_least (threshold : Q) (h1 : Z)
  (rs : list (Z * option Q)) : OverlapResult :=
  located h1 (track_best (fun c => Qle_bool threshold c) None rs).

(** Candidates qualify when their correlation is at least the threshold and
    strictly positive. *)
Definition locate_positive (threshold : Q) (h1 : Z)
  (rs : list (Z * option Q)) : OverlapResult :=
  located h1
    (track_best (fun c => Qle_bool threshold c && Qlt_bool 0 c) None rs).

(** The candidate sizes from [max_overlap] down to and including
    [min_overlap], ten rows apart. *)
Definition sweep_closed (h1 h2 : Z) (s : Z) : Prop :=
  min_overlap h1 h2 <= s <= max_overlap h1 h2 /\
  exists k, 0 <= k /\ s = max_overlap h1 h2 - 10 * k.

(** The locator agrees with [locate] on the results of its sweep: the final
    loop state is the result [locate] names, the offset is what
    [find_overlap] returns and the confidence is what it prints, behind the
    conversion of line 42, which the search regions from 0 to 1 pass. *)
Definition locator_agrees `{cv : Cv2}
  (locate : Q -> Z -> list (Z * option Q) -> OverlapResult)
  (self : ImageStitcher) (img1 img2 : ndarray) (search_region : py_float)
  : Prop :=
  exists rs st,
    outcome (scan img1 img2 (sweep (height img1) (height img2))) = Ok rs /\
    map fst rs = sweep (height img1) (height img2) /\
    outcome (find_overlap_loop self img1 img2) = Ok st /\
    overlap_result st = locate (overlap_threshold self) (height img1) rs /\
    find_overlap self img1 img2 search_region =
      after_search_height (height img1) search_region
        match overlap_result st with
        | Found offset confidence =>
            ([FoundOverlapMsg confidence], Ok (Some offset))
        | NotFound => ([NoOverlapMsg], Ok None)
        end /\
    forall x, (0 <= x <= 1)%Q ->
      find_overlap self img1 img2 (Finite x) =
        match overlap_result st with
        | Found offset confidence =>
            ([FoundOverlapMsg confidence], Ok (Some offset))
        | NotFound => ([NoOverlapMsg], Ok None)
        end.

(** The invariant of the loop state: the best score is never negative, and
    once an offset is recorded it is positive and at least the threshold. *)
Definition best_inv (threshold : Q) (st : best) : Prop :=
  (0 <= fst st)%Q /\
  (snd st <> None -> (0 < fst st)%Q /\ (threshold <= fst st)%Q).

(** The loop state [st] stands for the tracked pair [cur]. *)
Definition tracks (h1 : Z) (st : best) (cur : option (Q * Z)) : Prop :=
  match cur with
  | None => st = (0%Q, None)
  | Some (c, s) => st = (c, Some (h1 - s)) /\ (0 < c)%Q
  end.

(** ** The pipeline seen from outside *)

Section Pipeline.

Context `{cv : Cv2}.

(** [cv2.imread(path) is not None] *)
Definition readable (path : string) : bool :=
  match imread path with Some _ => true | None => false end.

(** The images that a list of paths loads, in order. *)
Definition loaded (paths : list string) : list ndarray :=
  flat_map (fun p => match imread p with Some img => [img] | None => [] end)
    paths.

(** The running composite once the loop of [stitch_multiple_images],
    started on [composite] with counter [i], has consumed [paths]. *)
Definition composite_from (self : ImageStitcher) (i : Z) (composite : ndarray)
  (paths : list string) : result ndarray :=
  match outcome (for_each (stitch_loop_body self) (i, composite) paths) with
  | Ok st => Ok (snd st)
  | Raise e => Raise e
  end.

End Pipeline.

(** The sum of the heights of a list of images. *)
Definition sum_heights (imgs : list ndarray) : Z :=
  fold_right (fun img acc => height img + acc) 0 imgs.

(** ** A test double for OpenCV

    An instance of [Cv2] over an in-memory file table and a given scoring
    function; it is used to run the stitcher on concrete images. *)

Module Stub.

Definition nonempty (img : ndarray) : bool :=
  (0 <? height img) && (0 <? width img).

Definition stub_resize (src : ndarray) (w h : Z) : result ndarray :=
  if nonempty src && (0 <? w) && (0 <? h)
  then Ok (mk_ndarray (repeat (hd [] (rows src)) (Z.to_nat h)) w (chan src))
  else Raise cv2_error.

Definition stub_cvtColor (src : ndarray) : result ndarray :=
  if nonempty src && chan_eqb (chan src) (Some 3)
  then Ok (mk_ndarray (rows src) (cols src) None)
  else Raise cv2_error.

Definition stub_matchTemplate (score : ndarray -> ndarray -> Q)
  (image templ : ndarray) : result Q :=
  if chan_eqb (chan image) None && chan_eqb (chan templ) None
     && nonempty templ
     && (height templ <=? height image) && (width templ <=? width image)
  then Ok (score image templ)
  else Raise cv2_error.

Definition stub_imread (files : list (string * ndarray)) (path : string)
  : option ndarray :=
  match find (fun f => String.eqb (fst f) path) files with
  | Some (_, img) =>
      if nonempty img && chan_eqb (chan img) (Some 3) then Some img else None
  | None => None
  end.

Definition cv2 (score : ndarray -> ndarray -> Q)
  (files : list (string * ndarray)) : Cv2.
Proof.
  refine (Build_Cv2 stub_resize stub_cvtColor (stub_matchTemplate score)
            (stub_imread files) _ _ _ _ _ _).
  - intros src w h dst. unfold stub_resize, nonempty.
    destruct (0 <? height src) eqn:E1; [ | discriminate ].
    destruct (0 <? width src) eqn:E2; [ | discriminate ].
    destruct (0 <? w) eqn:E3; [ | discriminate ].
    destruct (0 <? h) eqn:E4; [ | discriminate ].
    simpl. intros [= <-]. unfold height, width. simpl.
    rewrite repeat_length. apply Z.ltb_lt in E4. repeat split. lia.
  - intros src w h H1 H2 H3 H4. unfold stub_resize, nonempty.
    apply Z.ltb_lt in H1, H2, H3, H4. rewrite H1, H2, H3, H4. simpl.
    eexists. reflexivity.
  - intros src dst. unfold stub_cvtColor.
    destruct (nonempty src && chan_eqb (chan src) (Some 3));
      [ | discriminate ].
    intros [= <-]. repeat split.
  - intros src H1 H2 H3. unfold stub_cvtColor, nonempty.
    apply Z.ltb_lt in H1, H2. rewrite H1, H2, H3. simpl.
    eexists. reflexivity.
  - intros image templ C1 C2 H1 H2 H3 H4.
    unfold stub_matchTemplate, nonempty.
    apply Z.ltb_lt in H1, H2. apply Z.leb_le in H3, H4.
    rewrite C1, C2, H1, H2, H3, H4. simpl. eexists. reflexivity.
  - intros path img. unfold stub_imread.
    destruct (find _ files) as [[p i] | ]; [ | discriminate ].
    destruct (nonempty i) eqn:N; [ | discriminate ].
    destruct (chan_eqb (chan i) (Some 3)) eqn:C; [ | discriminate ].
    simpl. intros [= <-]. unfold nonempty in N.
    apply andb_true_iff in N. destruct N as [N1 N2].
    apply Z.ltb_lt in N1, N2.
    assert (chan i = Some 3).
    { destruct (chan i) as [c | ]; simpl in C; [ | discriminate ].
      apply Z.eqb_eq in C. now subst. }
    unfold raster. auto.
Defined.

(** A [h] x [w] grayscale image and a [h] x [w] BGR image, all black. *)
Definition gray_image (h w : nat) : ndarray :=
  mk_ndarray (repeat (repeat 0 w) h) (Z.of_nat w) None.
Definition bgr_image (h w : nat) : ndarray :=
  mk_ndarray (repeat (repeat 0 (3 * w)) h) (Z.of_nat w) (Some 3).

(** Scores: a matcher that sees no correlation anywhere, and one whose score
    depends on the height of the template only. *)
Definition flat_score (image templ : ndarray) : Q := 0.
Definition score_by_height (table : list (Z * Q)) (image templ : ndarray) : Q :=
  match find (fun e => fst e =? height templ) table with
  | Some (_, c) => c
  | None => 0
  end.

(** Three screenshots on disk; any other path is unreadable. *)
Definition files : list (string * ndarray) :=
  [ ("shot1.png"%string, bgr_image 20 4);
    ("shot2.png"%string, bgr_image 20 6);
    ("shot3.png"%string, bgr_image 30 4) ].

(** A matcher that finds the 8-row template best (0.9) and the 18-row
    template mediocre (0.5), and one that sees nothing. *)
Definition cv_match : Cv2 :=
  cv2 (score_by_height [(8, 9 # 10); (18, 1 # 2)]) files.
Definition cv_flat : Cv2 := cv2 flat_score files.

End Stub.

(** ** More about the stitcher *)

(** The largest width among a list of images. *)
Definition max_width (imgs : list ndarray) : Z :=
  fold_right (fun img acc => Z.max (width img) acc) 0 imgs.

(** What [stitch_multiple_images] prints when every path after the first is
    unreadable. *)
Definition skipped_all_output (path : string) (rest : list string)
  (first : ndarray) : list event :=
  match rest with
  | [] => []
  | _ :: _ =>
      [StitchingCountMsg (S (length rest)); LoadedMsg 1 path]
        ++ map WarningSkipMsg rest
        ++ [FinalSizeMsg (width first) (height first)]
  end.

(** * The command line and the text collaborators

    [src/screenshot_ocr.py], [src/chat_detector.py] and
    [src/ocr_extractor.py].  A Python [str] is a [string], one [ascii] per
    character. *)

(** ** Python strings *)

(** [s * n] *)
Fixpoint str_repeat (s : string) (n : nat) : string :=
  match n with
  | O => EmptyString
  | S n' => String.append s (str_repeat s n')
  end.

(** [str(n)] for a length. *)
Definition str_of_nat (n : nat) : string :=
  NilZero.string_of_uint (Nat.to_uint n).

(** [s.split(c)] for a separator of one character: never empty, and one
    piece more than there are separators. *)
Fixpoint split_on (c : ascii) (s : string) : list string :=
  match s with
  | EmptyString => [EmptyString]
  | String a s' =>
      if Ascii.eqb a c then EmptyString :: split_on c s'
      else match split_on c s' with
           | piece :: pieces => String a piece :: pieces
           | [] => [String a EmptyString]
           end
  end.

(** The line feed, and ['\n'.join(l)]. *)
Definition LF : ascii := Ascii.ascii_of_nat 10.
Definition join_lines (l : list string) : string :=
  String.concat (String LF EmptyString) l.

(** Whether a character occurs in a string. *)
Fixpoint occurs (c : ascii) (s : string) : bool :=
  match s with
  | EmptyString => false
  | String a s' => Ascii.eqb a c || occurs c s'
  end.

(** [c.isspace()] on the characters a [string] can hold: the ASCII white
    space, the four ASCII separators, NEL and the no-break space. *)
Definition is_space (c : ascii) : bool :=
  let n := nat_of_ascii c in
  ((9 <=? n) && (n <=? 13))%nat || ((28 <=? n) && (n <=? 32))%nat
  || (n =? 133)%nat || (n =? 160)%nat.

(** [s.lstrip()], [s.rstrip()] and [s.strip()]. *)
Fixpoint lstrip (s : string) : string :=
  match s with
  | EmptyString => EmptyString
  | String a s' => if is_space a then lstrip s' else s
  end.

Fixpoint rstrip (s : string) : string :=
  match s with
  | EmptyString => EmptyString
  | String a s' =>
      match rstrip s' with
      | EmptyString => if is_space a then EmptyString else String a EmptyString
      | rest => String a rest
      end
  end.

Definition strip (s : string) : string := lstrip (rstrip s).

(** The truth value of an [Optional[str]]: [None] and [""] are false. *)
Definition truthy (o : option string) : bool :=
  match o with
  | Some (String _ _) => true
  | _ => false
  end.

(** ** Exceptions of the command line *)

Inductive exception : Type :=
| FileNotFoundError (msg : string)
| Raised (e : exn)
| KeyError (key : string)
| IndexError
| OSError (msg : string).

Inductive tried (A : Type) : Type :=
| Returned (a : A)
| Thrown (e : exception).
Arguments Returned {A} a.
Arguments Thrown {A} e.

(** ** [validate_images] *)

(** [os.path.exists] and [os.path.isfile]. *)
Record FileSystem : Type := mk_FileSystem {
  path_exists : string -> bool;
  path_isfile : string -> bool
}.

Fixpoint validate_images_loop (fs : FileSystem) (validated : list string)
  (image_paths : list string) : tried (list string) :=
  match image_paths with
  | [] => Returned validated
  | path :: rest =>
      if negb (path_exists fs path) then
        Thrown (FileNotFoundError
                  (String.append "Image file not found: " path))
      else if negb (path_isfile fs path) then
        Thrown (Raised (ValueError (String.append "Not a file: " path)))
      else validate_images_loop fs (validated ++ [path]) rest
  end.

Definition validate_images (fs : FileSystem) (image_paths : list string)
  : tried (list string) :=
  validate_images_loop fs [] image_paths.

(** A path that passes both checks. *)
Definition is_input_file (fs : FileSystem) (path : string) : bool :=
  path_exists fs path && path_isfile fs path.

(** ** ChatDetector: formatting and summary *)

Module Chat.

Record ChatMessage : Type := mk_ChatMessage {
  speaker : string;
  message : string;
  timestamp : option string;
  line_number : Z
}.

(** ["=" * 60] *)
Definition rule : string := str_repeat "=" 60.

(** The header line of a message. *)
Definition header (include_timestamps : bool) (msg : ChatMessage) : string :=
  if include_timestamps && truthy (timestamp msg) then
    match timestamp msg with
    | Some t =>
        String.append "["
          (String.append t
             (String.append "] " (String.append (speaker msg) ":")))
    | None => String.append (speaker msg) ":"
    end
  else String.append (speaker msg) ":".

(** The body of the loop of [format_conversation]: what one message
    appends to [formatted]. *)
Definition format_message (include_timestamps : bool)
  (formatted : list string) (msg : ChatMessage) : list string :=
  let formatted := formatted ++ [header include_timestamps msg] in
  let message_lines := split_on LF (message msg) in
  let formatted :=
    fold_left (fun f line => f ++ [String.append "  " line])
      message_lines formatted in
  formatted ++ [EmptyString].

Definition format_conversation (messages : list ChatMessage)
  (include_timestamps : bool) : string :=
  match messages with
  | [] => EmptyString
  | _ :: _ =>
      let formatted := [] in
      let formatted := formatted ++ [rule] in
      let formatted := formatted ++ ["CHAT CONVERSATION"%string] in
      let formatted := formatted ++ [rule] in
      let formatted := formatted ++ [EmptyString] in
      let formatted :=
        fold_left (format_message include_timestamps) messages formatted in
      let formatted := formatted ++ [rule] in
      let formatted :=
        formatted ++ [String.append "Total messages: "
                        (str_of_nat (length messages))] in
      let formatted := formatted ++ [rule] in
      join_lines formatted
  end.

(** The lines one message contributes. *)
Definition message_block (include_timestamps : bool) (msg : ChatMessage)
  : list string :=
  header include_timestamps msg
    :: map (String.append "  ") (split_on LF (message msg))
    ++ [EmptyString].

(** A [dict] from [str] to [int], in insertion order. *)
Definition dict : Type := list (string * Z).

Fixpoint dict_get (k : string) (d : dict) : option Z :=
  match d with
  | [] => None
  | (k', v) :: d' => if String.eqb k' k then Some v else dict_get k d'
  end.

(** [k in d] *)
Definition dict_contains (k : string) (d : dict) : bool :=
  match dict_get k d with Some _ => true | None => false end.

(** [d[k] = v]: an existing key keeps its place, a new key goes last. *)
Fixpoint dict_set (k : string) (v : Z) (d : dict) : dict :=
  match d with
  | [] => [(k, v)]
  | (k', v') :: d' =>
      if String.eqb k' k then (k', v) :: d' else (k', v') :: dict_set k v d'
  end.

(** [list(d.keys())] *)
Definition dict_keys (d : dict) : list string := map fst d.

(** The body of the counting loop of [get_conversation_summary]. *)
Definition count_speaker (speakers : tried dict) (msg : ChatMessage)
  : tried dict :=
  match speakers with
  | Thrown e => Thrown e
  | Returned speakers =>
      let speaker := speaker msg in
      let speakers :=
        if negb (dict_contains speaker speakers)
        then dict_set speaker 0 speakers
        else speakers in
      match dict_get speaker speakers with
      | Some n => Returned (dict_set speaker (n + 1) speakers)
      | None => Thrown (KeyError speaker)
      end
  end.

(** The dictionary that [get_conversation_summary] returns; the key
    ['has_timestamps'] is absent for an empty conversation. *)
Record Summary : Type := mk_Summary {
  total_messages : Z;
  participants : list string;
  message_count_by_speaker : dict;
  has_timestamps : option bool
}.

Definition get_conversation_summary (messages : list ChatMessage)
  : tried Summary :=
  match messages with
  | [] => Returned (mk_Summary 0 [] [] None)
  | _ :: _ =>
      match fold_left count_speaker messages (@Returned dict []) with
      | Thrown e => Thrown e
      | Returned speakers =>
          Returned
            (mk_Summary (Z.of_nat (length messages)) (dict_keys speakers)
               speakers
               (Some (existsb (fun msg => truthy (timestamp msg)) messages)))
      end
  end.

(** The speakers of a conversation in the order of their first message. *)
Fixpoint first_speakers (seen : list string) (messages : list ChatMessage)
  : list string :=
  match messages with
  | [] => []
  | msg :: rest =>
      if existsb (String.eqb (speaker msg)) seen
      then first_speakers seen rest
      else speaker msg :: first_speakers (seen ++ [speaker msg]) rest
  end.

(** The sum of the counts of a dictionary. *)
Definition dict_total (d : dict) : Z :=
  fold_right (fun kv acc => snd kv + acc) 0 d.

(** The frame that [format_conversation] puts around the messages. *)
Definition frame_top : list string :=
  [rule; "CHAT CONVERSATION"%string; rule; EmptyString].
Definition frame_bottom (n : nat) : list string :=
  [rule; String.append "Total messages: " (str_of_nat n); rule].

(** A message whose speaker and timestamp hold no line feed. *)
Definition one_line_header (msg : ChatMessage) : Prop :=
  occurs LF (speaker msg) = false /\
  forall t, timestamp msg = Some t -> occurs LF t = false.

(** How many messages a speaker has. *)
Definition messages_by (s : string) (messages : list ChatMessage) : Z :=
  Z.of_nat (length (filter (fun msg => String.eqb (speaker msg) s) messages)).

End Chat.

(** ** ChatDetector: detection and extraction *)

(** The compiled regular expressions that [ChatDetector] uses, by what the
    code asks of them: the groups of [patterns[k].match(line)] for the
    patterns that [extract_messages] tries, whether [time_patterns[k]]
    finds a timestamp, and whether a line begins like a speaker
    ([re.match(r'^[A-Z][a-zA-Z\s]*:', line)]). *)
Class Patterns : Type := {
  pattern0 : string -> option (string * string);
  pattern1 : string -> option (string * string * string);
  pattern2 : string -> option (string * string * string);
  pattern5 : string -> option (string * string * string);
  time_pattern0 : string -> bool;
  time_pattern1 : string -> bool;
  speaker_prefix : string -> bool
}.

Module ChatDetector.

Import Chat.

Section Detector.

Context `{re : Patterns}.

(** [len(s)] *)
Definition len (s : string) : Z := Z.of_nat (String.length s).

(** [bool(s)] for a string. *)
Definition nonempty (s : string) : bool :=
  match s with EmptyString => false | String _ _ => true end.

(** [[line.strip() for line in text.split('\n') if line.strip()]] *)
Definition stripped_lines (text : string) : list string :=
  map strip (filter (fun line => nonempty (strip line)) (split_on LF text)).

(** Whether one of [patterns[:3]] matches, and whether one of the time
    patterns finds something. *)
Definition matches_chat_pattern (line : string) : bool :=
  match pattern0 line with
  | Some _ => true
  | None =>
      match pattern1 line with
      | Some _ => true
      | None => match pattern2 line with Some _ => true | None => false end
      end
  end.

Definition has_timestamp (line : string) : bool :=
  time_pattern0 line || time_pattern1 line.

(** The body of the loop of [is_likely_chat]. *)
Definition count_indicators (chat_indicators : Q) (line : string) : Q :=
  let chat_indicators :=
    if matches_chat_pattern line then (chat_indicators + 1)%Q
    else chat_indicators in
  if has_timestamp line then (chat_indicators + (1 # 2))%Q
  else chat_indicators.

Definition is_likely_chat (text : string) : bool :=
  let lines := stripped_lines text in
  if Z.of_nat (length lines) <? 3 then false
  else
    let chat_indicators := fold_left count_indicators lines 0%Q in
    let total_lines := Z.of_nat (length lines) in
    let confidence := (chat_indicators / inject_Z total_lines)%Q in
    Qlt_bool (3 # 10) confidence.

(** The state of the loop of [extract_messages]: the list [messages] and
    [current_message], which is [None] or one of the objects of the list,
    named by its position there. *)
Record extraction : Type := mk_extraction {
  messages : list ChatMessage;
  current_message : option nat
}.

(** [current_message = ChatMessage(...); messages.append(current_message)] *)
Definition append_message (st : extraction) (msg : ChatMessage)
  : extraction :=
  mk_extraction (messages st ++ [msg]) (Some (length (messages st))).

(** [obj.message += '\n' + line] on the object at a position. *)
Fixpoint extend_at (idx : nat) (line : string) (l : list ChatMessage)
  : list ChatMessage :=
  match l, idx with
  | [], _ => []
  | m :: l', O =>
      mk_ChatMessage (speaker m)
        (String.append (message m) (String LF line))
        (timestamp m) (line_number m) :: l'
  | m :: l', S idx' => m :: extend_at idx' line l'
  end.

(** One of the three-group patterns, tried when nothing matched yet. *)
Definition try_timed (matched : bool) (st : extraction)
  (groups : option (string * string * string)) (i : Z)
  : extraction * bool :=
  if negb matched then
    match groups with
    | Some (timestamp, speaker, message) =>
        (append_message st
           (mk_ChatMessage (strip speaker) (strip message)
              (Some (strip timestamp)) i), true)
    | None => (st, matched)
    end
  else (st, matched).

(** Pattern 3 names its groups speaker, timestamp, message. *)
Definition swap_groups (groups : option (string * string * string))
  : option (string * string * string) :=
  match groups with
  | Some (speaker, timestamp, message) => Some (timestamp, speaker, message)
  | None => None
  end.

(** The body of the loop of [extract_messages] for line [i]. *)
Definition extract_line (st : extraction) (i : Z) (line : string)
  : extraction :=
  let line := strip line in
  if negb (nonempty line) then st
  else
    let matched := false in
    let '(st, matched) :=
      match pattern0 line with
      | Some (speaker, message) =>
          if negb matched then
            if (0 <? len speaker) && (len speaker <? 30) then
              (append_message st
                 (mk_ChatMessage (strip speaker) (strip message) None i),
               true)
            else (st, matched)
          else (st, matched)
      | None => (st, matched)
      end in
    let '(st, matched) := try_timed matched st (pattern1 line) i in
    let '(st, matched) :=
      try_timed matched st (swap_groups (pattern2 line)) i in
    let '(st, matched) := try_timed matched st (pattern5 line) i in
    if negb matched then
      match current_message st with
      | Some idx =>
          if negb (speaker_prefix line)
          then mk_extraction (extend_at idx line (messages st)) (Some idx)
          else st
      | None => st
      end
    else st.

(** [for i, line in enumerate(lines)] *)
Fixpoint extract_lines (st : extraction) (i : Z) (lines : list string)
  : extraction :=
  match lines with
  | [] => st
  | line :: rest => extract_lines (extract_line st i line) (i + 1) rest
  end.

Definition extract_messages (text : string) : list ChatMessage :=
  let lines := split_on LF text in
  messages (extract_lines (mk_extraction [] None) 0 lines).

(** [', '.join(l)] *)
Definition join_comma (l : list string) : string := String.concat ", " l.

Definition process_text (text : string) : tried (bool * string) :=
  let is_chat := is_likely_chat text in
  if is_chat then
    let messages := extract_messages text in
    match messages with
    | _ :: _ =>
        let formatted := format_conversation messages true in
        match get_conversation_summary messages with
        | Thrown e => Thrown e
        | Returned summary =>
            let summary_text :=
              String.append "Detected chat conversation with "
                (String.append (str_of_nat (Z.to_nat (total_messages summary)))
                   (String.append " messages"
                      (String LF
                         (String.append "Participants: "
                            (String.append
                               (join_comma (participants summary))
                               (String LF (String LF EmptyString))))))) in
            Returned (true, String.append summary_text formatted)
        end
    | [] => Returned (false, text)
    end
  else Returned (false, text).

(** Whether a stripped line produces no message: none of the four patterns
    of [extract_messages] applies to it. *)
Definition no_message (line : string) : bool :=
  match pattern0 line with
  | Some (speaker, _) => negb ((0 <? len speaker) && (len speaker <? 30))
  | None => true
  end
  && match pattern1 line with Some _ => false | None => true end
  && match pattern2 line with Some _ => false | None => true end
  && match pattern5 line with Some _ => false | None => true end.

(** A message with one more line of text. *)
Definition continued (msg : ChatMessage) (line : string) : ChatMessage :=
  mk_ChatMessage (speaker msg)
    (String.append (message msg) (String LF line))
    (timestamp msg) (line_number msg).

(** The first lines of what [process_text] returns for a chat. *)
Definition summary_text (messages : list ChatMessage) : string :=
  String.append "Detected chat conversation with "
    (String.append (str_of_nat (length messages))
       (String.append " messages"
          (String LF
             (String.append "Participants: "
                (String.append
                   (join_comma (first_speakers [] messages))
                   (String LF (String LF EmptyString))))))).

(** [current_message] is the last object of [messages], if there is one. *)
Definition current_is_last (st : extraction) : Prop :=
  current_message st =
  match messages st with
  | [] => None
  | _ :: _ => Some (length (messages st) - 1)%nat
  end.

(** A line with something else than white space. *)
Definition nonblank (line : string) : bool := nonempty (strip line).

(** The number of lines that satisfy a test. *)
Definition count_lines (test : string -> bool) (lines : list string) : Z :=
  Z.of_nat (length (filter test lines)).

End Detector.

End ChatDetector.

(** ** The confidence of [is_likely_chat] in binary64 *)

(** The double nearest to 0.3, and the source's test
    [chat_indicators / total_lines > 0.3] on doubles, for [halves / 2]
    indicators (every count of indicators is a multiple of 0.5). *)
Definition binary64_0_3 : float := 0x1.3333333333333p-2%float.

Definition binary64_is_likely (halves total_lines : nat) : bool :=
  let chat_indicators :=
    PrimFloat.mul (PrimFloat.of_uint63 (Uint63.of_Z (Z.of_nat halves)))
      0.5%float in
  let confidence :=
    PrimFloat.div chat_indicators
      (PrimFloat.of_uint63 (Uint63.of_Z (Z.of_nat total_lines))) in
  PrimFloat.ltb binary64_0_3 confidence.

(** Whether the doubles and the rationals agree for [total_lines] lines
    and every possible count of indicators. *)
Definition binary64_confidence_agrees (total_lines : nat) : bool :=
  forallb
    (fun halves =>
       Bool.eqb (binary64_is_likely halves total_lines)
         (Qlt_bool (3 # 10)
            ((Z.of_nat halves # 2) / inject_Z (Z.of_nat total_lines))))
    (seq 0 (3 * total_lines + 1)).

(** A test double for the patterns: ["Name: message"] with a name that
    starts with a capital letter is the only shape it knows. *)
Module StubPatterns.

Fixpoint split_colon (s : string) : option (string * string) :=
  match s with
  | EmptyString => None
  | String a s' =>
      if Ascii.eqb a ":" then Some (EmptyString, s')
      else match split_colon s' with
           | Some (name, rest) => Some (String a name, rest)
           | None => None
           end
  end.

Definition starts_upper (s : string) : bool :=
  match s with
  | String a _ => ((65 <=? nat_of_ascii a) && (nat_of_ascii a <=? 90))%nat
  | EmptyString => false
  end.

Definition name_message (line : string) : option (string * string) :=
  match split_colon line with
  | Some (name, rest) =>
      if starts_upper name && ChatDetector.nonempty (strip rest)
      then Some (name, rest) else None
  | None => None
  end.

Definition patterns : Patterns :=
  {| pattern0 := name_message;
     pattern1 := fun _ => None;
     pattern2 := fun _ => None;
     pattern5 := fun _ => None;
     time_pattern0 := fun _ => false;
     time_pattern1 := fun _ => false;
     speaker_prefix := fun line =>
       match split_colon line with
       | Some (name, _) => starts_upper name
       | None => false
       end |}.

End StubPatterns.

(** ** OCRExtractor and [main] *)

(** What Tesseract reports for an image, as [image_to_data] returns it with
    [Output.DICT]: one list per key. *)
Record TessData : Type := mk_TessData {
  data_level : list Z;
  data_block_num : list Z;
  data_par_num : list Z;
  data_line_num : list Z;
  data_text : list string;
  data_conf : list Q;
  data_left : list Z;
  data_top : list Z;
  data_width : list Z;
  data_height : list Z
}.

(** The OpenCV filters and the pytesseract calls of [OCRExtractor]. *)
Class Tesseract : Type := {
  (** [cv2.GaussianBlur(gray, (3, 3), 0)] *)
  GaussianBlur : ndarray -> tried ndarray;
  (** [cv2.adaptiveThreshold(blurred, 255, ADAPTIVE_THRESH_GAUSSIAN_C,
      THRESH_BINARY, 11, 2)] *)
  adaptiveThreshold : ndarray -> tried ndarray;
  (** [pytesseract.image_to_string(image, lang=..., config=...)] *)
  image_to_string : ndarray -> string -> option string -> tried string;
  (** [pytesseract.image_to_data(image, lang=..., output_type=DICT)] *)
  image_to_data : ndarray -> string -> tried TessData
}.

(** The outside of [main]: the file system that [validate_images] looks
    at, [cv2.imwrite], and writing a text file. *)
Class Outside : Type := {
  file_system : FileSystem;
  imwrite : string -> ndarray -> tried bool;
  write_file : string -> string -> tried unit
}.

Module Cli.

Import Chat ChatDetector.

(** What [main] and the objects it uses print on standard output. *)
Inductive message : Type :=
| MsgBanner
| MsgRule
| MsgInputImages (n : nat)
| MsgStepStitching
| MsgStitcher (e : event)
| MsgSavedStitchedImage (path : string)
| MsgStitchedImageSaved (path : string)
| MsgStepOcr
| MsgNoTextWarning
| MsgExtracted (n : nat)
| MsgStepProcessing
| MsgChatDetected
| MsgNoChat
| MsgSavedExtractedText (path : string)
| MsgTextSaved (path : string)
| MsgPreviewRule
| MsgPreviewTitle
| MsgPreview (text : string)
| MsgComplete
| MsgSummaryTitle
| MsgImagesStitched (n : nat)
| MsgOutputImage (path : option string)
| MsgOutputText (path : string)
| MsgCharacters (n : nat)
| MsgChatYesNo (is_chat : bool).

(** What happens while [main] runs, in order. *)
Inductive action : Type :=
| Stdout (m : message)
| StderrError (e : exception)
| StderrUnexpected (e : exception)
| Traceback
| ImwriteCall (path : string) (image : ndarray)
| WriteCall (path : string) (text : string).

Definition App (A : Type) : Type := (list action * tried A)%type.

Definition done {A} (a : A) : App A := ([], Returned a).
Definition say (m : message) : App unit := ([Stdout m], Returned tt).
Definition attempt {A} (r : tried A) : App A := ([], r).

Definition and_then {A B} (m : App A) (f : A -> App B) : App B :=
  match snd m with
  | Returned a => (fst m ++ fst (f a), snd (f a))
  | Thrown e => (fst m, Thrown e)
  end.

Notation "'run' x ':=' m 'in' k" := (and_then m (fun x => k))
  (at level 10, x name, m at level 100, k at level 200).
Notation "'exec' m 'in' k" := (and_then m (fun _ => k))
  (at level 10, m at level 100, k at level 200).

(** A computation of the stitcher inside [main]. *)
Definition of_stitcher {A} (m : M A) : App A :=
  (map (fun e => Stdout (MsgStitcher e)) (fst m),
   match snd m with
   | Ok a => Returned a
   | Raise e => Thrown (Raised e)
   end).

Record Args : Type := mk_Args {
  images : list string;
  output : string;
  text_output : string;
  chat : bool;
  text_only : bool;
  overlap_threshold_arg : Q;
  no_preprocess : bool;
  lang : string
}.

Record TextBlock : Type := mk_TextBlock {
  block_text : string;
  block_x : Z;
  block_y : Z;
  block_width : Z;
  block_height : Z;
  block_confidence : Q
}.

Section Program.

Context `{cv : Cv2} `{tess : Tesseract} `{world : Outside} `{re : Patterns}.

(** [ImageStitcher.save_image] *)
Definition save_image (image : ndarray) (output_path : string) : App unit :=
  run _written := ([ImwriteCall output_path image],
                   imwrite output_path image) in
  say (MsgSavedStitchedImage output_path).

(** [OCRExtractor.preprocess_image] *)
Definition preprocess_image (image : ndarray) : App ndarray :=
  run gray := (if is_3d image
               then attempt match cvtColor_BGR2GRAY image with
                            | Ok g => Returned g
                            | Raise e => Thrown (Raised e)
                            end
               else done image) in
  run blurred := attempt (GaussianBlur gray) in
  run processed := attempt (adaptiveThreshold blurred) in
  done processed.

(** [OCRExtractor.extract_text] *)
Definition extract_text (self_lang : string) (image : ndarray)
  (preprocess : bool) : App string :=
  run processed := (if preprocess then preprocess_image image
                    else done image) in
  let custom_config := "--oem 3 --psm 6"%string in
  run text := attempt (image_to_string processed self_lang
                         (Some custom_config)) in
  done (strip text).

(** [l[i]] *)
Definition item {A} (l : list A) (i : nat) : tried A :=
  match nth_error l i with
  | Some a => Returned a
  | None => Thrown IndexError
  end.

(** The body of the loop of [extract_text_with_boxes]. *)
Definition text_block_at (data : TessData) (text_blocks : list TextBlock)
  (i : nat) : App (list TextBlock) :=
  run raw := attempt (item (data_text data) i) in
  let text := strip raw in
  if nonempty text then
    run confidence := attempt (item (data_conf data) i) in
    if Qlt_bool 0 confidence then
      run x := attempt (item (data_left data) i) in
      run y := attempt (item (data_top data) i) in
      run w := attempt (item (data_width data) i) in
      run h := attempt (item (data_height data) i) in
      done (text_blocks ++ [mk_TextBlock text x y w h confidence])
    else done text_blocks
  else done text_blocks.

Fixpoint each {A S} (body : S -> A -> App S) (st : S) (l : list A) : App S :=
  match l with
  | [] => done st
  | x :: l' => run st' := body st x in each body st' l'
  end.

(** [OCRExtractor.extract_text_with_boxes] *)
Definition extract_text_with_boxes (self_lang : string) (image : ndarray)
  (preprocess : bool) : App (list TextBlock) :=
  run processed := (if preprocess then preprocess_image image
                    else done image) in
  run data := attempt (image_to_data processed self_lang) in
  let text_blocks := [] in
  let n_boxes := length (data_text data) in
  each (text_block_at data) text_blocks (seq 0 n_boxes).

(** [OCRExtractor.save_text] *)
Definition save_text (text : string) (output_path : string) : App unit :=
  run _written := ([WriteCall output_path text],
                   write_file output_path text) in
  say (MsgSavedExtractedText output_path).

(** [final_text[:500]], with the mark when something was cut. *)
Definition preview_of (final_text : string) : string :=
  let preview := String.substring 0 500 final_text in
  if (500 <? String.length final_text)%nat
  then String.append preview (String LF "... (truncated)")
  else preview.

(** The statements of [main] inside its [try]. *)
Definition main_body (args : Args) : App Z :=
  run image_paths := attempt (validate_images file_system (images args)) in
  exec say (MsgInputImages (length image_paths)) in
  exec say MsgStepStitching in
  let stitcher := mk_ImageStitcher (overlap_threshold_arg args) in
  run stitched_image :=
    of_stitcher (stitch_multiple_images stitcher image_paths) in
  exec (if negb (text_only args) then
          exec save_image stitched_image (output args) in
          say (MsgStitchedImageSaved (output args))
        else done tt) in
  exec say MsgStepOcr in
  run text := extract_text (lang args) stitched_image
                (negb (no_preprocess args)) in
  if negb (nonempty (strip text)) then
    exec say MsgNoTextWarning in done 1
  else
    exec say (MsgExtracted (String.length text)) in
    exec say MsgStepProcessing in
    run chat_result :=
      (if chat args then
         run processed := attempt (process_text text) in
         let is_chat := fst processed in
         let formatted_text := snd processed in
         if is_chat then
           exec say MsgChatDetected in done (is_chat, formatted_text)
         else
           exec say MsgNoChat in done (is_chat, text)
       else done (false, text)) in
    let is_chat := fst chat_result in
    let final_text := snd chat_result in
    exec save_text final_text (text_output args) in
    exec say (MsgTextSaved (text_output args)) in
    exec say MsgPreviewRule in
    exec say MsgPreviewTitle in
    exec say MsgRule in
    exec say (MsgPreview (preview_of final_text)) in
    exec say MsgRule in
    exec say MsgComplete in
    exec say MsgSummaryTitle in
    exec say (MsgImagesStitched (length image_paths)) in
    exec say (MsgOutputImage (if negb (text_only args) then Some (output args)
                              else None)) in
    exec say (MsgOutputText (text_output args)) in
    exec say (MsgCharacters (String.length text)) in
    exec (if chat args then say (MsgChatYesNo is_chat) else done tt) in
    done 0.

(** The [except] clauses: [FileNotFoundError] and [ValueError] are
    reported as errors, anything else as unexpected, with a traceback. *)
Definition report (e : exception) : list action :=
  match e with
  | FileNotFoundError _ => [StderrError e]
  | Raised (ValueError _) => [StderrError e]
  | Raised numpy_ValueError => [StderrError e]
  | _ => [StderrUnexpected e; Traceback]
  end.

(** [main]: what happens, and the exit status. *)
Definition main (args : Args) : list action * Z :=
  let body := main_body args in
  match snd body with
  | Returned status =>
      ([Stdout MsgBanner; Stdout MsgRule] ++ fst body, status)
  | Thrown e =>
      ([Stdout MsgBanner; Stdout MsgRule] ++ fst body ++ report e, 1)
  end.

(** The calls that write something, among the actions. *)
Definition is_write (a : action) : bool :=
  match a with
  | ImwriteCall _ _ => true
  | WriteCall _ _ => true
  | _ => false
  end.

Definition writes (log : list action) : list action := filter is_write log.

(** The text that [main] saves for what the OCR returned. *)
Definition final_text_of (args : Args) (text : string) : string :=
  if chat args then
    match process_text text with
    | Returned (true, formatted_text) => formatted_text
    | _ => text
    end
  else text.

(** What [extract_text_with_boxes] keeps of row [i] when every list has an
    entry for it. *)
Definition kept_block (data : TessData) (i : nat) : list TextBlock :=
  match nth_error (data_text data) i, nth_error (data_conf data) i,
        nth_error (data_left data) i, nth_error (data_top data) i,
        nth_error (data_width data) i, nth_error (data_height data) i with
  | Some raw, Some confidence, Some x, Some y, Some w, Some h =>
      if nonempty (strip raw) && Qlt_bool 0 confidence
      then [mk_TextBlock (strip raw) x y w h confidence]
      else []
  | _, _, _, _, _, _ => []
  end.

(** Every list of the data is as long as the list of texts. *)
Definition rectangular (data : TessData) : Prop :=
  length (data_conf data) = length (data_text data) /\
  length (data_left data) = length (data_text data) /\
  length (data_top data) = length (data_text data) /\
  length (data_width data) = length (data_text data) /\
  length (data_height data) = length (data_text data).

End Program.

End Cli.

(** Test doubles for Tesseract and for the outside of [main]. *)
Module StubWorld.

(** Tesseract reads a short chat in images six pixels wide and nothing in
    any other image. *)
Definition chat_text : string :=
  String.append "  Alice: hello"
    (String LF
       (String.append "how are you"
          (String LF
             (String.append "Bob: fine"
                (String LF "Alice: good  "))))).

Definition words : TessData :=
  mk_TessData [1; 2; 5; 5] [0; 1; 1; 1] [0; 0; 1; 1] [0; 0; 1; 1]
    ["Alice:"; "  "; "hello"; "x"]%string
    [96 # 1; 95 # 1; 0 # 1; (-1) # 1]%Q
    [10; 0; 70; 0] [5; 0; 5; 0] [50; 0; 40; 0] [12; 0; 12; 0].

Definition tesseract : Tesseract :=
  {| GaussianBlur := fun image => Returned image;
     adaptiveThreshold := fun image => Returned image;
     image_to_string := fun image _ _ =>
       Returned (if width image =? 6 then chat_text else "   "%string);
     image_to_data := fun _ _ => Returned words |}.

(** The files of [Stub.files] exist, and so does the directory ["shots"]. *)
Definition outside : Outside :=
  {| file_system :=
       mk_FileSystem
         (fun p => String.eqb p "shots"
                   || existsb (fun f => String.eqb (fst f) p) Stub.files)
         (fun p => existsb (fun f => String.eqb (fst f) p) Stub.files);
     imwrite := fun _ _ => Returned true;
     write_file := fun _ _ => Returned tt |}.

Definition args (inputs : list string) (with_chat only_text : bool)
  : Cli.Args :=
  Cli.mk_Args inputs "stitched_output.png" "extracted_text.txt"
    with_chat only_text (4 # 5) false "eng".

End StubWorld.

(** ** [extract_structured_text] *)

Module Structured.

Import ChatDetector Cli.

(** The dictionaries of the structure: words in lines, lines in
    paragraphs, paragraphs in blocks. *)
Record Word : Type := mk_Word {
  word_text : string;
  word_confidence : Q;
  word_x : Z;
  word_y : Z;
  word_width : Z;
  word_height : Z
}.

Record Line : Type := mk_Line {
  line_num : Z;
  words : list Word
}.

Record Paragraph : Type := mk_Paragraph {
  par_num : Z;
  lines : list Line
}.

Record Block : Type := mk_Block {
  block_num : Z;
  paragraphs : list Paragraph
}.

Record Structure : Type := mk_Structure {
  blocks : list Block;
  full_text : string
}.

(** [l[i]] replaced by [f(l[i])]: how a change made through a reference
    shows in the list that holds the object. *)
Fixpoint update_at {A} (i : nat) (f : A -> A) (l : list A) : list A :=
  match l, i with
  | [], _ => []
  | x :: l', O => f x :: l'
  | x :: l', S i' => x :: update_at i' f l'
  end.

(** The loop state: [structure['blocks']] and the three references.
    [current_block] is the position of its dictionary in the list of
    blocks; [current_par] is the position of its dictionary among the
    paragraphs of the current block, with its ['par_num']; [current_line]
    is the position of its dictionary among the lines of the current
    paragraph, with its ['line_num'].  (The code sets [current_par] and
    [current_line] to [None] whenever it changes the dictionary that holds
    them.) *)
Record building : Type := mk_building {
  built : list Block;
  current_block : option nat;
  current_par : option (nat * Z);
  current_line : option (nat * Z)
}.

(** How many paragraphs block [b] has, and how many lines paragraph
    [p] of block [b] has. *)
Definition paragraphs_at (l : list Block) (b : nat) : list Paragraph :=
  match nth_error l b with Some blk => paragraphs blk | None => [] end.
Definition lines_at (l : list Block) (b p : nat) : list Line :=
  match nth_error (paragraphs_at l b) p with
  | Some par => lines par
  | None => []
  end.

(** [current_block['paragraphs'].append(par)],
    [current_par['lines'].append(line)] and
    [current_line['words'].append(word)]. *)
Definition append_paragraph (b : nat) (par : Paragraph) (l : list Block)
  : list Block :=
  update_at b (fun blk => mk_Block (block_num blk) (paragraphs blk ++ [par])) l.

Definition append_line (b p : nat) (line : Line) (l : list Block)
  : list Block :=
  update_at b
    (fun blk =>
       mk_Block (block_num blk)
         (update_at p
            (fun par => mk_Paragraph (par_num par) (lines par ++ [line]))
            (paragraphs blk))) l.

Definition append_word (b p k : nat) (word : Word) (l : list Block)
  : list Block :=
  update_at b
    (fun blk =>
       mk_Block (block_num blk)
         (update_at p
            (fun par =>
               mk_Paragraph (par_num par)
                 (update_at k
                    (fun line => mk_Line (line_num line) (words line ++ [word]))
                    (lines par)))
            (paragraphs blk))) l.

(** "New block": the first [if] of the loop body.  It returns the state
    and the position of the current block, which is set from here on. *)
Definition open_block (st : building) (level block : Z) : building * nat :=
  let fresh :=
    (mk_building (built st ++ [mk_Block block []])
       (Some (length (built st))) None None,
     length (built st)) in
  match current_block st with
  | Some b => if level =? 2 then fresh else (st, b)
  | None => fresh
  end.

(** "New paragraph": the second [if].  A block dictionary is never empty,
    so [if current_block:] holds. *)
Definition open_paragraph (st : building) (b : nat) (level par : Z)
  : building * nat :=
  let fresh :=
    let p := length (paragraphs_at (built st) b) in
    (mk_building (append_paragraph b (mk_Paragraph par []) (built st))
       (current_block st) (Some (p, par)) None,
     p) in
  match current_par st with
  | Some (p, num) =>
      if (level =? 3) || negb (num =? par) then fresh else (st, p)
  | None => fresh
  end.

(** "New line": the third [if]. *)
Definition open_line (st : building) (b p : nat) (level line : Z)
  : building * nat :=
  let fresh :=
    let k := length (lines_at (built st) b p) in
    (mk_building (append_line b p (mk_Line line []) (built st))
       (current_block st) (current_par st) (Some (k, line)),
     k) in
  match current_line st with
  | Some (k, num) =>
      if (level =? 4) || negb (num =? line) then fresh else (st, k)
  | None => fresh
  end.

(** The body of the loop for row [i]. *)
Definition structure_row (data : TessData) (st : building) (i : nat)
  : App building :=
  run raw := attempt (item (data_text data) i) in
  let text := strip raw in
  run level := attempt (item (data_level data) i) in
  run block := attempt (item (data_block_num data) i) in
  run par := attempt (item (data_par_num data) i) in
  run line := attempt (item (data_line_num data) i) in
  let '(st, b) := open_block st level block in
  let '(st, p) := open_paragraph st b level par in
  let '(st, k) := open_line st b p level line in
  if nonempty text && (level =? 5) then
    run confidence := attempt (item (data_conf data) i) in
    run x := attempt (item (data_left data) i) in
    run y := attempt (item (data_top data) i) in
    run w := attempt (item (data_width data) i) in
    run h := attempt (item (data_height data) i) in
    done (mk_building
            (append_word b p k (mk_Word text confidence x y w h) (built st))
            (current_block st) (current_par st) (current_line st))
  else done st.

Section Program.

Context `{cv : Cv2} `{tess : Tesseract}.

Definition extract_structured_text (self_lang : string) (image : ndarray)
  : App Structure :=
  run processed := preprocess_image image in
  run data := attempt (image_to_data processed self_lang) in
  run st := each (structure_row data) (mk_building [] None None None)
              (seq 0 (length (data_text data))) in
  run text := attempt (image_to_string processed self_lang None) in
  done (mk_Structure (built st) (strip text)).

End Program.

(** All the words of a structure, in the order of the blocks, paragraphs
    and lines. *)
Definition words_of_block (blk : Block) : list Word :=
  flat_map (fun par => flat_map words (lines par)) (paragraphs blk).
Definition all_words (l : list Block) : list Word :=
  flat_map words_of_block l.

(** The word that row [i] contributes, if it does. *)
Definition kept_word (data : TessData) (i : nat) : list Word :=
  match nth_error (data_text data) i, nth_error (data_level data) i,
        nth_error (data_conf data) i,
        nth_error (data_left data) i, nth_error (data_top data) i,
        nth_error (data_width data) i, nth_error (data_height data) i with
  | Some raw, Some level, Some confidence, Some x, Some y, Some w, Some h =>
      if nonempty (strip raw) && (level =? 5)
      then [mk_Word (strip raw) confidence x y w h]
      else []
  | _, _, _, _, _, _, _ => []
  end.

(** Every list of the data is as long as the list of texts. *)
Definition rectangular (data : TessData) : Prop :=
  Cli.rectangular data /\
  length (data_level data) = length (data_text data) /\
  length (data_block_num data) = length (data_text data) /\
  length (data_par_num data) = length (data_text data) /\
  length (data_line_num data) = length (data_text data).

(** The three shapes of the state inside and between the rows: a block
    just opened, a paragraph just opened in the last block, and a state
    whose references are the last line of the last paragraph of the last
    block. *)
Definition block_opened (bs : list Block) (n : Z) : building :=
  mk_building (bs ++ [mk_Block n []]) (Some (length bs)) None None.

Definition paragraph_opened (bs : list Block) (n : Z)
  (ps : list Paragraph) (pn : Z) : building :=
  mk_building (bs ++ [mk_Block n (ps ++ [mk_Paragraph pn []])])
    (Some (length bs)) (Some (length ps, pn)) None.

Definition pointed (bs : list Block) (n : Z) (ps : list Paragraph) (pn : Z)
  (ls : list Line) (ln : Z) (ws : list Word) : building :=
  mk_building
    (bs ++ [mk_Block n (ps ++ [mk_Paragraph pn (ls ++ [mk_Line ln ws])])])
    (Some (length bs)) (Some (length ps, pn)) (Some (length ls, ln)).

(** The state before the first row, or a pointed state. *)
Definition settled (st : building) : Prop :=
  st = mk_building [] None None None \/
  exists bs n ps pn ls ln ws, st = pointed bs n ps pn ls ln ws.

(** The rows that open a block. *)
Definition opens_block (data : TessData) (i : nat) : bool :=
  match nth_error (data_level data) i with
  | Some level => (i =? 0)%nat || (level =? 2)
  | None => false
  end.

(** No block without a paragraph and no paragraph without a line. *)
Definition nothing_hollow (l : list Block) : Prop :=
  Forall (fun blk =>
            paragraphs blk <> [] /\
            Forall (fun par => lines par <> []) (paragraphs blk)) l.

End Structured.
(** * Properties *)

(** ** The monad *)

Lemma bind_ret_l {A B} (a : A) (f : A -> M B) : bind (ret a) f = f a.
Proof. unfold bind, ret; simpl. now destruct (f a). Qed.

Lemma bind_assoc {A B C} (m : M A) (f : A -> M B) (g : B -> M C) :
  bind (bind m f) g = bind m (fun a => bind (f a) g).
Proof.
  destruct m as [l [a | e]]; unfold bind; simpl; [ | reflexivity ].
  destruct (f a) as [l' [b | e']]; simpl; [ | reflexivity ].
  now rewrite app_assoc.
Qed.

Lemma bind_ext {A B} (m : M A) (f g : A -> M B) :
  (forall a, f a = g a) -> bind m f = bind m g.
Proof.
  intros E. destruct m as [l [a | e]]; unfold bind; simpl; [ | reflexivity ].
  now rewrite E.
Qed.

Lemma outcome_bind_ok {A B} (m : M A) (f : A -> M B) a :
  outcome m = Ok a -> outcome (bind m f) = outcome (f a).
Proof. unfold outcome, bind. now intros ->. Qed.

Lemma outcome_bind_raise {A B} (m : M A) (f : A -> M B) e :
  outcome m = Raise e -> outcome (bind m f) = Raise e.
Proof. unfold outcome, bind. now intros ->. Qed.

Lemma outcome_bind_inv {A B} (m : M A) (f : A -> M B) b :
  outcome (bind m f) = Ok b ->
  exists a, outcome m = Ok a /\ outcome (f a) = Ok b.
Proof.
  unfold outcome, bind. destruct (snd m) as [a | e]; simpl; intros H.
  - now exists a.
  - discriminate.
Qed.

Lemma printed_bind_ok {A B} (m : M A) (f : A -> M B) a :
  outcome m = Ok a -> printed (bind m f) = printed m ++ printed (f a).
Proof. unfold outcome, printed, bind. now intros ->. Qed.

Lemma outcome_lift {A} (r : result A) : outcome (lift r) = r.
Proof. reflexivity. Qed.

(** ** The conversion of the search region *)

Lemma after_search_height_ok {A} (h1 : Z) (search_region : py_float) (n : Z)
  (m : M A) :
  search_height h1 search_region = Ok n ->
  after_search_height h1 search_region m = m.
Proof.
  unfold after_search_height, bind, lift. intros ->. simpl.
  now destruct m.
Qed.

Lemma after_search_height_raise {A} (h1 : Z) (search_region : py_float)
  (e : exn) (m : M A) :
  search_height h1 search_region = Raise e ->
  after_search_height h1 search_region m = ([], Raise e).
Proof.
  unfold after_search_height, bind, lift. now intros ->.
Qed.

(** The search regions of the documented range, 0 to 1, convert. *)
Lemma unit_range_converts (h1 : Z) (x : Q) :
  (0 <= x <= 1)%Q ->
  search_height h1 (Finite x)
  = Ok (py_int (inject_Z (h1 mod 2 ^ 63) * x)).
Proof.
  intros [X0 X1]. unfold search_height, axis_times_float.
  set (z := h1 mod 2 ^ 63).
  assert (Hz : 0 <= z < 2 ^ 63) by (apply Z.mod_pos_bound; lia).
  assert (P0 : (0 <= inject_Z z * x)%Q).
  { apply Qmult_le_0_compat; [ | exact X0 ].
    change 0%Q with (inject_Z 0). rewrite <- Zle_Qle. lia. }
  assert (P1 : (inject_Z z * x <= inject_Z z)%Q).
  { apply Qle_trans with (1 * inject_Z z)%Q;
      [ | rewrite Qmult_1_l; apply Qle_refl ].
    rewrite (Qmult_comm (inject_Z z) x).
    apply Qmult_le_compat_r; [ exact X1 | ].
    change 0%Q with (inject_Z 0). rewrite <- Zle_Qle. lia. }
  assert (B : (inject_Z z < float_overflow)%Q).
  { unfold float_overflow. rewrite <- Zlt_Qlt.
    assert (2 ^ 63 < 2 ^ 1024 - 2 ^ 970); [ | lia ].
    replace (2 ^ 1024) with (2 ^ 970 * 2 ^ 54)
      by (rewrite <- Z.pow_add_r by lia; reflexivity).
    assert (2 ^ 63 <= 2 ^ 970) by (apply Z.pow_le_mono_r; lia).
    nia. }
  assert (F : (0 < float_overflow)%Q).
  { apply Qle_lt_trans with (inject_Z z); [ | exact B ].
    change 0%Q with (inject_Z 0). rewrite <- Zle_Qle. lia. }
  cbv zeta.
  destruct (Qle_bool float_overflow (inject_Z z * x)) eqn:E1.
  { apply Qle_bool_iff in E1. exfalso.
    apply (Qlt_not_le _ _ B). now apply Qle_trans with (inject_Z z * x)%Q. }
  destruct (Qle_bool (inject_Z z * x) (- float_overflow)) eqn:E2.
  { apply Qle_bool_iff in E2. exfalso.
    assert (K : (- float_overflow < 0)%Q).
    { exact (Qopp_lt_compat 0 float_overflow F). }
    apply (Qlt_not_le _ _ K). now apply Qle_trans with (inject_Z z * x)%Q. }
  reflexivity.
Qed.

(** The default search region, 0.5, converts whatever the height. *)
Lemma default_converts (h1 : Z) :
  search_height h1 (Finite (1 # 2))
  = Ok (py_int (inject_Z (h1 mod 2 ^ 63) * (1 # 2))).
Proof.
  apply unit_range_converts. split; discriminate.
Qed.

(** ** Arithmetic of the sweep *)

Lemma Qlt_bool_iff (x y : Q) : Qlt_bool x y = true <-> (x < y)%Q.
Proof.
  unfold Qlt_bool. rewrite negb_true_iff. split.
  - intros H. apply Qnot_le_lt. intros L.
    apply Qle_bool_iff in L. congruence.
  - intros H. destruct (Qle_bool y x) eqn:E; [ | reflexivity ].
    apply Qle_bool_iff in E. exfalso. now apply (Qlt_not_le x y).
Qed.

Lemma height_nonneg (img : ndarray) : 0 <= height img.
Proof. unfold height. lia. Qed.

Lemma min_overlap_div (h1 h2 : Z) :
  0 <= h1 -> 0 <= h2 -> min_overlap h1 h2 = Z.min h1 h2 / 10.
Proof.
  intros H1 H2. unfold min_overlap, py_int. simpl.
  rewrite Z.mul_1_r. apply Z.quot_div_nonneg; lia.
Qed.

Lemma max_overlap_div (h1 h2 : Z) :
  0 <= h1 -> 0 <= h2 -> max_overlap h1 h2 = (Z.min h1 h2 * 9) / 10.
Proof.
  intros H1 H2. unfold max_overlap, py_int. simpl.
  apply Z.quot_div_nonneg; lia.
Qed.

Lemma min_overlap_floor (h1 h2 : Z) :
  0 <= h1 -> 0 <= h2 ->
  min_overlap h1 h2 = Qfloor (inject_Z (Z.min h1 h2) * (1 # 10)).
Proof.
  intros H1 H2. rewrite min_overlap_div by assumption.
  unfold Qfloor. simpl. now rewrite Z.mul_1_r.
Qed.

Lemma max_overlap_floor (h1 h2 : Z) :
  0 <= h1 -> 0 <= h2 ->
  max_overlap h1 h2 = Qfloor (inject_Z (Z.min h1 h2) * (9 # 10)).
Proof.
  intros H1 H2. rewrite max_overlap_div by assumption.
  unfold Qfloor. now simpl.
Qed.

Lemma overlap_bounds (h1 h2 : Z) :
  0 <= h1 -> 0 <= h2 ->
  0 <= min_overlap h1 h2 /\ max_overlap h1 h2 <= Z.min h1 h2 /\
  (0 < Z.min h1 h2 -> max_overlap h1 h2 < Z.min h1 h2).
Proof.
  intros H1 H2.
  rewrite min_overlap_div, max_overlap_div by assumption.
  pose proof (Z.div_mod (Z.min h1 h2) 10 ltac:(lia)).
  pose proof (Z.mod_pos_bound (Z.min h1 h2) 10 ltac:(lia)).
  pose proof (Z.div_mod (Z.min h1 h2 * 9) 10 ltac:(lia)).
  pose proof (Z.mod_pos_bound (Z.min h1 h2 * 9) 10 ltac:(lia)).
  lia.
Qed.

(** For every height below 4096 rows the binary64 products of the source
    truncate to the overlap sizes of the model. *)
Lemma overlap_sizes_agree_with_binary64 :
  forallb binary64_agrees (map Z.of_nat (seq 0 (2 ^ 12))) = true.
Proof. vm_compute. reflexivity. Qed.

(** For every height below 512 rows and every search region of the
    samples, [int(h1 * search_region)] raises in the model exactly where
    it does in binary64, with the same exception. *)
Lemma search_height_agrees_with_binary64 :
  forallb (fun h => forallb (binary64_converts_alike h) binary64_samples)
    (map Z.of_nat (seq 0 (2 ^ 9))) = true.
Proof. vm_compute. reflexivity. Qed.

(** Membership in a descending range with step -10. *)
Lemma in_py_range_down (start stop x : Z) :
  In x (py_range start stop (-10)) <->
  stop < x <= start /\ exists k, 0 <= k /\ x = start - 10 * k.
Proof.
  unfold py_range, range_len.
  change (0 <? -10) with false. change (-10 <? 0) with true. cbv iota.
  change (- -10) with 10.
  rewrite in_map_iff. split.
  - intros (k & <- & Hk). apply in_seq in Hk.
    destruct (stop <? start) eqn:E; [ | simpl in Hk; lia ].
    apply Z.ltb_lt in E.
    pose proof (Z.div_mod (start - stop - 1) 10 ltac:(lia)).
    pose proof (Z.mod_pos_bound (start - stop - 1) 10 ltac:(lia)).
    assert (0 <= (start - stop - 1) / 10) by (apply Z.div_pos; lia).
    split; [ lia | ]. exists (Z.of_nat k). lia.
  - intros ((Hlo & Hhi) & k & Hk & ->).
    exists (Z.to_nat k). split; [ lia | ]. apply in_seq.
    assert (E : (stop <? start) = true) by (apply Z.ltb_lt; lia).
    rewrite E.
    pose proof (Z.div_mod (start - stop - 1) 10 ltac:(lia)).
    pose proof (Z.mod_pos_bound (start - stop - 1) 10 ltac:(lia)).
    assert (0 <= (start - stop - 1) / 10) by (apply Z.div_pos; lia).
    lia.
Qed.

Lemma py_range_empty (start stop : Z) :
  start <= stop -> py_range start stop (-10) = [].
Proof.
  intros H. unfold py_range, range_len.
  change (0 <? -10) with false. change (-10 <? 0) with true. cbv iota.
  assert (E : (stop <? start) = false) by (apply Z.ltb_ge; lia).
  now rewrite E.
Qed.

Lemma in_sweep (h1 h2 s : Z) :
  0 <= h1 -> 0 <= h2 -> In s (sweep h1 h2) ->
  0 < s /\ s <= h1 /\ s <= h2 /\ (0 < h1 -> s < h1).
Proof.
  intros H1 H2 Hs. apply in_py_range_down in Hs.
  destruct Hs as ((Hlo & Hhi) & _).
  pose proof (overlap_bounds h1 h2 H1 H2). lia.
Qed.

(** ** Slices *)

Lemma length_py_slice {A} (lo hi : Z) (l : list A) :
  0 <= lo -> lo <= hi -> hi <= Z.of_nat (length l) ->
  Z.of_nat (length (py_slice lo hi l)) = hi - lo.
Proof.
  intros H0 H1 H2. unfold py_slice, slice_bound.
  assert (E1 : (lo <? 0) = false) by (apply Z.ltb_ge; lia).
  assert (E2 : (hi <? 0) = false) by (apply Z.ltb_ge; lia).
  rewrite E1, E2, length_firstn, length_skipn. lia.
Qed.

Lemma height_slice_rows (lo hi : Z) (img : ndarray) :
  0 <= lo -> lo <= hi -> hi <= height img ->
  height (slice_rows lo hi img) = hi - lo.
Proof. intros. unfold height, slice_rows; simpl. now apply length_py_slice. Qed.

Lemma width_slice_rows (lo hi : Z) (img : ndarray) :
  width (slice_rows lo hi img) = width img.
Proof. reflexivity. Qed.

Lemma chan_slice_rows (lo hi : Z) (img : ndarray) :
  chan (slice_rows lo hi img) = chan img.
Proof. reflexivity. Qed.

(** ** The candidates of a sweep *)

Section LocatorFacts.

Context `{cv : Cv2}.

Lemma silent_ret {A} (a : A) : silent (ret a).
Proof. reflexivity. Qed.

Lemma silent_lift {A} (r : result A) : silent (lift r).
Proof. reflexivity. Qed.

Lemma silent_bind {A B} (m : M A) (f : A -> M B) :
  silent m -> (forall a, silent (f a)) -> silent (bind m f).
Proof.
  unfold silent, printed, bind. intros Hm Hf.
  destruct (snd m) as [a | e]; simpl; [ | assumption ].
  rewrite Hm. apply Hf.
Qed.

Lemma silent_outcome {A} (m : M A) r :
  silent m -> outcome m = r -> m = ([], r).
Proof. destruct m as [l o]. unfold silent, printed, outcome; simpl. now intros -> ->. Qed.

Lemma silent_resize_to_same_width w1 w2 t s :
  silent (resize_to_same_width w1 w2 t s).
Proof.
  unfold resize_to_same_width.
  destruct (negb (w1 =? w2)); [ destruct (w1 <? w2) | ];
    repeat first [ apply silent_ret | apply silent_lift
                 | apply silent_bind; [ | intros ? ] ].
Qed.

Lemma silent_to_gray img : silent (to_gray img).
Proof.
  unfold to_gray. destruct (is_3d img); [ apply silent_lift | apply silent_ret ].
Qed.

Lemma silent_candidate_score img1 img2 s :
  silent (candidate_score img1 img2 s).
Proof.
  unfold candidate_score.
  apply silent_bind; [ apply silent_resize_to_same_width | intros ts ].
  apply silent_bind; [ apply silent_to_gray | intros tg ].
  apply silent_bind; [ apply silent_to_gray | intros sg ].
  destruct (height tg >? height sg); [ apply silent_ret | ].
  apply silent_bind; [ apply silent_lift | intros v; apply silent_ret ].
Qed.

Lemma silent_scan img1 img2 l : silent (scan img1 img2 l).
Proof.
  induction l as [ | s l IH ]; simpl; [ apply silent_ret | ].
  apply silent_bind; [ apply silent_candidate_score | intros r ].
  apply silent_bind; [ exact IH | intros rs; apply silent_ret ].
Qed.

(** Equalising the widths of two non-empty strips succeeds and keeps their
    heights and channels. *)
Lemma resize_to_same_width_defined (t s : ndarray) :
  0 < height t -> 0 < width t -> 0 < height s -> 0 < width s ->
  exists t' s',
    outcome (resize_to_same_width (width t) (width s) t s) = Ok (t', s') /\
    height t' = height t /\ height s' = height s /\
    chan t' = chan t /\ chan s' = chan s /\
    width t' = Z.max (width t) (width s) /\
    width s' = Z.max (width t) (width s).
Proof.
  intros Ht Wt Hs Ws. unfold resize_to_same_width.
  destruct (width t =? width s) eqn:E; simpl.
  - apply Z.eqb_eq in E. exists t, s. repeat split; lia.
  - apply Z.eqb_neq in E. destruct (width t <? width s) eqn:L.
    + apply Z.ltb_lt in L.
      destruct (resize_defined t (width s) (height t)) as [t' Rt];
        try assumption.
      destruct (resize_shape _ _ _ _ Rt) as (A & B & C).
      exists t', s. rewrite (outcome_bind_ok _ _ t') by exact Rt.
      repeat split; try assumption; lia.
    + apply Z.ltb_ge in L.
      destruct (resize_defined s (width t) (height s)) as [s' Rs];
        try assumption.
      destruct (resize_shape _ _ _ _ Rs) as (A & B & C).
      exists t, s'. rewrite (outcome_bind_ok _ _ s') by exact Rs.
      repeat split; try assumption; lia.
Qed.

Lemma to_gray_defined (img : ndarray) :
  0 < height img -> 0 < width img ->
  chan img = None \/ chan img = Some 3 ->
  exists g, outcome (to_gray img) = Ok g /\
    height g = height img /\ width g = width img /\ chan g = None.
Proof.
  intros H W [C | C]; unfold to_gray, is_3d; rewrite C.
  - exists img. repeat split. exact C.
  - destruct (cvtColor_defined img H W C) as [g G].
    destruct (cvtColor_shape _ _ G) as (A & B & D).
    exists g. repeat split; assumption.
Qed.

(** A step of the conversions never changes the height of a strip. *)
Lemma resize_to_same_width_height w1 w2 t s t' s' :
  outcome (resize_to_same_width w1 w2 t s) = Ok (t', s') ->
  height t' = height t /\ height s' = height s.
Proof.
  unfold resize_to_same_width.
  destruct (negb (w1 =? w2)); [ destruct (w1 <? w2) | ].
  - intros H. apply outcome_bind_inv in H. destruct H as (a & Ha & H).
    injection H as <- <-. apply resize_shape in Ha. tauto.
  - intros H. apply outcome_bind_inv in H. destruct H as (a & Ha & H).
    injection H as <- <-. apply resize_shape in Ha. tauto.
  - intros H. injection H as <- <-. tauto.
Qed.

Lemma to_gray_height img g :
  outcome (to_gray img) = Ok g -> height g = height img.
Proof.
  unfold to_gray. destruct (is_3d img).
  - intros H. apply cvtColor_shape in H. tauto.
  - now intros [= <-].
Qed.

(** On raster buffers every candidate of the sweep gets a score: no call
    fails and the geometry check never fires. *)
Lemma candidate_score_defined (img1 img2 : ndarray) (s : Z) :
  raster img1 -> raster img2 ->
  In s (sweep (height img1) (height img2)) ->
  exists v, candidate_score img1 img2 s = ([], Ok (Some v)).
Proof.
  intros (H1 & W1 & C1) (H2 & W2 & C2) Hs.
  apply in_sweep in Hs; try apply height_nonneg.
  destruct Hs as (S0 & S1 & S2 & _).
  set (t := slice_rows (height img1 - s) (height img1) img1).
  set (a := slice_rows 0 (Z.min (s + 100) (height img2)) img2).
  assert (Ht : height t = s).
  { unfold t. rewrite height_slice_rows; lia. }
  assert (Ha : height a = Z.min (s + 100) (height img2)).
  { unfold a. rewrite height_slice_rows; lia. }
  destruct (resize_to_same_width_defined t a)
    as (t' & a' & R & Rt & Ra & Ct & Ca & Wt & Wa);
    try (unfold t, a; rewrite ?width_slice_rows; assumption); try lia.
  change (width t) with (width img1) in Wt, Wa.
  change (width a) with (width img2) in Wt, Wa.
  assert (Wt0 : 0 < width t') by lia.
  assert (Wa0 : 0 < width a') by lia.
  assert (Ct' : chan t' = None \/ chan t' = Some 3) by (rewrite Ct; exact C1).
  assert (Ca' : chan a' = None \/ chan a' = Some 3) by (rewrite Ca; exact C2).
  destruct (to_gray_defined t' ltac:(lia) Wt0 Ct') as (tg & Gt & Tg1 & Tg2 & Tg3).
  destruct (to_gray_defined a' ltac:(lia) Wa0 Ca') as (ag & Ga & Ag1 & Ag2 & Ag3).
  destruct (matchTemplate_defined ag tg) as [v V]; try assumption; try lia.
  exists v. apply silent_outcome; [ apply silent_candidate_score | ].
  unfold candidate_score. fold t a.
  change (width img1) with (width t). change (width img2) with (width a).
  rewrite (outcome_bind_ok _ _ _ R). simpl fst; simpl snd.
  rewrite (outcome_bind_ok _ _ _ Gt), (outcome_bind_ok _ _ _ Ga).
  assert (E : (height tg >? height ag) = false).
  { rewrite Z.gtb_ltb. apply Z.ltb_ge. lia. }
  rewrite E. rewrite (outcome_bind_ok _ _ v) by exact V. reflexivity.
Qed.

Lemma scan_defined (img1 img2 : ndarray) (l : list Z) :
  raster img1 -> raster img2 ->
  (forall s, In s l -> In s (sweep (height img1) (height img2))) ->
  exists vs, length vs = length l /\
    scan img1 img2 l = ([], Ok (combine l (map Some vs))).
Proof.
  intros R1 R2. induction l as [ | s l IH ]; intros Hl.
  - exists []. split; reflexivity.
  - destruct (candidate_score_defined img1 img2 s R1 R2) as [v V].
    { apply Hl. now left. }
    destruct IH as (vs & Len & Hvs).
    { intros x Hx. apply Hl. now right. }
    exists (v :: vs). split; [ simpl; now rewrite Len | ].
    simpl. rewrite V, Hvs. reflexivity.
Qed.

(** The loop is the scan followed by a pure fold over its results. *)
Lemma loop_as_fold (self : ImageStitcher) (img1 img2 : ndarray) l st :
  for_each (find_overlap_body self img1 img2) st l =
  let* rs := scan img1 img2 l in
  ret (fold_left (apply_result (overlap_threshold self) (height img1)) rs st).
Proof.
  revert st. induction l as [ | s l IH ]; intros st; simpl.
  - now rewrite bind_ret_l.
  - unfold find_overlap_body at 1. rewrite !bind_assoc.
    apply bind_ext. intros r. rewrite bind_assoc.
    transitivity (for_each (find_overlap_body self img1 img2)
                    (apply_result (overlap_threshold self) (height img1) st (s, r)) l).
    + destruct r as [v | ]; now rewrite bind_ret_l.
    + rewrite IH. apply bind_ext. intros rs. now rewrite bind_ret_l.
Qed.

End LocatorFacts.

(** ** The best-match fold *)

Section BestMatch.

Variables (t : Q) (h1 : Z).

Let F := fold_left (apply_result t h1).

Lemma update_best_cases (st : best) (s : Z) (v : Q) :
  (update_best t h1 st s v = (v, Some (h1 - s)) /\ (fst st < v)%Q /\ (t <= v)%Q)
  \/ (update_best t h1 st s v = st /\ ~ ((fst st < v)%Q /\ (t <= v)%Q)).
Proof.
  unfold update_best.
  destruct (Qlt_bool (fst st) v) eqn:A; destruct (Qle_bool t v) eqn:B; simpl.
  - left. apply Qlt_bool_iff in A. apply Qle_bool_iff in B. auto.
  - right. split; [ reflexivity | ]. intros [_ H].
    apply Qle_bool_iff in H. congruence.
  - right. split; [ reflexivity | ]. intros [H _].
    apply Qlt_bool_iff in H. congruence.
  - right. split; [ reflexivity | ]. intros [H _].
    apply Qlt_bool_iff in H. congruence.
Qed.

(** A score that is not positive never replaces the best match. *)
Lemma update_best_nonpositive (st : best) (s : Z) (v : Q) :
  (0 <= fst st)%Q -> (v <= 0)%Q -> update_best t h1 st s v = st.
Proof.
  intros H0 Hv. destruct (update_best_cases st s v) as [(_ & A & _) | [E _]].
  - exfalso. lra.
  - exact E.
Qed.

Lemma best_inv_init : best_inv t (0%Q, None).
Proof. split; simpl; [ lra | congruence ]. Qed.

Lemma best_inv_step (st : best) (r : Z * option Q) :
  best_inv t st -> best_inv t (apply_result t h1 st r).
Proof.
  intros [I0 I1]. destruct r as [s [v | ]]; unfold apply_result; simpl;
    [ | now split ].
  destruct (update_best_cases st s v) as [(E & A & B) | [E _]]; rewrite E.
  - split; simpl; [ lra | intros _; split; lra ].
  - now split.
Qed.

Lemma best_inv_fold (rs : list (Z * option Q)) (st : best) :
  best_inv t st -> best_inv t (F rs st).
Proof.
  revert st. induction rs as [ | r rs IH ]; intros st I; simpl;
    [ exact I | ]. apply IH. now apply best_inv_step.
Qed.

(** A recorded offset is never forgotten. *)
Lemma offset_kept_step (st : best) (r : Z * option Q) :
  snd st <> None -> snd (apply_result t h1 st r) <> None.
Proof.
  intros H. destruct r as [s [v | ]]; unfold apply_result; simpl;
    [ | exact H ].
  destruct (update_best_cases st s v) as [(E & _) | [E _]]; rewrite E;
    simpl; [ discriminate | exact H ].
Qed.

Lemma offset_kept (rs : list (Z * option Q)) (st : best) :
  snd st <> None -> snd (F rs st) <> None.
Proof.
  revert st. induction rs as [ | r rs IH ]; intros st H; simpl;
    [ exact H | ]. apply IH. now apply offset_kept_step.
Qed.

(** The best score only grows, and it ends above every score that meets
    the threshold. *)
Lemma best_score_grows (rs : list (Z * option Q)) (st : best) :
  (fst st <= fst (F rs st))%Q /\
  (forall s v, In (s, Some v) rs -> (t <= v)%Q -> (v <= fst (F rs st))%Q).
Proof.
  revert st. induction rs as [ | r rs IH ]; intros st; simpl.
  - split; [ lra | tauto ].
  - destruct (IH (apply_result t h1 st r)) as [G1 G2].
    assert (S1 : (fst st <= fst (apply_result t h1 st r))%Q /\
                 forall s v, r = (s, Some v) -> (t <= v)%Q ->
                   (v <= fst (apply_result t h1 st r))%Q).
    { destruct r as [s [v | ]]; unfold apply_result; simpl.
      - destruct (update_best_cases st s v) as [(E & A & B) | [E N]];
          rewrite E; simpl.
        + split; [ lra | ]. intros s' v' [= <- <-] _. lra.
        + split; [ lra | ]. intros s' v' [= <- <-] Hv.
          destruct (Qlt_le_dec (fst st) v) as [L | L]; [ tauto | exact L ].
      - split; [ lra | discriminate ]. }
    destruct S1 as [S1 S2]. split; [ lra | ].
    intros s v [-> | Hin] Hv.
    + pose proof (S2 s v eq_refl Hv). lra.
    + exact (G2 s v Hin Hv).
Qed.

(** When no score meets the threshold while being positive, the state
    never leaves its initial value. *)
Lemma nothing_accepted (rs : list (Z * option Q)) :
  (forall s v, In (s, Some v) rs -> ~ ((0 < v)%Q /\ (t <= v)%Q)) ->
  F rs (0%Q, None) = (0%Q, None).
Proof.
  induction rs as [ | r rs IH ]; intros H; simpl; [ reflexivity | ].
  assert (E : apply_result t h1 (0%Q, None) r = (0%Q, None)).
  { destruct r as [s [v | ]]; unfold apply_result; simpl; [ | reflexivity ].
    destruct (update_best_cases (0%Q, None) s v) as [(_ & A & B) | [E _]];
      [ | exact E ].
    exfalso. apply (H s v); [ now left | simpl in A; tauto ]. }
  rewrite E. apply IH. intros s v Hin. apply (H s v). now right.
Qed.

(** Conversely, a state that ends without an offset never accepted
    anything. *)
Lemma not_found_inv (rs : list (Z * option Q)) :
  snd (F rs (0%Q, None)) = None ->
  forall s v, In (s, Some v) rs -> ~ ((0 < v)%Q /\ (t <= v)%Q).
Proof.
  induction rs as [ | r rs IH ]; intros H s v Hin; [ destruct Hin | ].
  simpl in H.
  assert (E : apply_result t h1 (0%Q, None) r = (0%Q, None) /\
              (r = (s, Some v) -> ~ ((0 < v)%Q /\ (t <= v)%Q))).
  { destruct r as [s' [v' | ]]; unfold apply_result; simpl;
      [ | split; [ reflexivity | discriminate ] ].
    destruct (update_best_cases (0%Q, None) s' v') as [(E & A & B) | [E N]].
    - exfalso. unfold apply_result in H; simpl in H. rewrite E in H.
      revert H. apply offset_kept. simpl. discriminate.
    - split; [ exact E | ]. intros [= <- <-]. exact N. }
  destruct E as [E N]. destruct Hin as [-> | Hin]; [ now apply N | ].
  rewrite E in H. exact (IH H s v Hin).
Qed.

(** The loop state follows the tracking of the specification when only
    positive scores qualify. *)
Lemma fold_tracks (rs : list (Z * option Q)) (st : best)
  (cur : option (Q * Z)) :
  tracks h1 st cur ->
  overlap_result (F rs st) =
  located h1 (track_best (fun c => Qle_bool t c && Qlt_bool 0 c) cur rs).
Proof.
  revert st cur. induction rs as [ | [s [v | ]] rs IH ]; intros st cur T.
  - simpl. destruct cur as [[c s] | ]; simpl in T.
    + destruct T as [-> _]. reflexivity.
    + subst st. reflexivity.
  - simpl. unfold apply_result; simpl. unfold update_best.
    destruct cur as [[c s0] | ]; simpl in T.
    + destruct T as [-> Hc]. simpl fst.
      destruct (Qlt_bool c v) eqn:A.
      * assert (P : Qlt_bool 0 v = true).
        { apply Qlt_bool_iff. apply Qlt_bool_iff in A. lra. }
        rewrite P, andb_true_r. simpl andb.
        destruct (Qle_bool t v) eqn:B.
        -- apply IH. simpl. split; [ reflexivity | ].
           now apply Qlt_bool_iff.
        -- apply IH. simpl. now split.
      * simpl andb.
        destruct (Qle_bool t v && Qlt_bool 0 v); apply IH; simpl; now split.
    + subst st. simpl fst. rewrite (andb_comm (Qlt_bool 0 v)).
      destruct (Qle_bool t v && Qlt_bool 0 v) eqn:A.
      * apply IH. simpl. split; [ reflexivity | ].
        apply andb_true_iff in A. now apply Qlt_bool_iff.
      * apply IH. reflexivity.
  - simpl. unfold apply_result; simpl. now apply IH.
Qed.

End BestMatch.

(** ** The overlap locator *)

Section LocatorTheorems.

Context `{cv : Cv2}.

Lemma silent_find_overlap_loop self img1 img2 :
  silent (find_overlap_loop self img1 img2).
Proof.
  unfold find_overlap_loop. rewrite loop_as_fold.
  apply silent_bind; [ apply silent_scan | intros rs; apply silent_ret ].
Qed.

Lemma loop_outcome self img1 img2 st :
  outcome (find_overlap_loop self img1 img2) = Ok st <->
  exists rs,
    outcome (scan img1 img2 (sweep (height img1) (height img2))) = Ok rs /\
    st = fold_left (apply_result (overlap_threshold self) (height img1)) rs
           (0%Q, None).
Proof.
  unfold find_overlap_loop. rewrite loop_as_fold. split.
  - intros H. apply outcome_bind_inv in H. destruct H as (rs & Hrs & H).
    exists rs. split; [ exact Hrs | ]. now injection H as <-.
  - intros (rs & Hrs & ->). now rewrite (outcome_bind_ok _ _ rs Hrs).
Qed.

Lemma find_overlap_of_loop self img1 img2 search_region st :
  outcome (find_overlap_loop self img1 img2) = Ok st ->
  find_overlap self img1 img2 search_region =
  after_search_height (height img1) search_region
    match overlap_result st with
    | Found offset confidence =>
        ([FoundOverlapMsg confidence], Ok (Some offset))
    | NotFound => ([NoOverlapMsg], Ok None)
    end.
Proof.
  intros H.
  pose proof (silent_outcome _ _ (silent_find_overlap_loop self img1 img2) H)
    as E.
  unfold find_overlap, after_search_height, search_height.
  apply bind_ext. intros n. cbv zeta. rewrite E. unfold overlap_result.
  destruct st as [c [off | ]]; reflexivity.
Qed.

(** The same at a search region that converts. *)
Lemma find_overlap_of_loop_converted self img1 img2 search_region n st :
  search_height (height img1) search_region = Ok n ->
  outcome (find_overlap_loop self img1 img2) = Ok st ->
  find_overlap self img1 img2 search_region =
  match overlap_result st with
  | Found offset confidence => ([FoundOverlapMsg confidence], Ok (Some offset))
  | NotFound => ([NoOverlapMsg], Ok None)
  end.
Proof.
  intros C H. rewrite (find_overlap_of_loop _ _ _ _ _ H).
  now apply after_search_height_ok with n.
Qed.

(** A call that returns has converted its search region. *)
Lemma find_overlap_inv self img1 img2 search_region o :
  outcome (find_overlap self img1 img2 search_region) = Ok o ->
  exists n st,
    search_height (height img1) search_region = Ok n /\
    outcome (find_overlap_loop self img1 img2) = Ok st /\ snd st = o.
Proof.
  unfold find_overlap. intros H.
  apply outcome_bind_inv in H. destruct H as (n & Hn & H). cbv zeta in H.
  apply outcome_bind_inv in H. destruct H as (st & Hst & H).
  exists n, st. split; [ exact Hn | ]. split; [ exact Hst | ].
  destruct (snd st) as [off | ]; simpl in H; now injection H as <-.
Qed.

(** On raster buffers the sweep scores every candidate. *)
Lemma sweep_scanned (img1 img2 : ndarray) :
  raster img1 -> raster img2 ->
  exists rs,
    scan img1 img2 (sweep (height img1) (height img2)) = ([], Ok rs) /\
    map fst rs = sweep (height img1) (height img2) /\
    forall r, In r rs -> snd r <> None.
Proof.
  intros R1 R2.
  destruct (scan_defined img1 img2 (sweep (height img1) (height img2)) R1 R2)
    as (vs & Len & E); [ auto | ].
  exists (combine (sweep (height img1) (height img2)) (map Some vs)).
  split; [ exact E | ]. split.
  - rewrite <- (length_map Some vs) in Len.
    clear E. revert Len. generalize (map Some vs).
    induction (sweep (height img1) (height img2)) as [ | s l IH ];
      intros [ | o os ]; simpl; intros Len; try discriminate;
      [ reflexivity | ].
    f_equal. apply IH. now injection Len.
  - intros [s o] Hin. apply in_combine_r in Hin. apply in_map_iff in Hin.
    destruct Hin as (v & <- & _). simpl. discriminate.
Qed.

(** C2, as amended: on raster buffers the locator tracks the best
    (correlation, size) pair over the sweep candidates whose correlation is
    at least the threshold and strictly positive; a strictly greater
    correlation replaces the current best and ties keep the first found,
    which is the largest size.  When such a pair exists [find_overlap]
    returns [height(upper) - s] and prints the correlation as the
    confidence; otherwise it returns [None].  This is the call behind the
    conversion of line 42, which the default search region passes. *)
Theorem find_overlap_tracks_best_positive
  (self : ImageStitcher) (img1 img2 : ndarray) (search_region : py_float) :
  raster img1 -> raster img2 ->
  locator_agrees locate_positive self img1 img2 search_region.
Proof.
  intros R1 R2.
  destruct (sweep_scanned img1 img2 R1 R2) as (rs & E & Hfst & _).
  set (st := fold_left (apply_result (overlap_threshold self) (height img1))
               rs (0%Q, None)).
  assert (L : outcome (find_overlap_loop self img1 img2) = Ok st).
  { apply loop_outcome. exists rs. split; [ now rewrite E | reflexivity ]. }
  exists rs, st. split; [ now rewrite E | ]. split; [ exact Hfst | ].
  split; [ exact L | ]. split.
  - unfold st, locate_positive. now apply fold_tracks.
  - split; [ now apply find_overlap_of_loop | ].
    intros x X.
    exact (find_overlap_of_loop_converted self img1 img2 (Finite x) _ st
             (unit_range_converts (height img1) x X) L).
Qed.

(** C3, as amended: [min_overlap] and [max_overlap] are the floors of 0.1
    and 0.9 times the smaller height, and the loop visits the sizes
    [max_overlap], [max_overlap - 10], ... in this order for as long as
    they stay strictly above [min_overlap]. *)
Theorem sweep_descends_above_min_overlap
  (self : ImageStitcher) (img1 img2 : ndarray) :
  let h := Z.min (height img1) (height img2) in
  let lo := min_overlap (height img1) (height img2) in
  let hi := max_overlap (height img1) (height img2) in
  let candidates := sweep (height img1) (height img2) in
  lo = Qfloor (inject_Z h * (1 # 10)) /\
  hi = Qfloor (inject_Z h * (9 # 10)) /\
  find_overlap_loop self img1 img2 =
    for_each (find_overlap_body self img1 img2) (0%Q, None) candidates /\
  candidates =
    map (fun k => hi - 10 * Z.of_nat k) (seq 0 (length candidates)) /\
  (forall s, In s candidates <->
     lo < s <= hi /\ exists k, 0 <= k /\ s = hi - 10 * k).
Proof.
  intros h lo hi candidates.
  split; [ apply min_overlap_floor; apply height_nonneg | ].
  split; [ apply max_overlap_floor; apply height_nonneg | ].
  split; [ reflexivity | ]. split.
  - unfold candidates, sweep, py_range. rewrite length_map, length_seq.
    apply map_ext. intros k. fold hi. lia.
  - intros s. apply in_py_range_down.
Qed.

(** [find_overlap] is its sweep behind the conversion of line 42. *)
Lemma find_overlap_behind_conversion self img1 img2 search_region :
  find_overlap self img1 img2 search_region =
  after_search_height (height img1) search_region
    (let* st := find_overlap_loop self img1 img2 in
     match snd st with
     | Some best_offset =>
         print (FoundOverlapMsg (fst st)) ;;; ret (Some best_offset)
     | None => print NoOverlapMsg ;;; ret None
     end).
Proof. reflexivity. Qed.

(** C6, as amended: [search_region] reaches the result through line 42
    alone.  A call is the call at the default 0.5 behind the conversion
    [int(h1 * search_region)]: two search regions that convert print and
    return the same, as any two of the documented range 0 to 1 do; and a
    search region whose conversion raises (a NaN, an infinity, a product
    that overflows) makes [find_overlap] raise that exception before the
    sweep, with nothing printed. *)
Theorem find_overlap_search_region_converts_or_raises
  (self : ImageStitcher) (img1 img2 : ndarray)
  (search_region search_region' : py_float) :
  find_overlap self img1 img2 search_region =
    after_search_height (height img1) search_region
      (find_overlap self img1 img2 (Finite (1 # 2))) /\
  (forall n n',
     search_height (height img1) search_region = Ok n ->
     search_height (height img1) search_region' = Ok n' ->
     find_overlap self img1 img2 search_region =
     find_overlap self img1 img2 search_region') /\
  (forall x x', (0 <= x <= 1)%Q -> (0 <= x' <= 1)%Q ->
     find_overlap self img1 img2 (Finite x) =
     find_overlap self img1 img2 (Finite x')) /\
  (forall e,
     search_height (height img1) search_region = Raise e ->
     find_overlap self img1 img2 search_region = ([], Raise e)).
Proof.
  assert (C : forall r n,
             search_height (height img1) r = Ok n ->
             find_overlap self img1 img2 r =
             find_overlap self img1 img2 (Finite (1 # 2))).
  { intros r n H.
    rewrite (find_overlap_behind_conversion self img1 img2 r).
    rewrite (find_overlap_behind_conversion self img1 img2 (Finite (1 # 2))).
    rewrite (after_search_height_ok _ _ n _ H).
    now rewrite (after_search_height_ok _ _ _ _
                   (default_converts (height img1))). }
  split; [ | split; [ | split ] ].
  - rewrite (find_overlap_behind_conversion self img1 img2 (Finite (1 # 2))).
    rewrite (after_search_height_ok _ (Finite (1 # 2)) _ _
               (default_converts (height img1))).
    apply find_overlap_behind_conversion.
  - intros n n' H H'. rewrite (C _ n H). symmetry. exact (C _ n' H').
  - intros x x' X X'.
    rewrite (C _ _ (unit_range_converts (height img1) x X)).
    symmetry. exact (C _ _ (unit_range_converts (height img1) x' X')).
  - intros e H. rewrite find_overlap_behind_conversion.
    now apply after_search_height_raise.
Qed.

(** The geometry check: a non-empty search window shorter than the template
    makes the candidate a [continue]. *)
Lemma candidate_score_skipped (img1 img2 : ndarray) (s : Z) :
  raster img1 -> raster img2 ->
  let template := slice_rows (height img1 - s) (height img1) img1 in
  let search_area :=
    slice_rows 0 (Z.min (s + 100) (height img2)) img2 in
  0 < height search_area -> height search_area < height template ->
  candidate_score img1 img2 s = ([], Ok None).
Proof.
  intros (H1 & W1 & C1) (H2 & W2 & C2) t a Ha Hlt.
  destruct (resize_to_same_width_defined t a)
    as (t' & a' & R & Rt & Ra & Ct & Ca & Wt & Wa);
    try (unfold t, a; rewrite ?width_slice_rows; assumption); try lia.
  change (width t) with (width img1) in Wt, Wa.
  change (width a) with (width img2) in Wt, Wa.
  assert (Wt0 : 0 < width t') by lia.
  assert (Wa0 : 0 < width a') by lia.
  assert (Ct' : chan t' = None \/ chan t' = Some 3) by (rewrite Ct; exact C1).
  assert (Ca' : chan a' = None \/ chan a' = Some 3) by (rewrite Ca; exact C2).
  destruct (to_gray_defined t' ltac:(lia) Wt0 Ct') as (tg & Gt & Tg1 & _).
  destruct (to_gray_defined a' ltac:(lia) Wa0 Ca') as (ag & Ga & Ag1 & _).
  apply silent_outcome; [ apply silent_candidate_score | ].
  unfold candidate_score. fold t a.
  change (width img1) with (width t). change (width img2) with (width a).
  rewrite (outcome_bind_ok _ _ _ R). simpl fst; simpl snd.
  rewrite (outcome_bind_ok _ _ _ Gt), (outcome_bind_ok _ _ _ Ga).
  assert (E : (height tg >? height ag) = true).
  { rewrite Z.gtb_ltb. apply Z.ltb_lt. lia. }
  now rewrite E.
Qed.

(** C7: when [min_overlap >= max_overlap] the sweep is empty and
    [find_overlap] returns [None] without raising, whatever the buffers,
    once line 42 has converted the search region, as it does the default;
    and on raster buffers a candidate whose template is taller than its
    search window leaves the loop state as it was, without raising. *)
Theorem find_overlap_degenerate_geometry
  (self : ImageStitcher) (img1 img2 : ndarray) (search_region : py_float) :
  (max_overlap (height img1) (height img2)
     <= min_overlap (height img1) (height img2) ->
   find_overlap self img1 img2 search_region =
     after_search_height (height img1) search_region
       ([NoOverlapMsg], Ok None) /\
   forall x, (0 <= x <= 1)%Q ->
     find_overlap self img1 img2 (Finite x) = ([NoOverlapMsg], Ok None)) /\
  (raster img1 -> raster img2 ->
   forall (st : best) (s : Z),
     let template := slice_rows (height img1 - s) (height img1) img1 in
     let search_area :=
       slice_rows 0 (Z.min (s + 100) (height img2)) img2 in
     0 < height search_area -> height search_area < height template ->
     find_overlap_body self img1 img2 st s = ([], Ok st)).
Proof.
  split.
  - intros H.
    assert (E : forall r,
               find_overlap self img1 img2 r =
               after_search_height (height img1) r
                 ([NoOverlapMsg], Ok None)).
    { intros r.
      unfold find_overlap, find_overlap_loop, sweep, after_search_height,
        search_height.
      now rewrite (py_range_empty _ _ H). }
    split; [ apply E | ].
    intros x X. rewrite E.
    exact (after_search_height_ok _ _ _ _
             (unit_range_converts (height img1) x X)).
  - intros R1 R2 st s t a Ha Hlt. unfold find_overlap_body.
    now rewrite (candidate_score_skipped img1 img2 s R1 R2 Ha Hlt).
Qed.

(** C9: a pair for which no overlap is found at a threshold has none at any
    greater threshold either; and when an overlap is found with some
    confidence, a threshold above that confidence finds none (behind the
    conversion of line 42, which does not depend on the threshold). *)
Theorem find_overlap_threshold_monotone
  (self self' : ImageStitcher) (img1 img2 : ndarray)
  (search_region : py_float) :
  (overlap_threshold self <= overlap_threshold self')%Q ->
  (outcome (find_overlap self img1 img2 search_region) = Ok None ->
   find_overlap self' img1 img2 search_region = ([NoOverlapMsg], Ok None)) /\
  (forall confidence offset,
     outcome (find_overlap_loop self img1 img2)
       = Ok (confidence, Some offset) ->
     (confidence < overlap_threshold self')%Q ->
     find_overlap self' img1 img2 search_region =
       after_search_height (height img1) search_region
         ([NoOverlapMsg], Ok None) /\
     forall x, (0 <= x <= 1)%Q ->
       find_overlap self' img1 img2 (Finite x) = ([NoOverlapMsg], Ok None)).
Proof.
  intros Ht. split.
  - intros H. apply find_overlap_inv in H. destruct H as (n & st & Hn & L & N).
    apply loop_outcome in L. destruct L as (rs & Hrs & ->).
    pose proof (not_found_inv _ _ rs N) as NF.
    rewrite (find_overlap_of_loop_converted self' img1 img2 search_region n
               (0%Q, None) Hn);
      [ reflexivity | ].
    apply loop_outcome. exists rs. split; [ exact Hrs | ].
    symmetry. apply nothing_accepted. intros s v Hin [P T].
    apply (NF s v Hin). split; [ exact P | lra ].
  - intros c off L Hc.
    apply loop_outcome in L. destruct L as (rs & Hrs & E).
    pose proof (best_score_grows (overlap_threshold self) (height img1) rs
                  (0%Q, None)) as [_ G].
    pose proof (best_inv_fold (overlap_threshold self) (height img1) rs
                  (0%Q, None) (best_inv_init _)) as [_ I].
    rewrite <- E in G, I. simpl in G, I.
    destruct (I ltac:(discriminate)) as [_ Tc].
    assert (L' : outcome (find_overlap_loop self' img1 img2)
                 = Ok (0%Q, None)).
    { apply loop_outcome. exists rs. split; [ exact Hrs | ].
      symmetry. apply nothing_accepted. intros s v Hin [P T].
      assert (v <= c)%Q by (apply (G s v Hin); lra). lra. }
    split.
    + now rewrite (find_overlap_of_loop self' img1 img2 search_region
                     (0%Q, None) L').
    + intros x X.
      now rewrite (find_overlap_of_loop_converted self' img1 img2 (Finite x)
                     _ (0%Q, None)
                     (unit_range_converts (height img1) x X) L').
Qed.

(** C10: whatever the threshold, when [find_overlap] returns an offset the
    winning score, which it prints as the confidence, is strictly positive;
    and a score that is not positive never replaces the best match of a
    state the loop can be in. *)
Theorem find_overlap_score_positive
  (self : ImageStitcher) (img1 img2 : ndarray) (search_region : py_float)
  (offset : Z) :
  outcome (find_overlap self img1 img2 search_region) = Ok (Some offset) ->
  (exists confidence,
     outcome (find_overlap_loop self img1 img2)
       = Ok (confidence, Some offset) /\
     printed (find_overlap self img1 img2 search_region)
       = [FoundOverlapMsg confidence] /\
     (0 < confidence)%Q) /\
  (forall (st : best) (s : Z) (max_val : Q),
     best_inv (overlap_threshold self) st -> (max_val <= 0)%Q ->
     update_best (overlap_threshold self) (height img1) st s max_val = st).
Proof.
  intros H. split.
  - apply find_overlap_inv in H. destruct H as (n & [c o] & Hn & L & E).
    simpl in E. subst o. exists c. split; [ exact L | ].
    rewrite (find_overlap_of_loop_converted self img1 img2 search_region n
               _ Hn L).
    split; [ reflexivity | ].
    apply loop_outcome in L. destruct L as (rs & _ & E).
    pose proof (best_inv_fold (overlap_threshold self) (height img1) rs
                  (0%Q, None) (best_inv_init _)) as [_ I].
    rewrite <- E in I. simpl in I. now destruct (I ltac:(discriminate)).
  - intros st s v [I0 _] Hv. now apply update_best_nonpositive.
Qed.

End LocatorTheorems.

(** ** The pairwise stitcher *)

Section OffsetFacts.

Variables (t : Q) (h1 : Z).

(** The recorded offset comes from a scored candidate of the sweep. *)
Lemma offset_from_candidate (rs : list (Z * option Q)) (st : best) off :
  snd (fold_left (apply_result t h1) rs st) = Some off ->
  snd st = Some off \/ exists s v, In (s, Some v) rs /\ off = h1 - s.
Proof.
  revert st. induction rs as [ | [s [v | ]] rs IH ]; intros st H; simpl in H.
  - now left.
  - destruct (IH _ H) as [E | (s' & v' & Hin & E)].
    + unfold apply_result in E; simpl in E.
      destruct (update_best_cases t h1 st s v) as [(U & _) | [U _]];
        rewrite U in E; simpl in E.
      * right. exists s, v. split; [ now left | congruence ].
      * now left.
    + right. exists s', v'. split; [ now right | exact E ].
  - destruct (IH _ H) as [E | (s' & v' & Hin & E)].
    + now left.
    + right. exists s', v'. split; [ now right | exact E ].
Qed.

End OffsetFacts.

Section StitcherTheorems.

Context `{cv : Cv2}.

Lemma chan_eqb_refl (c : option Z) : chan_eqb c c = true.
Proof. destruct c as [z | ]; simpl; [ apply Z.eqb_refl | reflexivity ]. Qed.

Lemma chan_eqb_eq (c d : option Z) : chan_eqb c d = true -> c = d.
Proof.
  destruct c as [x | ], d as [y | ]; simpl; try discriminate; try reflexivity.
  intros H. apply Z.eqb_eq in H. now subst.
Qed.

Lemma vstack_defined (a b : ndarray) :
  width a = width b -> chan a = chan b ->
  exists r, vstack a b = Ok r /\
    height r = height a + height b /\ width r = width a /\ chan r = chan a.
Proof.
  unfold width. intros W C. unfold vstack.
  rewrite W, C, Z.eqb_refl, chan_eqb_refl. simpl.
  eexists. split; [ reflexivity | ]. unfold height, width; simpl.
  rewrite length_app. repeat split; try congruence. lia.
Qed.

Lemma silent_match_widths img1 img2 : silent (match_widths img1 img2).
Proof.
  unfold match_widths.
  destruct (negb (width img1 =? width img2)); [ | apply silent_ret ].
  apply silent_bind.
  { destruct (_ <? _); [ apply silent_lift | apply silent_ret ]. }
  intros a. apply silent_bind.
  { destruct (_ <? _); [ apply silent_lift | apply silent_ret ]. }
  intros b. apply silent_ret.
Qed.

(** Matching the widths of two non-empty images succeeds; both get the
    larger width and keep their heights and channels. *)
Lemma match_widths_defined (img1 img2 : ndarray) :
  0 < height img1 -> 0 < width img1 -> 0 < height img2 -> 0 < width img2 ->
  exists a b,
    outcome (match_widths img1 img2) = Ok (a, b) /\
    height a = height img1 /\ height b = height img2 /\
    width a = Z.max (width img1) (width img2) /\
    width b = Z.max (width img1) (width img2) /\
    chan a = chan img1 /\ chan b = chan img2.
Proof.
  intros H1 W1 H2 W2. unfold match_widths.
  destruct (width img1 =? width img2) eqn:E; simpl.
  - apply Z.eqb_eq in E. exists img1, img2. repeat split; lia.
  - apply Z.eqb_neq in E.
    destruct (Z.lt_ge_cases (width img1) (width img2)) as [L | L].
    + assert (A : (width img1 <? Z.max (width img1) (width img2)) = true)
        by (apply Z.ltb_lt; lia).
      assert (B : (width img2 <? Z.max (width img1) (width img2)) = false)
        by (apply Z.ltb_ge; lia).
      rewrite A, B.
      destruct (resize_defined img1 (Z.max (width img1) (width img2))
                  (height img1)) as [a Ra]; try lia.
      destruct (resize_shape _ _ _ _ Ra) as (P & Q & R).
      exists a, img2. rewrite (outcome_bind_ok _ _ a) by exact Ra.
      rewrite bind_ret_l. repeat split; try assumption; lia.
    + assert (A : (width img1 <? Z.max (width img1) (width img2)) = false)
        by (apply Z.ltb_ge; lia).
      assert (B : (width img2 <? Z.max (width img1) (width img2)) = true)
        by (apply Z.ltb_lt; lia).
      rewrite A, B. rewrite bind_ret_l.
      destruct (resize_defined img2 (Z.max (width img1) (width img2))
                  (height img2)) as [b Rb]; try lia.
      destruct (resize_shape _ _ _ _ Rb) as (P & Q & R).
      exists img1, b. rewrite (outcome_bind_ok _ _ b) by exact Rb.
      repeat split; try assumption; lia.
Qed.

(** What [find_overlap] returns on raster buffers: nothing, or an offset
    inside the upper image that leaves out at most as many rows as the
    lower image has. *)
Lemma find_overlap_offset (self : ImageStitcher) (img1 img2 : ndarray) :
  raster img1 -> raster img2 ->
  exists o,
    outcome (find_overlap self img1 img2 (Finite (1 # 2))) = Ok o /\
    forall off, o = Some off ->
      0 <= off <= height img1 /\ height img1 <= off + height img2.
Proof.
  intros R1 R2.
  destruct (sweep_scanned img1 img2 R1 R2) as (rs & E & Hfst & _).
  set (st := fold_left (apply_result (overlap_threshold self) (height img1))
               rs (0%Q, None)).
  assert (L : outcome (find_overlap_loop self img1 img2) = Ok st).
  { apply loop_outcome. exists rs. split; [ now rewrite E | reflexivity ]. }
  exists (snd st). split.
  - rewrite (find_overlap_of_loop_converted self img1 img2 (Finite (1 # 2)) _
               st (default_converts (height img1)) L).
    unfold overlap_result. now destruct (snd st).
  - intros off Hoff. unfold st in Hoff.
    apply offset_from_candidate in Hoff.
    destruct Hoff as [Hoff | (s & v & Hin & ->)]; [ discriminate | ].
    assert (Hs : In s (sweep (height img1) (height img2))).
    { rewrite <- Hfst. apply in_map_iff. now exists (s, Some v). }
    apply in_sweep in Hs; try apply height_nonneg. lia.
Qed.

(** The pairwise stitcher on two raster buffers with the same channels. *)
Lemma stitch_two_images_shape (self : ImageStitcher) (img1 img2 : ndarray) :
  raster img1 -> raster img2 -> chan img1 = chan img2 ->
  exists o r,
    outcome (find_overlap self img1 img2 (Finite (1 # 2))) = Ok o /\
    outcome (stitch_two_images self img1 img2) = Ok r /\
    width r = Z.max (width img1) (width img2) /\
    height r = match o with
               | Some offset => offset + height img2
               | None => height img1 + height img2
               end /\
    chan r = chan img1 /\
    height img1 <= height r /\ height img2 <= height r /\
    height r <= height img1 + height img2.
Proof.
  intros R1 R2 C.
  destruct (find_overlap_offset self img1 img2 R1 R2) as (o & Ho & B).
  destruct R1 as (H1 & W1 & _), R2 as (H2 & W2 & _).
  destruct (match_widths_defined img1 img2 H1 W1 H2 W2)
    as (a & b & Hm & Ha & Hb & Wa & Wb & Ca & Cb).
  exists o. unfold stitch_two_images.
  rewrite (outcome_bind_ok _ _ o Ho). destruct o as [off | ].
  - destruct (B off eq_refl) as [B1 B2].
    destruct (vstack_defined (slice_rows 0 off a) b)
      as (r & Hr & Hh & Hw & Hc).
    { rewrite width_slice_rows. congruence. }
    { rewrite chan_slice_rows. congruence. }
    exists r. rewrite (outcome_bind_ok _ _ (a, b) Hm). simpl fst; simpl snd.
    rewrite outcome_lift.
    rewrite height_slice_rows in Hh by lia.
    rewrite width_slice_rows in Hw. rewrite chan_slice_rows in Hc.
    repeat split; try congruence; lia.
  - destruct (vstack_defined a b) as (r & Hr & Hh & Hw & Hc);
      try congruence.
    exists r. rewrite (outcome_bind_ok _ _ (a, b) Hm). simpl fst; simpl snd.
    rewrite outcome_lift. repeat split; try congruence; lia.
Qed.

(** C1, as amended: for two raster buffers with the same channel layout
    [stitch_two_images] returns a buffer as wide as the wider of the two,
    and as high as [offset + height(lower)] when the locator returns an
    offset, as [height(upper) + height(lower)] when it returns none. *)
Theorem stitch_two_images_dimensions
  (self : ImageStitcher) (img1 img2 : ndarray) :
  raster img1 -> raster img2 -> chan img1 = chan img2 ->
  exists o r,
    outcome (find_overlap self img1 img2 (Finite (1 # 2))) = Ok o /\
    outcome (stitch_two_images self img1 img2) = Ok r /\
    width r = Z.max (width img1) (width img2) /\
    height r = match o with
               | Some offset => offset + height img2
               | None => height img1 + height img2
               end.
Proof.
  intros R1 R2 C.
  destruct (stitch_two_images_shape self img1 img2 R1 R2 C)
    as (o & r & A & B & D & E & _).
  exists o, r. auto.
Qed.

End StitcherTheorems.

(** ** The sequential pipeline *)

Lemma for_each_app {A S} (body : S -> A -> M S) (l1 l2 : list A) (st : S) :
  for_each body st (l1 ++ l2) =
  let* st1 := for_each body st l1 in for_each body st1 l2.
Proof.
  revert st. induction l1 as [ | x l1 IH ]; intros st; simpl.
  - now rewrite bind_ret_l.
  - rewrite bind_assoc. apply bind_ext. intros st'. apply IH.
Qed.

Section PipelineTheorems.

Context `{cv : Cv2}.

Lemma readable_true (p : string) :
  readable p = true <-> exists img, imread p = Some img.
Proof.
  unfold readable. destruct (imread p) as [img | ]; split.
  - intros _. now exists img.
  - reflexivity.
  - discriminate.
  - intros [img H]. discriminate.
Qed.

Lemma readable_false (p : string) : readable p = false <-> imread p = None.
Proof. unfold readable. destruct (imread p); split; congruence. Qed.

(** One iteration of the loop, by cases on the load. *)
Lemma composite_from_cons (self : ImageStitcher) (i : Z) (r : ndarray)
  (p : string) (l : list string) :
  composite_from self i r (p :: l) =
  match imread p with
  | None => composite_from self (i + 1) r l
  | Some img =>
      match outcome (stitch_two_images self r img) with
      | Ok r' => composite_from self (i + 1) r' l
      | Raise e => Raise e
      end
  end.
Proof.
  unfold composite_from. simpl for_each. unfold stitch_loop_body at 1.
  simpl fst; simpl snd. destruct (imread p) as [img | ].
  - rewrite bind_assoc.
    rewrite (outcome_bind_ok _ _ tt) by reflexivity.
    rewrite bind_assoc.
    destruct (outcome (stitch_two_images self r img)) as [r' | e] eqn:E.
    + rewrite (outcome_bind_ok _ _ r' E). now rewrite bind_ret_l.
    + now rewrite (outcome_bind_raise _ _ e E).
  - rewrite bind_assoc.
    rewrite (outcome_bind_ok _ _ tt) by reflexivity.
    now rewrite bind_ret_l.
Qed.

Lemma composite_from_nil (self : ImageStitcher) (i : Z) (r : ndarray) :
  composite_from self i r [] = Ok r.
Proof. reflexivity. Qed.

(** The counter only numbers the messages. *)
Lemma composite_from_filter (self : ImageStitcher) (l : list string) :
  forall (i j : Z) (r : ndarray),
    composite_from self i r l = composite_from self j r (filter readable l).
Proof.
  induction l as [ | p l IH ]; intros i j r; [ reflexivity | ].
  rewrite composite_from_cons. simpl filter. unfold readable at 1.
  destruct (imread p) as [img | ] eqn:E.
  - rewrite composite_from_cons, E.
    destruct (outcome (stitch_two_images self r img)); [ apply IH | reflexivity ].
  - apply IH.
Qed.

Lemma composite_from_app (self : ImageStitcher) (l1 l2 : list string) :
  forall (i : Z) (r : ndarray),
    composite_from self i r (l1 ++ l2) =
    match composite_from self i r l1 with
    | Ok c => composite_from self (i + Z.of_nat (length l1)) c l2
    | Raise e => Raise e
    end.
Proof.
  induction l1 as [ | p l1 IH ]; intros i r.
  - simpl app. rewrite composite_from_nil. simpl length.
    now replace (i + Z.of_nat 0) with i by lia.
  - simpl app. rewrite !composite_from_cons.
    replace (i + Z.of_nat (length (p :: l1)))
      with (i + 1 + Z.of_nat (length l1)) by (simpl length; lia).
    destruct (imread p) as [img | ]; [ | apply IH ].
    destruct (outcome (stitch_two_images self r img)); [ apply IH | reflexivity ].
Qed.

(** What [stitch_multiple_images] returns once the first image is loaded. *)
Lemma stitch_multiple_images_outcome (self : ImageStitcher)
  (path : string) (rest : list string) (first : ndarray) :
  imread path = Some first ->
  outcome (stitch_multiple_images self (path :: rest)) =
  composite_from self 2 first rest.
Proof.
  intros E. unfold stitch_multiple_images, composite_from.
  destruct rest as [ | p l ]; rewrite E; [ reflexivity | ].
  rewrite (outcome_bind_ok _ _ tt) by reflexivity.
  rewrite (outcome_bind_ok _ _ tt) by reflexivity.
  destruct (outcome (for_each (stitch_loop_body self) (2, first) (p :: l)))
    as [st | e] eqn:L.
  - rewrite (outcome_bind_ok _ _ st L).
    now rewrite (outcome_bind_ok _ _ tt) by reflexivity.
  - now rewrite (outcome_bind_raise _ _ e L).
Qed.

(** The loop on images that [imread] produced: it never raises, the
    composite stays a 3-channel raster buffer, and its height neither
    decreases nor exceeds what the loaded images add up to. *)
Lemma composite_from_heights (self : ImageStitcher) (l : list string) :
  forall (i : Z) (r : ndarray),
    raster r -> chan r = Some 3 ->
    exists c,
      composite_from self i r l = Ok c /\
      raster c /\ chan c = Some 3 /\
      height r <= height c /\
      (forall img, In img (loaded l) -> height img <= height c) /\
      height c <= height r + sum_heights (loaded l).
Proof.
  induction l as [ | p l IH ]; intros i r R C.
  - exists r. rewrite composite_from_nil. simpl.
    split; [ reflexivity | ]. split; [ exact R | ]. split; [ exact C | ].
    split; [ lia | ]. split; [ intros img [] | lia ].
  - rewrite composite_from_cons. unfold loaded; simpl flat_map.
    fold (loaded l). destruct (imread p) as [img | ] eqn:E.
    + destruct (imread_raster p img E) as [Ri Ci].
      destruct (stitch_two_images_shape self r img R Ri)
        as (o & r' & _ & Hr' & Wr' & _ & Cr' & G1 & G2 & G3);
        [ congruence | ].
      rewrite Hr'.
      assert (R' : raster r').
      { destruct R as (A & B & _), Ri as (A' & B' & _).
        repeat split; [ lia | lia | right; congruence ]. }
      destruct (IH (i + 1) r' R' ltac:(congruence))
        as (c & Hc & Rc & Cc & K1 & K2 & K3).
      exists c. split; [ exact Hc | ]. split; [ exact Rc | ].
      split; [ exact Cc | ]. split; [ lia | ]. split.
      * intros x [<- | Hx]; [ lia | now apply K2 ].
      * simpl sum_heights. fold (sum_heights (loaded l)). lia.
    + destruct (IH (i + 1) r R C) as (c & Hc & Rc & Cc & K1 & K2 & K3).
      exists c. simpl app.
      split; [ exact Hc | ]. split; [ exact Rc | ]. split; [ exact Cc | ].
      split; [ exact K1 | ]. split; [ exact K2 | exact K3 ].
Qed.

(** A completed loop has printed a warning for every path it could not
    read. *)
Lemma loop_warnings (self : ImageStitcher) (l : list string) :
  forall (st st' : Z * ndarray),
    outcome (for_each (stitch_loop_body self) st l) = Ok st' ->
    forall p, In p l -> imread p = None ->
      In (WarningSkipMsg p) (printed (for_each (stitch_loop_body self) st l)).
Proof.
  induction l as [ | q l IH ]; intros st st' H p Hin Hp; [ destruct Hin | ].
  simpl for_each in *.
  apply outcome_bind_inv in H. destruct H as (st1 & H1 & H2).
  rewrite (printed_bind_ok _ _ st1 H1). apply in_or_app.
  destruct Hin as [-> | Hin].
  - left. unfold stitch_loop_body. rewrite Hp. simpl. now left.
  - right. now apply (IH st1 st').
Qed.

(** C4: when every path is readable, [stitch_multiple_images] returns a
    composite; along the fold the running composite never loses height,
    and the final composite is at least as high as every input and at most
    as high as all inputs together. *)
Theorem composite_height_monotone
  (self : ImageStitcher) (path : string) (rest : list string) :
  Forall (fun p => readable p = true) (path :: rest) ->
  exists first final,
    imread path = Some first /\
    outcome (stitch_multiple_images self (path :: rest)) = Ok final /\
    composite_from self 2 first rest = Ok final /\
    (forall pre mid post, rest = pre ++ mid ++ post ->
       exists c1 c2,
         composite_from self 2 first pre = Ok c1 /\
         composite_from self 2 first (pre ++ mid) = Ok c2 /\
         height c1 <= height c2) /\
    (forall img, In img (loaded (path :: rest)) ->
       height img <= height final) /\
    height final <= sum_heights (loaded (path :: rest)).
Proof.
  intros All. inversion All as [ | ? ? Hp _ ]; subst.
  apply readable_true in Hp. destruct Hp as [first E].
  destruct (imread_raster path first E) as [R C].
  destruct (composite_from_heights self rest 2 first R C)
    as (final & Hf & _ & _ & K1 & K2 & K3).
  exists first, final. split; [ exact E | ].
  split; [ now rewrite (stitch_multiple_images_outcome self path rest first E) | ].
  split; [ exact Hf | ]. split; [ | split ].
  - intros pre mid post ->.
    destruct (composite_from_heights self pre 2 first R C)
      as (c1 & H1 & R1 & C1 & _).
    destruct (composite_from_heights self mid
                (2 + Z.of_nat (length pre)) c1 R1 C1)
      as (c2 & H2 & _ & _ & L & _).
    exists c1, c2. split; [ exact H1 | ]. split; [ | exact L ].
    rewrite composite_from_app, H1. exact H2.
  - unfold loaded; simpl flat_map. rewrite E. fold (loaded rest).
    intros img [<- | Hin]; [ exact K1 | now apply K2 ].
  - unfold loaded; simpl flat_map. rewrite E. fold (loaded rest).
    simpl sum_heights. fold (sum_heights (loaded rest)). lia.
Qed.

(** C5: an unreadable first image makes [stitch_multiple_images] raise;
    with a readable first image it raises nothing, returns what stitching
    the readable paths in order returns, and has printed a warning for
    every later path it could not read. *)
Theorem skip_unreadable_images
  (self : ImageStitcher) (path : string) (rest : list string) :
  (readable path = false ->
   outcome (stitch_multiple_images self (path :: rest)) =
   Raise (ValueError (String.append "Could not read image: " path))) /\
  (readable path = true ->
   exists final,
     outcome (stitch_multiple_images self (path :: rest)) = Ok final /\
     outcome (stitch_multiple_images self (filter readable (path :: rest)))
       = Ok final /\
     forall p, In p rest -> readable p = false ->
       In (WarningSkipMsg p)
          (printed (stitch_multiple_images self (path :: rest)))).
Proof.
  split.
  - intros H. apply readable_false in H.
    unfold stitch_multiple_images.
    destruct rest as [ | p l ]; rewrite H; [ reflexivity | ].
    now rewrite (outcome_bind_ok _ _ tt) by reflexivity.
  - intros H. pose proof H as H'. apply readable_true in H'.
    destruct H' as [first E].
    destruct (imread_raster path first E) as [R C].
    destruct (composite_from_heights self rest 2 first R C)
      as (final & Hf & _).
    exists final.
    split; [ now rewrite (stitch_multiple_images_outcome self path rest first E) | ].
    split.
    + simpl filter. rewrite H.
      rewrite (stitch_multiple_images_outcome self path _ first E).
      now rewrite <- (composite_from_filter self rest 2 2 first).
    + intros p Hin Hp. apply readable_false in Hp.
      destruct rest as [ | q l ]; [ destruct Hin | ].
      unfold composite_from in Hf.
      destruct (outcome (for_each (stitch_loop_body self) (2, first) (q :: l)))
        as [st | e] eqn:L; [ | discriminate ].
      pose proof (loop_warnings self (q :: l) (2, first) st L p Hin Hp) as W.
      unfold stitch_multiple_images. rewrite E.
      rewrite (printed_bind_ok _ _ tt) by reflexivity.
      apply in_or_app. right.
      rewrite (printed_bind_ok _ _ tt) by reflexivity.
      apply in_or_app. right.
      rewrite (printed_bind_ok _ _ st L).
      apply in_or_app. now left.
Qed.

(** C8: on an empty list of paths [stitch_multiple_images] raises
    [ValueError("No images provided")] and returns no buffer, whatever the
    threshold. *)
Theorem stitch_no_images_raises (self : ImageStitcher) :
  stitch_multiple_images self [] =
    ([], Raise (ValueError "No images provided")) /\
  forall img, outcome (stitch_multiple_images self []) <> Ok img.
Proof. split; [ reflexivity | intros img; discriminate ]. Qed.

End PipelineTheorems.

(** ** The theorems at concrete images *)

Ltac raster_by_computation :=
  unfold raster; vm_compute;
  repeat split; try reflexivity; try (left; reflexivity);
  try (right; reflexivity).

(** C1, the claim as first stated fails: a grayscale upper image and a BGR
    lower image are two raster buffers, and [np.vstack] raises on them. *)
Lemma stitch_two_images_mixed_channels_raises :
  raster (Stub.gray_image 20 4) /\ raster (Stub.bgr_image 20 6) /\
  outcome (stitch_two_images (cv := Stub.cv_match) (mk_ImageStitcher (4 # 5))
             (Stub.gray_image 20 4) (Stub.bgr_image 20 6))
  = Raise numpy_ValueError.
Proof.
  split; [ raster_by_computation | ].
  split; [ raster_by_computation | ].
  vm_compute. reflexivity.
Qed.

Lemma stitch_two_images_dimensions_witness :
  raster (Stub.bgr_image 20 4) /\ raster (Stub.bgr_image 20 6) /\
  exists r,
    outcome (stitch_two_images (cv := Stub.cv_match)
               (mk_ImageStitcher (4 # 5))
               (Stub.bgr_image 20 4) (Stub.bgr_image 20 6)) = Ok r /\
    width r = 6 /\ height r = 12 + 20.
Proof.
  assert (R1 : raster (Stub.bgr_image 20 4)) by raster_by_computation.
  assert (R2 : raster (Stub.bgr_image 20 6)) by raster_by_computation.
  split; [ exact R1 | ]. split; [ exact R2 | ].
  destruct (stitch_two_images_dimensions (cv := Stub.cv_match)
              (mk_ImageStitcher (4 # 5))
              (Stub.bgr_image 20 4) (Stub.bgr_image 20 6) R1 R2 eq_refl)
    as (o & r & Ho & Hr & Hw & Hh).
  exists r. split; [ exact Hr | ]. split; [ exact Hw | ].
  vm_compute in Ho. injection Ho as <-. exact Hh.
Defined.

(** C2, the claim as first stated fails: with threshold 0 and a matcher
    that scores 0 everywhere, every candidate has a correlation that is at
    least the threshold, and yet [find_overlap] finds nothing. *)
Lemma find_overlap_rejects_zero_score :
  raster (Stub.gray_image 20 4) /\
  ~ locator_agrees (cv := Stub.cv_flat) locate_at_least
      (mk_ImageStitcher 0) (Stub.gray_image 20 4) (Stub.gray_image 20 4)
      (Finite (1 # 2)).
Proof.
  split; [ raster_by_computation | ].
  intros (rs & st & H1 & _ & H2 & H3 & _).
  vm_compute in H1. injection H1 as <-.
  vm_compute in H2. injection H2 as <-.
  vm_compute in H3. discriminate H3.
Qed.

Lemma find_overlap_tracks_best_positive_witness :
  raster (Stub.gray_image 20 4) /\ raster (Stub.bgr_image 20 6) /\
  locator_agrees (cv := Stub.cv_match) locate_positive
    (mk_ImageStitcher (4 # 5)) (Stub.gray_image 20 4) (Stub.bgr_image 20 6)
    (Finite (1 # 2)).
Proof.
  assert (R1 : raster (Stub.gray_image 20 4)) by raster_by_computation.
  assert (R2 : raster (Stub.bgr_image 20 6)) by raster_by_computation.
  split; [ exact R1 | ]. split; [ exact R2 | ].
  exact (find_overlap_tracks_best_positive (cv := Stub.cv_match)
           (mk_ImageStitcher (4 # 5)) (Stub.gray_image 20 4)
           (Stub.bgr_image 20 6) (Finite (1 # 2)) R1 R2).
Defined.

(** C3, the claim as first stated fails: for two images of 100 rows
    [min_overlap] is 10 and [max_overlap] is 90, so 10 is a size of the
    closed range, and the loop never tries it. *)
Lemma sweep_leaves_out_min_overlap :
  sweep_closed (height (Stub.gray_image 100 4))
    (height (Stub.gray_image 100 4)) 10 /\
  ~ In 10 (sweep (height (Stub.gray_image 100 4))
             (height (Stub.gray_image 100 4))).
Proof.
  split.
  - unfold sweep_closed. vm_compute.
    split; [ split; discriminate | ].
    exists 8. split; [ discriminate | reflexivity ].
  - vm_compute. intuition discriminate.
Qed.

(** C6, the claim as first stated fails: on the same two images and at
    the same threshold, [find_overlap] returns an offset at the search
    region 0.5, raises [OverflowError] at [2 ^ 1023], whose product with
    the 20 rows of the upper image overflows, and raises [ValueError] at
    a NaN. *)
Lemma find_overlap_search_region_overflow_raises :
  find_overlap (cv := Stub.cv_match) (mk_ImageStitcher (4 # 5))
    (Stub.bgr_image 20 4) (Stub.bgr_image 20 6) (Finite (1 # 2))
  = ([FoundOverlapMsg (9 # 10)], Ok (Some 12)) /\
  find_overlap (cv := Stub.cv_match) (mk_ImageStitcher (4 # 5))
    (Stub.bgr_image 20 4) (Stub.bgr_image 20 6)
    (Finite (inject_Z (2 ^ 1023)))
  = ([], Raise (OverflowError "cannot convert float infinity to integer")) /\
  find_overlap (cv := Stub.cv_match) (mk_ImageStitcher (4 # 5))
    (Stub.bgr_image 20 4) (Stub.bgr_image 20 6) NaN
  = ([], Raise (ValueError "cannot convert float NaN to integer")) /\
  find_overlap (cv := Stub.cv_match) (mk_ImageStitcher (4 # 5))
    (Stub.bgr_image 20 4) (Stub.bgr_image 20 6) (Finite (1 # 2))
  <> find_overlap (cv := Stub.cv_match) (mk_ImageStitcher (4 # 5))
       (Stub.bgr_image 20 4) (Stub.bgr_image 20 6)
       (Finite (inject_Z (2 ^ 1023))).
Proof.
  split; [ vm_compute; reflexivity | ].
  split; [ vm_compute; reflexivity | ].
  split; [ vm_compute; reflexivity | ].
  vm_compute. discriminate.
Qed.

Lemma find_overlap_search_region_converts_or_raises_witness :
  find_overlap (cv := Stub.cv_match) (mk_ImageStitcher (4 # 5))
    (Stub.bgr_image 20 4) (Stub.bgr_image 20 6) (Finite (3 # 10))
  = find_overlap (cv := Stub.cv_match) (mk_ImageStitcher (4 # 5))
      (Stub.bgr_image 20 4) (Stub.bgr_image 20 6) (Finite (7 # 2)) /\
  find_overlap (cv := Stub.cv_match) (mk_ImageStitcher (4 # 5))
    (Stub.bgr_image 20 4) (Stub.bgr_image 20 6) (Finite 1)
  = find_overlap (cv := Stub.cv_match) (mk_ImageStitcher (4 # 5))
      (Stub.bgr_image 20 4) (Stub.bgr_image 20 6) (Finite 0) /\
  find_overlap (cv := Stub.cv_match) (mk_ImageStitcher (4 # 5))
    (Stub.bgr_image 20 4) (Stub.bgr_image 20 6) (Infinity true)
  = ([], Raise (OverflowError "cannot convert float infinity to integer")).
Proof.
  split; [ | split ].
  - apply (proj1 (proj2 (find_overlap_search_region_converts_or_raises
                           (cv := Stub.cv_match) (mk_ImageStitcher (4 # 5))
                           (Stub.bgr_image 20 4) (Stub.bgr_image 20 6)
                           (Finite (3 # 10)) (Finite (7 # 2)))) 6 70).
    + vm_compute. reflexivity.
    + vm_compute. reflexivity.
  - apply (proj1 (proj2 (proj2 (find_overlap_search_region_converts_or_raises
                                  (cv := Stub.cv_match)
                                  (mk_ImageStitcher (4 # 5))
                                  (Stub.bgr_image 20 4) (Stub.bgr_image 20 6)
                                  NaN NaN))) 1%Q 0%Q).
    + split; vm_compute; discriminate.
    + split; vm_compute; discriminate.
  - apply (proj2 (proj2 (proj2 (find_overlap_search_region_converts_or_raises
                                  (cv := Stub.cv_match)
                                  (mk_ImageStitcher (4 # 5))
                                  (Stub.bgr_image 20 4) (Stub.bgr_image 20 6)
                                  (Infinity true) NaN)))).
    vm_compute. reflexivity.
Defined.

Lemma find_overlap_degenerate_geometry_witness :
  find_overlap (cv := Stub.cv_flat) (mk_ImageStitcher (4 # 5))
    (Stub.gray_image 1 4) (Stub.gray_image 50 4) (Finite (1 # 2))
    = ([NoOverlapMsg], Ok None) /\
  find_overlap_body (cv := Stub.cv_flat) (mk_ImageStitcher (4 # 5))
    (Stub.gray_image 50 4) (Stub.gray_image 5 4) (0%Q, None) 20
    = ([], Ok (0%Q, None)).
Proof.
  split.
  - refine (proj2 (proj1 (find_overlap_degenerate_geometry
                            (cv := Stub.cv_flat) (mk_ImageStitcher (4 # 5))
                            (Stub.gray_image 1 4) (Stub.gray_image 50 4)
                            (Finite (1 # 2))) _) (1 # 2)%Q _).
    + vm_compute. discriminate.
    + split; vm_compute; discriminate.
  - apply (proj2 (find_overlap_degenerate_geometry (cv := Stub.cv_flat)
                    (mk_ImageStitcher (4 # 5))
                    (Stub.gray_image 50 4) (Stub.gray_image 5 4)
                    (Finite (1 # 2)))).
    + raster_by_computation.
    + raster_by_computation.
    + vm_compute. reflexivity.
    + vm_compute. reflexivity.
Defined.

Lemma find_overlap_threshold_monotone_witness :
  (4 # 5 <= 19 # 20)%Q /\
  outcome (find_overlap (cv := Stub.cv_match) (mk_ImageStitcher (4 # 5))
             (Stub.bgr_image 20 4) (Stub.bgr_image 20 6) (Finite (1 # 2)))
    = Ok (Some 12) /\
  find_overlap (cv := Stub.cv_match) (mk_ImageStitcher (19 # 20))
    (Stub.bgr_image 20 4) (Stub.bgr_image 20 6) (Finite (1 # 2))
    = ([NoOverlapMsg], Ok None).
Proof.
  assert (L : (4 # 5 <= 19 # 20)%Q) by (vm_compute; discriminate).
  split; [ exact L | ]. split; [ vm_compute; reflexivity | ].
  refine (proj2 (proj2 (find_overlap_threshold_monotone (cv := Stub.cv_match)
                          (mk_ImageStitcher (4 # 5))
                          (mk_ImageStitcher (19 # 20))
                          (Stub.bgr_image 20 4) (Stub.bgr_image 20 6)
                          (Finite (1 # 2)) L)
                   (9 # 10)%Q 12 _ _) (1 # 2)%Q _).
  - vm_compute. reflexivity.
  - vm_compute. reflexivity.
  - split; vm_compute; discriminate.
Defined.

Lemma find_overlap_score_positive_witness :
  outcome (find_overlap (cv := Stub.cv_match) (mk_ImageStitcher (-1))
             (Stub.bgr_image 20 4) (Stub.bgr_image 20 6) (Finite (1 # 2)))
    = Ok (Some 12) /\
  exists confidence,
    printed (find_overlap (cv := Stub.cv_match) (mk_ImageStitcher (-1))
               (Stub.bgr_image 20 4) (Stub.bgr_image 20 6) (Finite (1 # 2)))
      = [FoundOverlapMsg confidence] /\
    (0 < confidence)%Q.
Proof.
  assert (H : outcome (find_overlap (cv := Stub.cv_match)
                         (mk_ImageStitcher (-1))
                         (Stub.bgr_image 20 4) (Stub.bgr_image 20 6) (Finite (1 # 2)))
              = Ok (Some 12)) by (vm_compute; reflexivity).
  split; [ exact H | ].
  destruct (proj1 (find_overlap_score_positive (cv := Stub.cv_match)
                     (mk_ImageStitcher (-1))
                     (Stub.bgr_image 20 4) (Stub.bgr_image 20 6) (Finite (1 # 2))
                     12 H))
    as (c & _ & P & C).
  exists c. split; [ exact P | exact C ].
Defined.

Lemma composite_height_monotone_witness :
  Forall (fun p => readable (cv := Stub.cv_match) p = true)
    ["shot1.png"; "shot2.png"; "shot3.png"]%string /\
  exists final,
    outcome (stitch_multiple_images (cv := Stub.cv_match)
               (mk_ImageStitcher (4 # 5))
               ["shot1.png"; "shot2.png"; "shot3.png"]%string) = Ok final /\
    30 <= height final <= 20 + 20 + 30.
Proof.
  assert (A : Forall (fun p => readable (cv := Stub.cv_match) p = true)
                ["shot1.png"; "shot2.png"; "shot3.png"]%string)
    by (repeat constructor).
  split; [ exact A | ].
  destruct (composite_height_monotone (cv := Stub.cv_match)
              (mk_ImageStitcher (4 # 5)) "shot1.png"
              ["shot2.png"; "shot3.png"]%string A)
    as (first & final & _ & Hf & _ & _ & K & S).
  exists final. split; [ exact Hf | ]. split.
  - apply (K (Stub.bgr_image 30 4)). vm_compute.
    right. right. left. reflexivity.
  - exact S.
Defined.

Lemma skip_unreadable_images_witness :
  outcome (stitch_multiple_images (cv := Stub.cv_match)
             (mk_ImageStitcher (4 # 5)) ["gone.png"; "shot2.png"]%string)
    = Raise (ValueError "Could not read image: gone.png") /\
  exists final,
    outcome (stitch_multiple_images (cv := Stub.cv_match)
               (mk_ImageStitcher (4 # 5))
               ["shot1.png"; "gone.png"; "shot3.png"]%string) = Ok final /\
    outcome (stitch_multiple_images (cv := Stub.cv_match)
               (mk_ImageStitcher (4 # 5))
               ["shot1.png"; "shot3.png"]%string) = Ok final /\
    In (WarningSkipMsg "gone.png")
      (printed (stitch_multiple_images (cv := Stub.cv_match)
                  (mk_ImageStitcher (4 # 5))
                  ["shot1.png"; "gone.png"; "shot3.png"]%string)).
Proof.
  split.
  - apply (proj1 (skip_unreadable_images (cv := Stub.cv_match)
                    (mk_ImageStitcher (4 # 5)) "gone.png"
                    ["shot2.png"]%string)).
    reflexivity.
  - destruct (proj2 (skip_unreadable_images (cv := Stub.cv_match)
                       (mk_ImageStitcher (4 # 5)) "shot1.png"
                       ["gone.png"; "shot3.png"]%string) eq_refl)
      as (final & A & B & W).
    exists final. split; [ exact A | ]. split; [ exact B | ].
    apply (W "gone.png"%string); [ left; reflexivity | reflexivity ].
Defined.

(** * Further properties of the stitcher *)

Section StitcherExtras.

Context `{cv : Cv2}.

Lemma scan_candidates (img1 img2 : ndarray) (l : list Z) rs :
  outcome (scan img1 img2 l) = Ok rs -> map fst rs = l.
Proof.
  revert rs. induction l as [ | s l IH ]; intros rs H; simpl in H.
  - now injection H as <-.
  - apply outcome_bind_inv in H. destruct H as (r & _ & H).
    apply outcome_bind_inv in H. destruct H as (rs' & Hrs & H).
    injection H as <-. simpl. now rewrite (IH rs' Hrs).
Qed.

(** X1: whatever the images and whatever OpenCV answers, an offset that
    [find_overlap] returns is [height(img1) - s] for a size [s] of the sweep;
    it lies inside the upper image, below its last row, and the rows it
    leaves out are no more than the lower image has. *)
Theorem find_overlap_offset_in_range
  (self : ImageStitcher) (img1 img2 : ndarray) (search_region : py_float)
  (offset : Z) :
  outcome (find_overlap self img1 img2 search_region) = Ok (Some offset) ->
  (exists s, In s (sweep (height img1) (height img2)) /\
             offset = height img1 - s) /\
  height img1 - max_overlap (height img1) (height img2) <= offset /\
  offset < height img1 - min_overlap (height img1) (height img2) /\
  0 <= offset < height img1 /\
  height img1 <= offset + height img2.
Proof.
  intros H. apply find_overlap_inv in H.
  destruct H as (n & st & _ & L & Hoff).
  apply loop_outcome in L. destruct L as (rs & Hrs & ->).
  apply offset_from_candidate in Hoff.
  destruct Hoff as [Hoff | (s & v & Hin & ->)]; [ discriminate | ].
  assert (Hs : In s (sweep (height img1) (height img2))).
  { rewrite <- (scan_candidates _ _ _ _ Hrs). apply in_map_iff.
    now exists (s, Some v). }
  pose proof (in_sweep _ _ _ (height_nonneg img1) (height_nonneg img2) Hs).
  pose proof Hs as Hr. apply in_py_range_down in Hr.
  split; [ now exists s | ]. lia.
Qed.

Lemma py_slice_firstn {A} (k : Z) (l : list A) :
  0 <= k <= Z.of_nat (length l) -> py_slice 0 k l = firstn (Z.to_nat k) l.
Proof.
  intros H. unfold py_slice, slice_bound.
  assert (E : (k <? 0) = false) by (apply Z.ltb_ge; lia).
  rewrite E. change (0 <? 0) with false. cbv iota zeta.
  rewrite (Z.min_l 0) by lia. rewrite (Z.min_l k) by lia.
  now rewrite Z.sub_0_r.
Qed.

Lemma match_widths_keeps_wider (img1 img2 a b : ndarray) :
  outcome (match_widths img1 img2) = Ok (a, b) ->
  (width img2 <= width img1 -> a = img1) /\
  (width img1 <= width img2 -> b = img2).
Proof.
  unfold match_widths.
  destruct (width img1 =? width img2) eqn:E; simpl.
  - intros [= <- <-]. split; reflexivity.
  - apply Z.eqb_neq in E. intros H.
    apply outcome_bind_inv in H. destruct H as (a' & Ha & H).
    apply outcome_bind_inv in H. destruct H as (b' & Hb & H).
    injection H as <- <-. split; intros L.
    + assert (F : (width img1 <? Z.max (width img1) (width img2)) = false)
        by (apply Z.ltb_ge; lia).
      rewrite F in Ha. now injection Ha.
    + assert (F : (width img2 <? Z.max (width img1) (width img2)) = false)
        by (apply Z.ltb_ge; lia).
      rewrite F in Hb. now injection Hb.
Qed.

(** X2: the pixels of the stitched image.  With [k] the returned offset, or
    the whole height of the upper image when no overlap is found, the
    result has [k] rows followed by the rows of the lower image; an image
    that is not the narrower one is copied untouched, so the first [k] rows
    are those of the upper image when it is at least as wide, and the rest
    is the lower image itself when that one is at least as wide. *)
Theorem stitch_two_images_rows
  (self : ImageStitcher) (img1 img2 : ndarray) :
  raster img1 -> raster img2 -> chan img1 = chan img2 ->
  exists o r,
    outcome (find_overlap self img1 img2 (Finite (1 # 2))) = Ok o /\
    outcome (stitch_two_images self img1 img2) = Ok r /\
    let k := Z.to_nat (match o with
                       | Some offset => offset
                       | None => height img1
                       end) in
    length (rows r) = (k + length (rows img2))%nat /\
    (width img2 <= width img1 ->
     firstn k (rows r) = firstn k (rows img1)) /\
    (width img1 <= width img2 -> skipn k (rows r) = rows img2).
Proof.
  intros R1 R2 C.
  destruct (find_overlap_offset self img1 img2 R1 R2) as (o & Ho & B).
  destruct R1 as (H1 & W1 & _), R2 as (H2 & W2 & _).
  destruct (match_widths_defined img1 img2 H1 W1 H2 W2)
    as (a & b & Hm & Ha & Hb & Wa & Wb & Ca & Cb).
  destruct (match_widths_keeps_wider img1 img2 a b Hm) as [Ka Kb].
  exists o. unfold stitch_two_images.
  rewrite (outcome_bind_ok _ _ o Ho).
  set (top := match o with
              | Some offset => slice_rows 0 offset a
              | None => a
              end).
  assert (Hv : exists r, vstack top b = Ok r /\ rows r = rows top ++ rows b).
  { unfold vstack.
    assert (E1 : cols top = cols b).
    { unfold top. destruct o; simpl; unfold width in Wa, Wb; congruence. }
    assert (E2 : chan top = chan b).
    { unfold top. destruct o; simpl; congruence. }
    rewrite E1, E2, Z.eqb_refl, chan_eqb_refl. simpl.
    eexists. split; reflexivity. }
  destruct Hv as (r & Hr & Rows). exists r. split; [ exact Ho | ].
  split.
  { unfold top in Hr.
    destruct o; rewrite (outcome_bind_ok _ _ (a, b) Hm); exact Hr. }
  assert (Hk : exists k,
             Z.of_nat k = match o with
                          | Some offset => offset
                          | None => height img1
                          end /\
             rows top = firstn k (rows a) /\ (k <= length (rows a))%nat).
  { unfold top. destruct o as [off | ].
    - destruct (B off eq_refl) as [B1 B2].
      exists (Z.to_nat off). split; [ lia | ]. split.
      + simpl. apply py_slice_firstn. unfold height in *. lia.
      + unfold height in *. lia.
    - exists (length (rows a)). split; [ exact Ha | ]. split.
      + now rewrite firstn_all.
      + lia. }
  destruct Hk as (k & Ek & Et & Lk).
  rewrite <- Ek, Nat2Z.id. cbv zeta.
  assert (Lt : length (rows top) = k).
  { rewrite Et, length_firstn. lia. }
  assert (Lb : length (rows b) = length (rows img2)).
  { unfold height in Hb. lia. }
  rewrite Rows. split; [ rewrite length_app; lia | ]. split.
  - intros L. rewrite (Ka L) in Et.
    rewrite firstn_app, Lt, Nat.sub_diag. simpl. rewrite app_nil_r.
    rewrite Et. now rewrite firstn_firstn, Nat.min_id.
  - intros L. rewrite (Kb L).
    rewrite skipn_app, Lt, Nat.sub_diag. simpl.
    rewrite skipn_all2 by lia. reflexivity.
Qed.

(** The loop on images that [imread] produced ends with a 3-channel
    composite as wide as the widest image it has seen. *)
Lemma composite_from_width (self : ImageStitcher) (l : list string) :
  forall (i : Z) (r : ndarray),
    raster r -> chan r = Some 3 ->
    exists c,
      composite_from self i r l = Ok c /\
      width c = Z.max (width r) (max_width (loaded l)) /\
      chan c = Some 3.
Proof.
  induction l as [ | p l IH ]; intros i r R C.
  - exists r. rewrite composite_from_nil. simpl.
    destruct R as (_ & W & _). repeat split; [ lia | exact C ].
  - rewrite composite_from_cons. unfold loaded; simpl flat_map.
    fold (loaded l). destruct (imread p) as [img | ] eqn:E.
    + destruct (imread_raster p img E) as [Ri Ci].
      destruct (stitch_two_images_shape self r img R Ri)
        as (o & r' & _ & Hr' & Wr' & _ & Cr' & G1 & G2 & G3);
        [ congruence | ].
      rewrite Hr'.
      assert (R' : raster r').
      { destruct R as (A & B & _), Ri as (A' & B' & _).
        repeat split; [ lia | lia | right; congruence ]. }
      destruct (IH (i + 1) r' R' ltac:(congruence)) as (c & Hc & Wc & Cc).
      exists c. split; [ exact Hc | ]. split; [ | exact Cc ].
      simpl max_width. fold (max_width (loaded l)). lia.
    + destruct (IH (i + 1) r R C) as (c & Hc & Wc & Cc).
      exists c. simpl app. auto.
Qed.

(** X3: when the first path is readable, the final composite is a
    3-channel image exactly as wide as the widest image that could be
    loaded. *)
Theorem composite_width_is_widest_input
  (self : ImageStitcher) (path : string) (rest : list string) :
  readable path = true ->
  exists final,
    outcome (stitch_multiple_images self (path :: rest)) = Ok final /\
    width final = max_width (loaded (path :: rest)) /\
    chan final = Some 3.
Proof.
  intros H. apply readable_true in H. destruct H as [first E].
  destruct (imread_raster path first E) as [R C].
  destruct (composite_from_width self rest 2 first R C) as (c & Hc & Wc & Cc).
  exists c. rewrite (stitch_multiple_images_outcome self path rest first E).
  split; [ exact Hc | ]. split; [ | exact Cc ].
  unfold loaded; simpl flat_map. rewrite E. exact Wc.
Qed.

Lemma loop_all_unreadable (self : ImageStitcher) (l : list string) :
  Forall (fun p => readable p = false) l ->
  forall (i : Z) (r : ndarray),
    for_each (stitch_loop_body self) (i, r) l =
    (map WarningSkipMsg l, Ok (i + Z.of_nat (length l), r)).
Proof.
  induction 1 as [ | p l Hp _ IH ]; intros i r.
  - simpl. unfold ret. now rewrite Z.add_0_r.
  - apply readable_false in Hp. simpl for_each.
    unfold stitch_loop_body at 1. rewrite Hp. simpl fst; simpl snd.
    unfold bind, print, ret. simpl. rewrite IH. simpl.
    do 3 f_equal. lia.
Qed.

(** X4: when every path after the first is unreadable,
    [stitch_multiple_images] returns the first image as it was loaded, and
    prints one warning per skipped path, in order, between the opening
    messages and the final size. *)
Theorem stitch_only_first_readable
  (self : ImageStitcher) (path : string) (rest : list string)
  (first : ndarray) :
  imread path = Some first ->
  Forall (fun p => readable p = false) rest ->
  stitch_multiple_images self (path :: rest) =
  (skipped_all_output path rest first, Ok first).
Proof.
  intros E H. unfold stitch_multiple_images, skipped_all_output.
  destruct rest as [ | p l ]; rewrite E; [ reflexivity | ].
  rewrite (loop_all_unreadable self (p :: l) H 2 first).
  unfold bind, print, ret. simpl. reflexivity.
Qed.

(** X5: the cost of the sweep.  [find_overlap] tries at least one size
    exactly when both images have two rows or more, and never more than
    [0.08 * min(h1, h2) + 1] of them. *)
Theorem sweep_size (img1 img2 : ndarray) :
  let m := Z.min (height img1) (height img2) in
  let candidates := sweep (height img1) (height img2) in
  (candidates = [] <-> m <= 1) /\
  Z.of_nat (length candidates) <= 8 * m / 100 + 1.
Proof.
  intros m candidates.
  assert (M : 0 <= m).
  { unfold m. pose proof (height_nonneg img1). pose proof (height_nonneg img2).
    lia. }
  assert (L : length candidates =
              range_len (max_overlap (height img1) (height img2))
                (min_overlap (height img1) (height img2)) (-10)).
  { unfold candidates, sweep, py_range. now rewrite length_map, length_seq. }
  rewrite min_overlap_div, max_overlap_div in L by apply height_nonneg.
  fold m in L. unfold range_len in L.
  change (0 <? -10) with false in L. change (-10 <? 0) with true in L.
  cbv iota in L. change (- -10) with 10 in L.
  split.
  - rewrite <- length_zero_iff_nil, L.
    destruct (m / 10 <? m * 9 / 10) eqn:E.
    + apply Z.ltb_lt in E. split; intros H; exfalso;
        Z.div_mod_to_equations; lia.
    + apply Z.ltb_ge in E. split; intros H; [ | reflexivity ].
      Z.div_mod_to_equations. lia.
  - rewrite L. destruct (m / 10 <? m * 9 / 10) eqn:E.
    + apply Z.ltb_lt in E. Z.div_mod_to_equations. lia.
    + assert (0 <= 8 * m / 100) by (apply Z.div_pos; lia).
      change (Z.of_nat 0) with 0. lia.
Qed.

End StitcherExtras.

(** * The command line and the text collaborators *)

(** ** [validate_images] *)

Lemma validate_images_loop_returned (fs : FileSystem) (paths : list string) :
  forall acc l,
    validate_images_loop fs acc paths = Returned l <->
    l = acc ++ paths /\ forallb (is_input_file fs) paths = true.
Proof.
  induction paths as [ | p paths IH ]; intros acc l; simpl.
  - rewrite app_nil_r. split.
    + intros [= <-]. now split.
    + intros [-> _]. reflexivity.
  - unfold is_input_file at 1.
    destruct (path_exists fs p); simpl;
      [ | split; [ discriminate | intros [_ H]; discriminate H ] ].
    destruct (path_isfile fs p); simpl;
      [ | split; [ discriminate | intros [_ H]; discriminate H ] ].
    rewrite IH, <- app_assoc. reflexivity.
Qed.

(** X6: [validate_images] returns exactly when every path exists and is a
    regular file, and what it returns is the list it was given, in the same
    order. *)
Theorem validate_images_returns_its_input
  (fs : FileSystem) (image_paths validated : list string) :
  validate_images fs image_paths = Returned validated <->
  validated = image_paths /\ forallb (is_input_file fs) image_paths = true.
Proof. unfold validate_images. now rewrite validate_images_loop_returned. Qed.

(** X7: [validate_images] stops at the first path that fails a check: it
    raises [FileNotFoundError] when that path does not exist and
    [ValueError] when it exists without being a file, whatever comes after
    it. *)
Theorem validate_images_first_offender
  (fs : FileSystem) (before after : list string) (path : string) :
  forallb (is_input_file fs) before = true ->
  is_input_file fs path = false ->
  validate_images fs (before ++ path :: after) =
  Thrown (if path_exists fs path
          then Raised (ValueError (String.append "Not a file: " path))
          else FileNotFoundError
                 (String.append "Image file not found: " path)).
Proof.
  unfold validate_images. generalize (@nil string).
  induction before as [ | p before IH ]; intros acc Hb Hp; simpl.
  - unfold is_input_file in Hp.
    destruct (path_exists fs path); simpl in *; [ | reflexivity ].
    now rewrite Hp.
  - simpl in Hb. apply andb_true_iff in Hb. destruct Hb as [Hp' Hb].
    unfold is_input_file in Hp'. apply andb_true_iff in Hp'.
    destruct Hp' as [-> ->]. simpl. now apply IH.
Qed.

(** ** Splitting and joining lines *)

Lemma occurs_append (c : ascii) (s t : string) :
  occurs c (String.append s t) = occurs c s || occurs c t.
Proof.
  induction s as [ | a s IH ]; simpl; [ reflexivity | ].
  now rewrite IH, orb_assoc.
Qed.

Lemma split_on_nonempty (c : ascii) (s : string) : split_on c s <> [].
Proof.
  destruct s as [ | a s ]; simpl; [ discriminate | ].
  destruct (Ascii.eqb a c); [ discriminate | ].
  destruct (split_on c s); discriminate.
Qed.

(** A string without the separator is one piece. *)
Lemma split_on_absent (c : ascii) (s : string) :
  occurs c s = false -> split_on c s = [s].
Proof.
  induction s as [ | a s IH ]; simpl; [ reflexivity | ].
  destruct (Ascii.eqb a c); simpl; [ discriminate | ].
  intros H. now rewrite (IH H).
Qed.

Lemma split_on_append (c : ascii) (s t : string) :
  occurs c s = false ->
  split_on c (String.append s (String c t)) = s :: split_on c t.
Proof.
  induction s as [ | a s IH ]; simpl.
  - intros _. now rewrite Ascii.eqb_refl.
  - destruct (Ascii.eqb a c); simpl; [ discriminate | ].
    intros H. now rewrite (IH H).
Qed.

(** No piece of a split holds the separator. *)
Lemma split_on_pieces (c : ascii) (s : string) :
  Forall (fun piece => occurs c piece = false) (split_on c s).
Proof.
  induction s as [ | a s IH ]; simpl.
  - constructor; [ reflexivity | constructor ].
  - destruct (Ascii.eqb a c) eqn:E.
    + constructor; [ reflexivity | exact IH ].
    + destruct (split_on c s) as [ | piece pieces ].
      * constructor; [ simpl; now rewrite E | constructor ].
      * inversion IH as [ | ? ? Hp Hps ]; subst.
        constructor; [ simpl; now rewrite E | exact Hps ].
Qed.

(** Splitting what was joined gives the pieces back. *)
Lemma split_on_join (c : ascii) (l : list string) :
  l <> [] -> Forall (fun s => occurs c s = false) l ->
  split_on c (String.concat (String c EmptyString) l) = l.
Proof.
  induction l as [ | x l IH ]; intros Hne Hl; [ congruence | ].
  inversion Hl as [ | ? ? Hx Hl' ]; subst.
  destruct l as [ | y l ].
  - simpl. now apply split_on_absent.
  - change (String.concat (String c EmptyString) (x :: y :: l))
      with (String.append x
              (String c (String.concat (String c EmptyString) (y :: l)))).
    rewrite (split_on_append c x _ Hx). f_equal.
    apply IH; [ discriminate | exact Hl' ].
Qed.

(** Joining the pieces of a split gives the string back. *)
Lemma join_split_on (c : ascii) (s : string) :
  String.concat (String c EmptyString) (split_on c s) = s.
Proof.
  induction s as [ | a s IH ]; simpl; [ reflexivity | ].
  destruct (Ascii.eqb a c) eqn:E.
  - apply Ascii.eqb_eq in E. subst a.
    pose proof (split_on_nonempty c s) as N.
    destruct (split_on c s) as [ | p ps ]; [ congruence | ].
    change (String.concat (String c EmptyString) (EmptyString :: p :: ps))
      with (String c (String.concat (String c EmptyString) (p :: ps))).
    now rewrite IH.
  - pose proof (split_on_nonempty c s) as N.
    destruct (split_on c s) as [ | p ps ]; [ congruence | ].
    destruct ps as [ | q ps ]; simpl in *; now rewrite <- IH.
Qed.

Lemma digits_have_no_line_feed (d : Decimal.uint) :
  occurs LF (NilEmpty.string_of_uint d) = false.
Proof. induction d; simpl; [ reflexivity | exact IHd .. ]. Qed.

Lemma str_of_nat_one_line (n : nat) : occurs LF (str_of_nat n) = false.
Proof.
  unfold str_of_nat, NilZero.string_of_uint.
  destruct (Nat.to_uint n); try reflexivity; apply digits_have_no_line_feed.
Qed.

(** ** [format_conversation] *)

Section FormatConversation.

Import Chat.

Lemma fold_append_each {A} (g : A -> string) (l : list A) (acc : list string) :
  fold_left (fun f x => f ++ [g x]) l acc = acc ++ map g l.
Proof.
  revert acc. induction l as [ | x l IH ]; intros acc; simpl.
  - now rewrite app_nil_r.
  - rewrite IH, <- app_assoc. reflexivity.
Qed.

Lemma format_message_block (ts : bool) (formatted : list string)
  (msg : ChatMessage) :
  format_message ts formatted msg = formatted ++ message_block ts msg.
Proof.
  unfold format_message, message_block. cbv zeta.
  rewrite fold_append_each, <- !app_assoc. reflexivity.
Qed.

Lemma fold_format_message (ts : bool) (messages : list ChatMessage)
  (formatted : list string) :
  fold_left (format_message ts) messages formatted =
  formatted ++ flat_map (message_block ts) messages.
Proof.
  revert formatted. induction messages as [ | m ms IH ]; intros f; simpl.
  - now rewrite app_nil_r.
  - rewrite format_message_block, IH, <- app_assoc. reflexivity.
Qed.

Lemma format_conversation_joined (ts : bool) (messages : list ChatMessage) :
  messages <> [] ->
  format_conversation messages ts =
  join_lines (frame_top ++ flat_map (message_block ts) messages
                ++ frame_bottom (length messages)).
Proof.
  intros H. unfold format_conversation.
  destruct messages as [ | m ms ]; [ congruence | ].
  cbv zeta. rewrite fold_format_message.
  unfold frame_top, frame_bottom. simpl app. f_equal.
  rewrite <- !app_assoc. reflexivity.
Qed.

Lemma header_one_line (ts : bool) (msg : ChatMessage) :
  one_line_header msg -> occurs LF (header ts msg) = false.
Proof.
  intros [Hs Ht]. unfold header.
  destruct (ts && truthy (timestamp msg)).
  - destruct (timestamp msg) as [t | ].
    + rewrite !occurs_append, Hs, (Ht t eq_refl). reflexivity.
    + rewrite occurs_append, Hs. reflexivity.
  - rewrite occurs_append, Hs. reflexivity.
Qed.

Lemma message_block_one_line (ts : bool) (msg : ChatMessage) :
  one_line_header msg ->
  Forall (fun s => occurs LF s = false) (message_block ts msg).
Proof.
  intros H. unfold message_block. constructor.
  - now apply header_one_line.
  - apply Forall_app. split.
    + apply Forall_map.
      eapply Forall_impl; [ | apply (split_on_pieces LF (message msg)) ].
      intros piece Hp. rewrite occurs_append, Hp. reflexivity.
    + constructor; [ reflexivity | constructor ].
Qed.

(** X8: read back line by line, a formatted conversation is the four
    lines of the top frame, then for each message in order its header, the
    lines of its text each indented by two spaces and an empty line, then
    the three lines of the bottom frame with the number of messages,
    provided no speaker or timestamp holds a line feed. *)
Theorem format_conversation_lines
  (messages : list Chat.ChatMessage) (include_timestamps : bool) :
  messages <> [] ->
  Forall one_line_header messages ->
  split_on LF (format_conversation messages include_timestamps) =
  frame_top
    ++ flat_map (message_block include_timestamps) messages
    ++ frame_bottom (length messages).
Proof.
  intros Hne Hall. rewrite (format_conversation_joined _ _ Hne).
  unfold join_lines. apply split_on_join; [ discriminate | ].
  apply Forall_app. split.
  - unfold frame_top. repeat constructor.
  - apply Forall_app. split.
    + apply Forall_flat_map.
      eapply Forall_impl; [ | exact Hall ].
      intros m Hm. now apply message_block_one_line.
    + unfold frame_bottom. constructor; [ reflexivity | ].
      constructor; [ | repeat constructor ].
      rewrite occurs_append, str_of_nat_one_line. reflexivity.
Qed.

End FormatConversation.

(** ** [get_conversation_summary] *)

Section ConversationSummary.

Import Chat.

Lemma dict_get_set_same (k : string) (v : Z) (d : dict) :
  dict_get k (dict_set k v d) = Some v.
Proof.
  induction d as [ | [k' v'] d IH ]; simpl.
  - now rewrite String.eqb_refl.
  - destruct (String.eqb k' k) eqn:E; simpl; rewrite E; [ reflexivity | exact IH ].
Qed.

Lemma dict_get_set_other (k k0 : string) (v : Z) (d : dict) :
  k0 <> k -> dict_get k0 (dict_set k v d) = dict_get k0 d.
Proof.
  intros N. induction d as [ | [k' v'] d IH ]; simpl.
  - destruct (String.eqb k k0) eqn:E; [ | reflexivity ].
    apply String.eqb_eq in E. congruence.
  - destruct (String.eqb k' k) eqn:E; simpl.
    + apply String.eqb_eq in E. subst k'.
      destruct (String.eqb k k0) eqn:F; [ | reflexivity ].
      apply String.eqb_eq in F. congruence.
    + now rewrite IH.
Qed.

Lemma dict_contains_keys (k : string) (d : dict) :
  dict_contains k d = existsb (String.eqb k) (dict_keys d).
Proof.
  unfold dict_contains. induction d as [ | [k' v'] d IH ]; simpl;
    [ reflexivity | ].
  rewrite (String.eqb_sym k k').
  destruct (String.eqb k' k); simpl; [ reflexivity | exact IH ].
Qed.

Lemma dict_keys_set (k : string) (v : Z) (d : dict) :
  dict_keys (dict_set k v d) =
  if dict_contains k d then dict_keys d else dict_keys d ++ [k].
Proof.
  unfold dict_contains. induction d as [ | [k' v'] d IH ]; simpl;
    [ reflexivity | ].
  destruct (String.eqb k' k) eqn:E; simpl; [ reflexivity | ].
  rewrite IH. now destruct (dict_get k d).
Qed.

Lemma dict_total_set (k : string) (v : Z) (d : dict) :
  dict_total (dict_set k v d) =
  dict_total d - match dict_get k d with Some o => o | None => 0 end + v.
Proof.
  induction d as [ | [k' v'] d IH ]; simpl; [ lia | ].
  destruct (String.eqb k' k); simpl; [ lia | ].
  fold (dict_total (dict_set k v d)). fold (dict_total d). lia.
Qed.

Lemma messages_by_cons (s : string) (m : ChatMessage)
  (ms : list ChatMessage) :
  messages_by s (m :: ms) =
  (if String.eqb (speaker m) s then 1 else 0) + messages_by s ms.
Proof.
  unfold messages_by. simpl.
  destruct (String.eqb (speaker m) s); simpl length; lia.
Qed.

Lemma messages_by_nonneg (s : string) (ms : list ChatMessage) :
  0 <= messages_by s ms.
Proof. unfold messages_by. lia. Qed.

(** One message: its speaker gets a count if it had none, and that count
    goes up by one; nothing else changes, and no key is missing. *)
Lemma count_speaker_step (d : dict) (m : ChatMessage) :
  exists d',
    count_speaker (Returned d) m = Returned d' /\
    dict_keys d' =
      (if existsb (String.eqb (speaker m)) (dict_keys d)
       then dict_keys d else dict_keys d ++ [speaker m]) /\
    dict_get (speaker m) d' =
      Some (match dict_get (speaker m) d with Some o => o | None => 0 end + 1)
    /\
    (forall k, k <> speaker m -> dict_get k d' = dict_get k d) /\
    dict_total d' = dict_total d + 1.
Proof.
  unfold count_speaker. cbv zeta.
  rewrite <- dict_contains_keys.
  destruct (dict_contains (speaker m) d) eqn:C; simpl negb; cbv iota.
  - unfold dict_contains in C.
    destruct (dict_get (speaker m) d) as [o | ] eqn:G; [ | discriminate ].
    eexists. split; [ reflexivity | ].
    rewrite dict_keys_set, dict_get_set_same, dict_total_set, G.
    unfold dict_contains. rewrite G.
    repeat split; try lia.
    intros k N. now apply dict_get_set_other.
  - rewrite dict_get_set_same.
    eexists. split; [ reflexivity | ].
    pose proof C as C'. unfold dict_contains in C'.
    destruct (dict_get (speaker m) d) as [o | ] eqn:G; [ discriminate | ].
    rewrite !dict_keys_set, dict_get_set_same, !dict_total_set.
    rewrite dict_get_set_same, G, C.
    unfold dict_contains. rewrite dict_get_set_same.
    repeat split; try lia.
    intros k N. now rewrite !dict_get_set_other.
Qed.

Lemma count_speakers_fold (ms : list ChatMessage) :
  forall d,
  exists d',
    fold_left count_speaker ms (Returned d) = Returned d' /\
    dict_keys d' = dict_keys d ++ first_speakers (dict_keys d) ms /\
    (forall k,
       dict_get k d' =
       match dict_get k d with
       | Some o => Some (o + messages_by k ms)
       | None =>
           if messages_by k ms =? 0 then None else Some (messages_by k ms)
       end) /\
    dict_total d' = dict_total d + Z.of_nat (length ms).
Proof.
  induction ms as [ | m ms IH ]; intros d.
  - exists d. simpl. split; [ reflexivity | ].
    split; [ now rewrite app_nil_r | ]. split; [ | lia ].
    intros k. unfold messages_by. simpl.
    destruct (dict_get k d); [ f_equal; lia | reflexivity ].
  - destruct (count_speaker_step d m) as (d1 & E1 & K1 & G1 & O1 & T1).
    destruct (IH d1) as (d' & E' & K' & G' & T').
    exists d'.
    change (fold_left count_speaker (m :: ms) (Returned d))
      with (fold_left count_speaker ms (count_speaker (Returned d) m)).
    rewrite E1.
    split; [ exact E' | ]. split; [ | split ].
    + rewrite K', K1. simpl first_speakers.
      destruct (existsb (String.eqb (speaker m)) (dict_keys d));
        [ reflexivity | ].
      now rewrite <- app_assoc.
    + intros k. rewrite G', messages_by_cons.
      pose proof (messages_by_nonneg k ms) as P.
      destruct (String.eqb (speaker m) k) eqn:E.
      * apply String.eqb_eq in E. subst k. rewrite G1.
        destruct (dict_get (speaker m) d) as [o | ].
        -- f_equal; lia.
        -- assert (F : (1 + messages_by (speaker m) ms =? 0) = false)
             by (apply Z.eqb_neq; lia).
           rewrite F. f_equal; lia.
      * assert (N : k <> speaker m).
        { intros ->. now rewrite String.eqb_refl in E. }
        rewrite (O1 k N). now rewrite Z.add_0_l.
    + rewrite T', T1. simpl length. lia.
Qed.

Lemma existsb_eqb_In (s : string) (l : list string) :
  existsb (String.eqb s) l = true <-> In s l.
Proof.
  rewrite existsb_exists. split.
  - intros (x & Hx & E). apply String.eqb_eq in E. now subst.
  - intros H. exists s. split; [ exact H | apply String.eqb_refl ].
Qed.

Lemma first_speakers_NoDup (ms : list ChatMessage) :
  forall seen, NoDup seen -> NoDup (seen ++ first_speakers seen ms).
Proof.
  induction ms as [ | m ms IH ]; intros seen N; simpl.
  - now rewrite app_nil_r.
  - destruct (existsb (String.eqb (speaker m)) seen) eqn:E.
    + now apply IH.
    + change (speaker m :: first_speakers (seen ++ [speaker m]) ms)
        with ([speaker m] ++ first_speakers (seen ++ [speaker m]) ms).
      rewrite app_assoc. apply IH.
      apply NoDup_app; [ exact N | repeat constructor; intros [] | ].
      intros x Hx [<- | []].
      apply existsb_eqb_In in Hx. congruence.
Qed.

(** X9: [get_conversation_summary] never raises; it reports as many
    messages as it was given, and its participants are the speakers in the
    order of their first message, each one once. *)
Theorem summary_participants (messages : list Chat.ChatMessage) :
  exists summary,
    get_conversation_summary messages = Returned summary /\
    total_messages summary = Z.of_nat (length messages) /\
    participants summary = first_speakers [] messages /\
    dict_keys (message_count_by_speaker summary) = participants summary /\
    NoDup (participants summary) /\
    (forall s, In s (participants summary) <->
               exists m, In m messages /\ speaker m = s).
Proof.
  assert (P : NoDup (first_speakers [] messages)).
  { apply (first_speakers_NoDup messages [] (NoDup_nil _)). }
  destruct messages as [ | m ms ].
  - eexists. split; [ reflexivity | ]. simpl.
    repeat split; try reflexivity; try constructor; try tauto.
    intros (x & [] & _).
  - destruct (count_speakers_fold (m :: ms) []) as (d & E & K & G & T).
    unfold get_conversation_summary. rewrite E.
    eexists. split; [ reflexivity | ]. simpl in K |- *.
    split; [ lia | ]. split; [ exact K | ]. split; [ reflexivity | ].
    split; [ rewrite K; exact P | ].
    intros s. specialize (G s). simpl dict_get in G.
    fold (dict_keys d). split.
    + intros Hin.
      assert (C : dict_contains s d = true).
      { rewrite dict_contains_keys. now apply existsb_eqb_In. }
      unfold dict_contains in C. rewrite G in C.
      destruct (messages_by s (m :: ms) =? 0) eqn:Z0; [ discriminate | ].
      apply Z.eqb_neq in Z0. unfold messages_by in Z0.
      destruct (filter (fun msg => String.eqb (speaker msg) s) (m :: ms))
        as [ | x xs ] eqn:F; [ simpl in Z0; lia | ].
      assert (Hx : In x (filter (fun msg => String.eqb (speaker msg) s)
                           (m :: ms))) by (rewrite F; now left).
      apply filter_In in Hx. destruct Hx as [Hx Ex].
      apply String.eqb_eq in Ex. now exists x.
    + intros (x & Hx & Ex).
      assert (Hf : In x (filter (fun msg => String.eqb (speaker msg) s)
                           (m :: ms))).
      { apply filter_In. split; [ exact Hx | ].
        rewrite Ex. apply String.eqb_refl. }
      assert (Z0 : (messages_by s (m :: ms) =? 0) = false).
      { apply Z.eqb_neq. unfold messages_by.
        destruct (filter (fun msg => String.eqb (speaker msg) s) (m :: ms));
          [ destruct Hf | simpl length; lia ]. }
      rewrite Z0 in G.
      apply existsb_eqb_In. rewrite <- dict_contains_keys.
      unfold dict_contains. now rewrite G.
Qed.

(** X10: in the summary every speaker is counted with the number of
    messages that are theirs, nobody else has a count, and the counts add
    up to the total number of messages. *)
Theorem summary_counts (messages : list Chat.ChatMessage) :
  exists summary,
    get_conversation_summary messages = Returned summary /\
    (forall s,
       dict_get s (message_count_by_speaker summary) =
       if messages_by s messages =? 0 then None
       else Some (messages_by s messages)) /\
    dict_total (message_count_by_speaker summary) = total_messages summary.
Proof.
  destruct messages as [ | m ms ].
  - eexists. split; [ reflexivity | ]. simpl. split; reflexivity.
  - destruct (count_speakers_fold (m :: ms) []) as (d & E & K & G & T).
    unfold get_conversation_summary. rewrite E.
    eexists. split; [ reflexivity | ]. simpl message_count_by_speaker.
    simpl total_messages. split; [ exact G | ].
    rewrite T. reflexivity.
Qed.

End ConversationSummary.

(** ** [is_likely_chat] *)

Section DetectorFacts.

Import Chat ChatDetector.

Context `{re : Patterns}.

Lemma count_lines_cons (test : string -> bool) (line : string)
  (lines : list string) :
  count_lines test (line :: lines) =
  (if test line then 1 else 0) + count_lines test lines.
Proof.
  unfold count_lines. simpl. destruct (test line); simpl length; lia.
Qed.

(** The indicators are the lines that match a pattern plus half the lines
    that hold a timestamp. *)
Lemma indicators_counted (lines : list string) (acc : Q) :
  (fold_left count_indicators lines acc ==
   acc + inject_Z (count_lines matches_chat_pattern lines)
   + inject_Z (count_lines has_timestamp lines) * (1 # 2))%Q.
Proof.
  revert acc. induction lines as [ | line lines IH ]; intros acc.
  - simpl. unfold count_lines. simpl. ring.
  - simpl fold_left. rewrite IH, !count_lines_cons.
    rewrite !inject_Z_plus. unfold count_indicators.
    destruct (matches_chat_pattern line); destruct (has_timestamp line);
      simpl inject_Z; ring.
Qed.

Lemma confidence_above_threshold (n p t : Z) (x : Q) :
  0 < n ->
  (x == inject_Z p + inject_Z t * (1 # 2))%Q ->
  Qlt_bool (3 # 10) (x / inject_Z n) = (3 * n <? 10 * p + 5 * t).
Proof.
  intros Hn Hx.
  assert (Pn : (0 < inject_Z n)%Q).
  { change 0%Q with (inject_Z 0). now rewrite <- Zlt_Qlt. }
  assert (E : ((3 # 10) < x / inject_Z n)%Q <-> 3 * n < 10 * p + 5 * t).
  { rewrite (Zlt_Qlt (3 * n)).
    rewrite inject_Z_plus, !inject_Z_mult.
    change (inject_Z 3) with 3%Q. change (inject_Z 10) with 10%Q.
    change (inject_Z 5) with 5%Q.
    split; intros H.
    - apply (Qmult_lt_r _ _ (inject_Z n) Pn) in H.
      assert (D : (x / inject_Z n * inject_Z n == x)%Q).
      { field. intros Z0. rewrite Z0 in Pn. now apply (Qlt_irrefl 0). }
      rewrite D, Hx in H. lra.
    - apply Qlt_shift_div_l; [ exact Pn | ]. rewrite Hx.
      lra. }
  destruct (3 * n <? 10 * p + 5 * t) eqn:B.
  - apply Qlt_bool_iff. apply E. now apply Z.ltb_lt.
  - destruct (Qlt_bool (3 # 10) (x / inject_Z n)) eqn:C; [ | reflexivity ].
    apply Qlt_bool_iff in C. apply E in C. apply Z.ltb_ge in B. lia.
Qed.

(** For every text of 3 to 63 non-blank lines and every count of
    indicators it can reach, the test on doubles of the source answers as
    the test on rationals does. *)
Lemma confidence_agrees_with_binary64 :
  forallb binary64_confidence_agrees (seq 3 61) = true.
Proof. vm_compute. reflexivity. Qed.

(** X11: [is_likely_chat] in whole numbers.  With [n] the non-blank lines,
    [p] those that match one of the first three patterns and [t] those
    that hold a timestamp, the text is a chat exactly when [n >= 3] and
    [10 p + 5 t > 3 n]. *)
Theorem is_likely_chat_counts (text : string) :
  let lines := stripped_lines text in
  let n := Z.of_nat (length lines) in
  let p := count_lines matches_chat_pattern lines in
  let t := count_lines has_timestamp lines in
  is_likely_chat text = (3 <=? n) && (3 * n <? 10 * p + 5 * t).
Proof.
  intros lines n p t. unfold is_likely_chat. fold lines. cbv zeta. fold n.
  destruct (n <? 3) eqn:E.
  - apply Z.ltb_lt in E.
    assert (F : (3 <=? n) = false) by (apply Z.leb_gt; lia).
    now rewrite F.
  - apply Z.ltb_ge in E.
    assert (F : (3 <=? n) = true) by (apply Z.leb_le; lia).
    rewrite F. simpl andb.
    apply confidence_above_threshold; [ lia | ].
    rewrite indicators_counted. fold p t. ring.
Qed.

End DetectorFacts.

(** ** [extract_messages] *)

Section ExtractionFacts.

Import Chat ChatDetector.

Context `{re : Patterns}.

Lemma split_on_concat (c : ascii) (s t : string) :
  split_on c (String.append s (String c t)) = split_on c s ++ split_on c t.
Proof.
  induction s as [ | a s IH ]; simpl.
  - now rewrite Ascii.eqb_refl.
  - destruct (Ascii.eqb a c); [ now rewrite IH | ].
    rewrite IH. pose proof (split_on_nonempty c s) as N.
    now destruct (split_on c s).
Qed.

Lemma extract_lines_app (l1 l2 : list string) :
  forall st i,
    extract_lines st i (l1 ++ l2) =
    extract_lines (extract_lines st i l1) (i + Z.of_nat (length l1)) l2.
Proof.
  induction l1 as [ | x l1 IH ]; intros st i; simpl app; simpl extract_lines.
  - simpl length. now rewrite Z.add_0_r.
  - rewrite IH. f_equal. simpl length. lia.
Qed.

Lemma extend_at_numbers (idx : nat) (line : string) (l : list ChatMessage) :
  map line_number (extend_at idx line l) = map line_number l.
Proof.
  revert idx. induction l as [ | m l IH ]; intros [ | idx ]; simpl;
    try reflexivity. now rewrite IH.
Qed.

Lemma extend_at_last (line : string) (ms : list ChatMessage)
  (m : ChatMessage) :
  extend_at (length ms) line (ms ++ [m]) = ms ++ [continued m line].
Proof. induction ms as [ | x ms IH ]; simpl; [ reflexivity | now rewrite IH ]. Qed.

(** What one line can do to the state. *)
Lemma extract_line_cases (st : extraction) (i : Z) (line : string) :
  extract_line st i line = st
  \/ (nonempty (strip line) = true /\
      no_message (strip line) = false /\
      exists m, line_number m = i /\
                extract_line st i line = append_message st m)
  \/ (nonempty (strip line) = true /\
      no_message (strip line) = true /\
      speaker_prefix (strip line) = false /\
      exists idx, current_message st = Some idx /\
                  extract_line st i line =
                  mk_extraction (extend_at idx (strip line) (messages st))
                    (Some idx)).
Proof.
  unfold extract_line, no_message. cbv zeta.
  destruct (nonempty (strip line)) eqn:N; simpl negb; cbv iota;
    [ | now left ].
  destruct (pattern0 (strip line)) as [[sp ms] | ] eqn:P0.
  - simpl negb. cbv iota.
    destruct ((0 <? len sp) && (len sp <? 30)) eqn:L.
    + right. left. split; [ reflexivity | ]. split; [ reflexivity | ].
      unfold try_timed. simpl. eexists. split; [ | reflexivity ].
      reflexivity.
    + unfold try_timed, swap_groups. simpl negb. cbv iota.
      destruct (pattern1 (strip line)) as [[[t1 s1] m1] | ] eqn:P1.
      { right. left. split; [ reflexivity | ]. split; [ reflexivity | ].
        simpl. eexists. split; [ | reflexivity ]. reflexivity. }
      destruct (pattern2 (strip line)) as [[[s2 t2] m2] | ] eqn:P2.
      { right. left. split; [ reflexivity | ]. split; [ reflexivity | ].
        simpl. eexists. split; [ | reflexivity ]. reflexivity. }
      destruct (pattern5 (strip line)) as [[[t5 s5] m5] | ] eqn:P5.
      { right. left. split; [ reflexivity | ]. split; [ reflexivity | ].
        simpl. eexists. split; [ | reflexivity ]. reflexivity. }
      simpl. destruct (current_message st) as [idx | ]; [ | now left ].
      destruct (speaker_prefix (strip line)) eqn:SP; simpl; [ now left | ].
      right. right. repeat split. now exists idx.
  - unfold try_timed, swap_groups. simpl negb. cbv iota.
    destruct (pattern1 (strip line)) as [[[t1 s1] m1] | ] eqn:P1.
    { right. left. split; [ reflexivity | ]. split; [ reflexivity | ].
      simpl. eexists. split; [ | reflexivity ]. reflexivity. }
    destruct (pattern2 (strip line)) as [[[s2 t2] m2] | ] eqn:P2.
    { right. left. split; [ reflexivity | ]. split; [ reflexivity | ].
      simpl. eexists. split; [ | reflexivity ]. reflexivity. }
    destruct (pattern5 (strip line)) as [[[t5 s5] m5] | ] eqn:P5.
    { right. left. split; [ reflexivity | ]. split; [ reflexivity | ].
      simpl. eexists. split; [ | reflexivity ]. reflexivity. }
    simpl. destruct (current_message st) as [idx | ]; [ | now left ].
    destruct (speaker_prefix (strip line)) eqn:SP; simpl; [ now left | ].
    right. right. repeat split. now exists idx.
Qed.

Lemma extend_at_length (idx : nat) (line : string) (l : list ChatMessage) :
  length (extend_at idx line l) = length l.
Proof.
  rewrite <- (length_map line_number (extend_at idx line l)).
  now rewrite extend_at_numbers, length_map.
Qed.

Lemma extract_line_current (st : extraction) (i : Z) (line : string) :
  current_is_last st -> current_is_last (extract_line st i line).
Proof.
  intros I.
  destruct (extract_line_cases st i line)
    as [-> | [(_ & _ & m & _ & ->) | (_ & _ & _ & idx & C & ->)]].
  - exact I.
  - unfold current_is_last, append_message. simpl.
    destruct (messages st ++ [m]) eqn:E.
    + now destruct (messages st).
    + rewrite <- E, length_app. simpl. f_equal. lia.
  - unfold current_is_last in *. simpl. rewrite C in I.
    rewrite extend_at_length.
    destruct (messages st) as [ | x l ]; [ discriminate | ].
    destruct idx; simpl; exact I.
Qed.

Lemma extract_lines_current (lines : list string) :
  forall st i, current_is_last st -> current_is_last (extract_lines st i lines).
Proof.
  induction lines as [ | line lines IH ]; intros st i I; simpl;
    [ exact I | ]. apply IH. now apply extract_line_current.
Qed.

(** The line numbers that a run of the loop adds: increasing, and each the
    position of a non-blank line that produced a message. *)
Lemma extract_lines_numbers (lines : list string) :
  forall st i,
  exists added,
    map line_number (messages (extract_lines st i lines)) =
      map line_number (messages st) ++ added /\
    StronglySorted Z.lt added /\
    (forall x, In x added ->
       i <= x /\
       exists line, nth_error lines (Z.to_nat (x - i)) = Some line /\
                    nonblank line = true /\
                    no_message (strip line) = false) /\
    Z.of_nat (length added) <= count_lines nonblank lines.
Proof.
  induction lines as [ | line lines IH ]; intros st i.
  - exists []. simpl. rewrite app_nil_r. repeat split.
    + constructor.
    + destruct H.
    + destruct H.
    + unfold count_lines. simpl. lia.
  - simpl extract_lines.
    destruct (IH (extract_line st i line) (i + 1)) as (S1 & E1 & So1 & In1 & Len1).
    rewrite count_lines_cons.
    assert (Step : (map line_number (messages (extract_line st i line)) =
                    map line_number (messages st)) \/
                   (nonblank line = true /\ no_message (strip line) = false /\
                    map line_number (messages (extract_line st i line)) =
                    map line_number (messages st) ++ [i])).
    { destruct (extract_line_cases st i line)
        as [-> | [(N & NM & m & Hm & ->) | (_ & _ & _ & idx & _ & ->)]].
      - now left.
      - right. split; [ exact N | ]. split; [ exact NM | ].
        unfold append_message. simpl. now rewrite map_app, <- Hm.
      - left. simpl. apply extend_at_numbers. }
    assert (Shift : forall x, In x S1 ->
              i <= x /\
              exists l, nth_error (line :: lines) (Z.to_nat (x - i)) = Some l /\
                        nonblank l = true /\ no_message (strip l) = false).
    { intros x Hx. destruct (In1 x Hx) as (G & l & Hl & Nl & Ml).
      split; [ lia | ]. exists l. split; [ | now split ].
      replace (Z.to_nat (x - i)) with (S (Z.to_nat (x - (i + 1)))) by lia.
      exact Hl. }
    destruct Step as [E0 | (N & NM & E0)].
    + exists S1. rewrite E1, E0. split; [ reflexivity | ].
      split; [ exact So1 | ]. split; [ exact Shift | ].
      destruct (nonblank line); lia.
    + exists (i :: S1). rewrite E1, E0, <- app_assoc. split; [ reflexivity | ].
      split; [ | split ].
      * constructor; [ exact So1 | ].
        apply Forall_forall. intros x Hx. destruct (In1 x Hx). lia.
      * intros x [<- | Hx]; [ | now apply Shift ].
        split; [ lia | ]. exists line. rewrite Z.sub_diag. simpl.
        now repeat split.
      * rewrite N. simpl length. lia.
Qed.

(** X12: the messages that [extract_messages] returns are in the order of
    the text: their line numbers increase strictly, each one is the
    position of a non-blank line to which one of the four patterns applied,
    and there are no more messages than non-blank lines. *)
Theorem extract_messages_in_text_order (text : string) :
  let lines := split_on LF text in
  let found := extract_messages text in
  StronglySorted Z.lt (map line_number found) /\
  (forall m, In m found ->
     0 <= line_number m /\
     exists line,
       nth_error lines (Z.to_nat (line_number m)) = Some line /\
       nonblank line = true /\ no_message (strip line) = false) /\
  Z.of_nat (length found) <= count_lines nonblank lines.
Proof.
  intros lines found.
  destruct (extract_lines_numbers lines (mk_extraction [] None) 0)
    as (added & E & So & Hin & Len).
  assert (E' : map line_number found = added) by exact E.
  clear E. rename E' into E.
  rewrite E. split; [ exact So | ]. split.
  - intros m Hm.
    assert (Hx : In (line_number m) added).
    { rewrite <- E. now apply in_map. }
    destruct (Hin _ Hx) as (G & line & Hl & Nl & Ml).
    split; [ exact G | ]. exists line. rewrite Z.sub_0_r in Hl. now split.
  - rewrite <- (length_map line_number found), E. exact Len.
Qed.

Lemma extract_line_continuation (st : extraction) (i : Z) (line : string)
  (idx : nat) :
  nonblank line = true ->
  no_message (strip line) = true ->
  speaker_prefix (strip line) = false ->
  current_message st = Some idx ->
  extract_line st i line =
  mk_extraction (extend_at idx (strip line) (messages st)) (Some idx).
Proof.
  intros Hnb Hnm Hsp C. unfold extract_line. cbv zeta.
  unfold nonblank in Hnb. rewrite Hnb. simpl negb. cbv iota.
  unfold no_message in Hnm.
  destruct (pattern1 (strip line)) as [[[t1 s1] m1] | ];
    [ now rewrite andb_false_r in Hnm | ].
  destruct (pattern2 (strip line)) as [[[s2 t2] m2] | ];
    [ now rewrite andb_false_r in Hnm | ].
  destruct (pattern5 (strip line)) as [[[t5 s5] m5] | ];
    [ now rewrite andb_false_r in Hnm | ].
  rewrite !andb_true_r in Hnm.
  destruct (pattern0 (strip line)) as [[sp ms] | ].
  - apply negb_true_iff in Hnm. rewrite Hnm.
    unfold try_timed, swap_groups. simpl. now rewrite C, Hsp.
  - unfold try_timed, swap_groups. simpl. now rewrite C, Hsp.
Qed.

(** X13: the continuation rule.  When a text has produced messages, one
    more line that is not blank, to which no pattern applies and which does
    not begin like a speaker, adds no message: its stripped text goes to
    the end of the last message after a line feed, and the messages before
    it stay as they were. *)
Theorem extract_messages_continuation
  (text line : string) (earlier : list Chat.ChatMessage)
  (last_message : Chat.ChatMessage) :
  occurs LF line = false ->
  nonblank line = true ->
  no_message (strip line) = true ->
  speaker_prefix (strip line) = false ->
  extract_messages text = earlier ++ [last_message] ->
  extract_messages (String.append text (String LF line)) =
  earlier ++ [continued last_message (strip line)].
Proof.
  intros Hlf Hnb Hnm Hsp Hprev. unfold extract_messages in *. cbv zeta in *.
  rewrite split_on_concat, (split_on_absent LF line Hlf).
  rewrite extract_lines_app. simpl extract_lines.
  set (st := extract_lines (mk_extraction [] None) 0 (split_on LF text)) in *.
  assert (I : current_is_last st).
  { apply extract_lines_current. reflexivity. }
  unfold current_is_last in I. rewrite Hprev in I.
  destruct (earlier ++ [last_message]) eqn:F; [ now destruct earlier | ].
  rewrite <- F in *.
  rewrite (extract_line_continuation st _ line _ Hnb Hnm Hsp I).
  simpl messages. rewrite Hprev, length_app. simpl length.
  replace (length earlier + 1 - 1)%nat with (length earlier) by lia.
  apply extend_at_last.
Qed.

End ExtractionFacts.

(** ** [process_text] *)

Section ProcessText.

Import Chat ChatDetector.

Context `{re : Patterns}.

(** X14: [process_text] never raises.  It answers [False] with the text
    as it was given unless the text is a likely chat in which at least one
    message is found; then it answers [True] with the formatted
    conversation under two lines that give the number of messages and the
    participants in the order of their first message. *)
Theorem process_text_result (text : string) :
  let found := extract_messages text in
  process_text text =
  Returned
    (if is_likely_chat text && negb (length found =? 0)%nat
     then (true,
           String.append (summary_text found)
             (format_conversation found true))
     else (false, text)).
Proof.
  intros found. unfold process_text. cbv zeta. fold found.
  destruct (is_likely_chat text); [ | reflexivity ].
  destruct found as [ | m ms ] eqn:F; [ reflexivity | ].
  destruct (count_speakers_fold (m :: ms) []) as (d & E & K & _ & _).
  unfold get_conversation_summary. rewrite E.
  cbn [total_messages participants]. rewrite Nat2Z.id.
  simpl in K. rewrite K. reflexivity.
Qed.

End ProcessText.

(** ** OCRExtractor *)

Section OcrFacts.

Import Chat ChatDetector Cli.

Context `{cv : Cv2} `{tess : Tesseract} `{world : Outside} `{re : Patterns}.

Lemma and_then_returned {A B} (m : App A) (f : A -> App B) (a : A) :
  snd m = Returned a -> and_then m f = (fst m ++ fst (f a), snd (f a)).
Proof. unfold and_then. now intros ->. Qed.

Lemma and_then_thrown {A B} (m : App A) (f : A -> App B) (e : exception) :
  snd m = Thrown e -> and_then m f = (fst m, Thrown e).
Proof. unfold and_then. now intros ->. Qed.

Lemma item_defined {A} (l : list A) (i : nat) :
  (i < length l)%nat -> exists a, nth_error l i = Some a /\ item l i = Returned a.
Proof.
  intros H. unfold item. destruct (nth_error l i) as [a | ] eqn:E.
  - now exists a.
  - apply nth_error_None in E. lia.
Qed.

(** On rectangular data one step of the loop appends what [kept_block]
    names, prints nothing and raises nothing. *)
Lemma text_block_at_kept (data : TessData) (acc : list TextBlock) (i : nat) :
  rectangular data -> (i < length (data_text data))%nat ->
  text_block_at data acc i = ([], Returned (acc ++ kept_block data i)).
Proof.
  intros (R1 & R2 & R3 & R4 & R5) Hi.
  destruct (item_defined (data_text data) i Hi) as (raw & N0 & I0).
  destruct (item_defined (data_conf data) i ltac:(lia)) as (c & N1 & I1).
  destruct (item_defined (data_left data) i ltac:(lia)) as (x & N2 & I2).
  destruct (item_defined (data_top data) i ltac:(lia)) as (y & N3 & I3).
  destruct (item_defined (data_width data) i ltac:(lia)) as (w & N4 & I4).
  destruct (item_defined (data_height data) i ltac:(lia)) as (h & N5 & I5).
  unfold text_block_at, kept_block. rewrite N0, N1, N2, N3, N4, N5.
  unfold attempt, and_then, done. rewrite I0. simpl.
  destruct (nonempty (strip raw)); simpl; [ | now rewrite app_nil_r ].
  rewrite I1. simpl.
  destruct (Qlt_bool 0 c); simpl; [ | now rewrite app_nil_r ].
  rewrite I2. simpl. rewrite I3. simpl. rewrite I4. simpl. rewrite I5.
  reflexivity.
Qed.

Lemma each_text_block (data : TessData) (idxs : list nat) :
  rectangular data ->
  Forall (fun i => (i < length (data_text data))%nat) idxs ->
  forall acc,
    each (text_block_at data) acc idxs =
    ([], Returned (acc ++ flat_map (kept_block data) idxs)).
Proof.
  intros R. induction 1 as [ | i idxs Hi _ IH ]; intros acc; simpl.
  - unfold done. now rewrite app_nil_r.
  - rewrite (text_block_at_kept data acc i R Hi).
    unfold and_then. simpl. rewrite IH. now rewrite <- app_assoc.
Qed.

Lemma kept_block_valid (data : TessData) (i : nat) :
  Forall (fun b => nonempty (block_text b) = true /\
                   (0 < block_confidence b)%Q) (kept_block data i).
Proof.
  unfold kept_block.
  destruct (nth_error (data_text data) i) as [raw | ]; [ | constructor ].
  destruct (nth_error (data_conf data) i) as [c | ]; [ | constructor ].
  destruct (nth_error (data_left data) i); [ | constructor ].
  destruct (nth_error (data_top data) i); [ | constructor ].
  destruct (nth_error (data_width data) i); [ | constructor ].
  destruct (nth_error (data_height data) i); [ | constructor ].
  destruct (nonempty (strip raw)) eqn:N; simpl; [ | constructor ].
  destruct (Qlt_bool 0 c) eqn:C; constructor; [ | constructor ].
  simpl. split; [ exact N | now apply Qlt_bool_iff ].
Qed.

(** X15: when Tesseract's lists all have the same length,
    [extract_text_with_boxes] raises no [IndexError]; it returns, in the
    order of the data, one block for every entry whose stripped text is not
    empty and whose confidence is positive, so every block it returns has a
    non-empty text and a positive confidence. *)
Theorem extract_text_with_boxes_keeps_confident_words
  (self_lang : string) (image processed : ndarray) (preprocess : bool)
  (data : TessData) :
  (if preprocess then preprocess_image image else done image)
    = ([], Returned processed) ->
  image_to_data processed self_lang = Returned data ->
  rectangular data ->
  exists text_blocks,
    extract_text_with_boxes self_lang image preprocess
      = ([], Returned text_blocks) /\
    text_blocks =
      flat_map (kept_block data) (seq 0 (length (data_text data))) /\
    Forall (fun b => nonempty (block_text b) = true /\
                     (0 < block_confidence b)%Q) text_blocks.
Proof.
  intros Hp Hd R. eexists. split; [ | split; [ reflexivity | ] ].
  - unfold extract_text_with_boxes. rewrite Hp.
    unfold and_then at 1. simpl. unfold attempt. rewrite Hd.
    unfold and_then. simpl.
    rewrite (each_text_block data _ R); [ reflexivity | ].
    apply Forall_forall. intros i Hi. apply in_seq in Hi. lia.
  - apply Forall_flat_map. apply Forall_forall. intros i _.
    apply kept_block_valid.
Qed.

End OcrFacts.

(** ** [main] *)

Section MainFacts.

Import Chat ChatDetector Cli.

Context `{cv : Cv2} `{tess : Tesseract} `{world : Outside} `{re : Patterns}.

Lemma writes_app (a b : list action) : writes (a ++ b) = writes a ++ writes b.
Proof. unfold writes. apply filter_app. Qed.

Lemma writes_of_stitcher {A} (m : M A) : writes (fst (of_stitcher m)) = [].
Proof.
  unfold of_stitcher. simpl. induction (fst m) as [ | e l IH ]; simpl;
    [ reflexivity | exact IH ].
Qed.

Lemma writes_report (e : exception) : writes (report e) = [].
Proof. destruct e as [ | [ | | | ] | | | ]; reflexivity. Qed.

Lemma and_then_inv {A B} (m : App A) (f : A -> App B) (b : B) :
  snd (and_then m f) = Returned b ->
  exists a, snd m = Returned a /\ snd (f a) = Returned b /\
            fst (and_then m f) = fst m ++ fst (f a).
Proof.
  unfold and_then. destruct (snd m) as [a | e]; simpl; intros H.
  - now exists a.
  - discriminate.
Qed.

Lemma preprocess_image_silent (image : ndarray) :
  fst (preprocess_image image) = [].
Proof.
  unfold preprocess_image, and_then, attempt, done.
  destruct (is_3d image); simpl.
  - destruct (cvtColor_BGR2GRAY image) as [g | e]; simpl; [ | reflexivity ].
    destruct (GaussianBlur g); simpl; [ | reflexivity ].
    destruct (adaptiveThreshold a); reflexivity.
  - destruct (GaussianBlur image); simpl; [ | reflexivity ].
    destruct (adaptiveThreshold a); reflexivity.
Qed.

Lemma extract_text_silent (l : string) (image : ndarray) (p : bool) :
  fst (extract_text l image p) = [].
Proof.
  unfold extract_text. destruct p.
  - pose proof (preprocess_image_silent image) as S.
    unfold and_then. destruct (preprocess_image image) as [lg [pr | e]];
      simpl in *; subst lg; [ | reflexivity ].
    unfold attempt. simpl. destruct (image_to_string pr l _); reflexivity.
  - unfold and_then, done, attempt. simpl.
    destruct (image_to_string image l _); reflexivity.
Qed.

(** What [extract_text] returns has no white space left at its ends to
    strip: it is the stripped answer of Tesseract. *)
Lemma extract_text_stripped (l : string) (image : ndarray) (p : bool)
  (text : string) :
  snd (extract_text l image p) = Returned text ->
  exists raw, text = strip raw.
Proof.
  unfold extract_text. intros H.
  apply and_then_inv in H. destruct H as (pr & _ & H & _).
  apply and_then_inv in H. destruct H as (raw & _ & H & _).
  exists raw. now injection H.
Qed.

(** X16: nothing is written before the stitch is complete.  When an input
    fails the validation, or when the stitcher raises, [main] exits with
    status 1 and has called neither [cv2.imwrite] nor the writing of the
    text file. *)
Theorem main_writes_nothing_when_stitching_fails (args : Cli.Args) :
  (exists e, validate_images file_system (images args) = Thrown e) \/
  (exists image_paths e,
     validate_images file_system (images args) = Returned image_paths /\
     snd (stitch_multiple_images
            (mk_ImageStitcher (overlap_threshold_arg args)) image_paths)
       = Raise e) ->
  snd (main args) = 1 /\ writes (fst (main args)) = [].
Proof.
  intros [(e & V) | (paths & e & V & S)]; unfold main, main_body.
  - rewrite (and_then_thrown (attempt _) _ e V). simpl.
    split; [ reflexivity | ]. apply writes_report.
  - rewrite (and_then_returned (attempt _) _ paths V).
    cbn [fst snd attempt app].
    unfold and_then at 1. cbn [fst snd say app].
    unfold and_then at 1. cbn [fst snd say app].
    cbv zeta.
    assert (T : snd (of_stitcher
                       (stitch_multiple_images
                          (mk_ImageStitcher (overlap_threshold_arg args))
                          paths)) = Thrown (Raised e)).
    { unfold of_stitcher. simpl. now rewrite S. }
    rewrite (and_then_thrown _ _ _ T). cbn [fst snd].
    split; [ reflexivity | ].
    change (writes (Stdout MsgBanner :: Stdout MsgRule
                    :: (Stdout (MsgInputImages (length paths))
                        :: Stdout MsgStepStitching
                        :: fst (of_stitcher
                                  (stitch_multiple_images
                                     (mk_ImageStitcher
                                        (overlap_threshold_arg args)) paths)))
                    ++ report (Raised e))
            = []).
    change (writes ((Stdout (MsgInputImages (length paths))
                     :: Stdout MsgStepStitching
                     :: fst (of_stitcher
                               (stitch_multiple_images
                                  (mk_ImageStitcher
                                     (overlap_threshold_arg args)) paths)))
                    ++ report (Raised e))
            = []).
    rewrite writes_app, writes_report, app_nil_r.
    apply (writes_of_stitcher
             (stitch_multiple_images
                (mk_ImageStitcher (overlap_threshold_arg args)) paths)).
Qed.

Lemma and_then_eval {A B} (m : App A) (f : A -> App B) (a : A)
  (l1 l2 : list action) (r : tried B) :
  m = (l1, Returned a) -> f a = (l2, r) -> and_then m f = (l1 ++ l2, r).
Proof. intros -> E. unfold and_then. simpl. now rewrite E. Qed.

Lemma with_log {A} (m : App A) (a : A) :
  snd m = Returned a -> m = (fst m, Returned a).
Proof. destruct m as [l r]. simpl. now intros ->. Qed.

Ltac eval_say :=
  eapply and_then_eval; [ reflexivity | cbv beta ].

(** X17: when the OCR finds no text, [main] exits with status 1 without
    writing a text file, and yet, unless [--text-only] was given, it has
    already written the stitched image. *)
Theorem main_without_text
  (args : Cli.Args) (image_paths : list string) (stitched : ndarray)
  (written : bool) (text : string) :
  validate_images file_system (images args) = Returned image_paths ->
  snd (stitch_multiple_images
         (mk_ImageStitcher (overlap_threshold_arg args)) image_paths)
    = Ok stitched ->
  imwrite (output args) stitched = Returned written ->
  snd (extract_text (lang args) stitched (negb (no_preprocess args)))
    = Returned text ->
  nonempty (strip text) = false ->
  snd (main args) = 1 /\
  writes (fst (main args)) =
    if text_only args then [] else [ImwriteCall (output args) stitched].
Proof.
  intros V S W T N.
  assert (S' : snd (of_stitcher
                      (stitch_multiple_images
                         (mk_ImageStitcher (overlap_threshold_arg args))
                         image_paths)) = Returned stitched).
  { unfold of_stitcher. simpl. now rewrite S. }
  assert (E : exists log,
             main_body args = (log, Returned 1) /\
             writes log =
               if text_only args then []
               else [ImwriteCall (output args) stitched]).
  { eexists. split.
    - unfold main_body.
      eapply and_then_eval; [ unfold attempt; rewrite V; reflexivity | ].
      cbv beta. eval_say. eval_say. cbv zeta.
      eapply and_then_eval; [ apply with_log; exact S' | cbv beta ].
      eapply and_then_eval.
      { instantiate (1 := tt).
        instantiate (1 := if text_only args then []
                          else [ImwriteCall (output args) stitched;
                                Stdout (MsgSavedStitchedImage (output args));
                                Stdout (MsgStitchedImageSaved (output args))]).
        destruct (text_only args); simpl; [ reflexivity | ].
        unfold save_image, and_then, say. simpl. rewrite W. reflexivity. }
      cbv beta. eval_say.
      eapply and_then_eval; [ apply with_log; exact T | cbv beta ].
      rewrite N. simpl negb. cbv iota.
      eval_say. reflexivity.
    - rewrite extract_text_silent.
      rewrite !writes_app, writes_of_stitcher.
      destruct (text_only args); reflexivity. }
  destruct E as (log & E & Wl). unfold main. rewrite E. simpl.
  split; [ reflexivity | exact Wl ].
Qed.

Lemma save_image_writes (image : ndarray) (path : string) (u : unit) :
  snd (save_image image path) = Returned u ->
  writes (fst (save_image image path)) = [ImwriteCall path image].
Proof.
  unfold save_image, and_then, say. simpl.
  destruct (imwrite path image); simpl; [ reflexivity | discriminate ].
Qed.

Lemma save_text_writes (text path : string) (u : unit) :
  snd (save_text text path) = Returned u ->
  writes (fst (save_text text path)) = [WriteCall path text].
Proof.
  unfold save_text, and_then, say. simpl.
  destruct (write_file path text); simpl; [ reflexivity | discriminate ].
Qed.

Ltac invert_stage B a Ha :=
  apply and_then_inv in B;
  let L := fresh "L" in
  destruct B as (a & Ha & B & L); rewrite L; clear L;
  cbv beta in B |- *.

Ltac invert_say B :=
  let a := fresh "u" in
  let Ha := fresh "Hu" in
  invert_stage B a Ha; clear a Ha.

(** X18: exit status 0.  When [main] exits with status 0, every input was
    a regular file, the stitcher returned an image, the OCR returned a text
    that is not blank, and the writes were, in this order, the stitched
    image (unless [--text-only] was given) and then the text file, which
    holds the OCR text, or the formatted conversation when [--chat] was
    given and a chat was detected. *)
Theorem main_success (args : Cli.Args) :
  snd (main args) = 0 ->
  exists stitched text,
    validate_images file_system (images args) = Returned (images args) /\
    snd (stitch_multiple_images
           (mk_ImageStitcher (overlap_threshold_arg args)) (images args))
      = Ok stitched /\
    snd (extract_text (lang args) stitched (negb (no_preprocess args)))
      = Returned text /\
    nonempty text = true /\
    writes (fst (main args)) =
      (if text_only args then [] else [ImwriteCall (output args) stitched])
      ++ [WriteCall (text_output args) (final_text_of args text)].
Proof.
  unfold main. destruct (snd (main_body args)) as [status | e] eqn:B;
    simpl; [ intros -> | discriminate ].
  unfold main_body in B |- *.
  invert_stage B paths Hvalid. unfold attempt in Hvalid. simpl in Hvalid.
  assert (P : paths = images args).
  { now apply validate_images_loop_returned in Hvalid. }
  subst paths.
  invert_say B. invert_say B. cbv zeta in B |- *.
  invert_stage B stitched Hstitch.
  invert_stage B u1 Hsave.
  invert_say B.
  invert_stage B text Htext.
  destruct (extract_text_stripped _ _ _ _ Htext) as (raw & Hraw).
  destruct (nonempty (strip text)) eqn:N; simpl negb in B |- *;
    cbv iota in B |- *.
  2:{ exfalso. apply and_then_inv in B. destruct B as (_ & _ & B & _).
      discriminate B. }
  invert_say B. invert_say B.
  invert_stage B chat_result Hchat. cbv zeta in B |- *.
  invert_stage B u2 Hwrite.
  exists stitched, text. split; [ exact Hvalid | ]. split.
  { unfold of_stitcher in Hstitch. simpl in Hstitch.
    destruct (snd (stitch_multiple_images _ _)); [ | discriminate ].
    now injection Hstitch as ->. }
  split; [ exact Htext | ]. split.
  { destruct text; [ discriminate N | reflexivity ]. }
  assert (F : snd chat_result = final_text_of args text).
  { unfold final_text_of. destruct (chat args);
      [ | simpl in Hchat; now injection Hchat as <- ].
    apply and_then_inv in Hchat. destruct Hchat as (pr & Hp & Hc & _).
    unfold attempt in Hp. simpl in Hp. rewrite Hp.
    destruct pr as [b f]. simpl in Hc.
    destruct b; apply and_then_inv in Hc; destruct Hc as (_ & _ & Hc & _);
      injection Hc as <-; reflexivity. }
  rewrite !writes_app, writes_of_stitcher, extract_text_silent.
  rewrite (save_text_writes _ _ u2 Hwrite), F.
  match goal with
  | |- context [writes (fst (if negb (text_only args) then ?a else ?b))] =>
      set (saving := if negb (text_only args) then a else b) in *
  end.
  assert (W1 : writes (fst saving)
               = if text_only args then []
                 else [ImwriteCall (output args) stitched]).
  { subst saving. destruct (text_only args); simpl in Hsave |- *;
      [ reflexivity | ].
    apply and_then_inv in Hsave. destruct Hsave as (u & Hs & _ & L).
    rewrite L, writes_app, (save_image_writes _ _ u Hs). reflexivity. }
  rewrite W1. clear W1.
  match goal with
  | |- context [writes (fst (if chat args then ?a else ?b))] =>
      set (detecting := if chat args then a else b) in *
  end.
  assert (W2 : writes (fst detecting) = []).
  { subst detecting. destruct (chat args); [ | reflexivity ].
    unfold and_then, attempt, say, done. simpl.
    destruct (process_text text) as [[b f] | e]; simpl;
      [ destruct b; reflexivity | reflexivity ]. }
  rewrite W2. clear W2.
  match goal with
  | |- context [writes (fst (and_then ?m ?f))] =>
      replace (writes (fst (and_then m f))) with (@nil action)
        by (unfold and_then, say, done; simpl;
            destruct (chat args); reflexivity)
  end.
  cbn [fst attempt say writes filter is_write app].
  rewrite ?app_nil_r. reflexivity.
Qed.

End MainFacts.

(** ** The further properties at concrete inputs *)

Lemma find_overlap_offset_in_range_witness :
  outcome (find_overlap (cv := Stub.cv_match) (mk_ImageStitcher (4 # 5))
             (Stub.bgr_image 20 4) (Stub.bgr_image 20 6) (Finite (1 # 2)))
    = Ok (Some 12) /\
  0 <= 12 < height (Stub.bgr_image 20 4).
Proof.
  assert (H : outcome (find_overlap (cv := Stub.cv_match)
                         (mk_ImageStitcher (4 # 5))
                         (Stub.bgr_image 20 4) (Stub.bgr_image 20 6) (Finite (1 # 2)))
              = Ok (Some 12)) by (vm_compute; reflexivity).
  split; [ exact H | ].
  exact (proj1 (proj2 (proj2 (proj2
           (find_overlap_offset_in_range (cv := Stub.cv_match)
              (mk_ImageStitcher (4 # 5))
              (Stub.bgr_image 20 4) (Stub.bgr_image 20 6) (Finite (1 # 2)) 12 H))))).
Defined.

Lemma stitch_two_images_rows_witness :
  raster (Stub.bgr_image 20 6) /\ raster (Stub.bgr_image 20 4) /\
  exists r,
    outcome (stitch_two_images (cv := Stub.cv_match)
               (mk_ImageStitcher (4 # 5))
               (Stub.bgr_image 20 6) (Stub.bgr_image 20 4)) = Ok r /\
    firstn 12 (rows r) = firstn 12 (rows (Stub.bgr_image 20 6)).
Proof.
  assert (R1 : raster (Stub.bgr_image 20 6)) by raster_by_computation.
  assert (R2 : raster (Stub.bgr_image 20 4)) by raster_by_computation.
  split; [ exact R1 | ]. split; [ exact R2 | ].
  destruct (stitch_two_images_rows (cv := Stub.cv_match)
              (mk_ImageStitcher (4 # 5))
              (Stub.bgr_image 20 6) (Stub.bgr_image 20 4) R1 R2 eq_refl)
    as (o & r & Ho & Hr & _ & K & _).
  exists r. split; [ exact Hr | ].
  vm_compute in Ho. injection Ho as <-.
  apply K. vm_compute. discriminate.
Defined.

Lemma composite_width_is_widest_input_witness :
  readable (cv := Stub.cv_match) "shot1.png" = true /\
  exists final,
    outcome (stitch_multiple_images (cv := Stub.cv_match)
               (mk_ImageStitcher (4 # 5))
               ["shot1.png"; "gone.png"; "shot2.png"]%string) = Ok final /\
    width final = 6.
Proof.
  split; [ reflexivity | ].
  destruct (composite_width_is_widest_input (cv := Stub.cv_match)
              (mk_ImageStitcher (4 # 5)) "shot1.png"
              ["gone.png"; "shot2.png"]%string eq_refl)
    as (final & Hf & W & _).
  exists final. split; [ exact Hf | exact W ].
Defined.

Lemma stitch_only_first_readable_witness :
  stitch_multiple_images (cv := Stub.cv_match) (mk_ImageStitcher (4 # 5))
    ["shot1.png"; "gone.png"; "lost.png"]%string
  = ([StitchingCountMsg 3; LoadedMsg 1 "shot1.png";
      WarningSkipMsg "gone.png"; WarningSkipMsg "lost.png";
      FinalSizeMsg 4 20],
     Ok (Stub.bgr_image 20 4)).
Proof.
  apply (stitch_only_first_readable (cv := Stub.cv_match)
           (mk_ImageStitcher (4 # 5)) "shot1.png"
           ["gone.png"; "lost.png"]%string (Stub.bgr_image 20 4)).
  - reflexivity.
  - repeat constructor.
Defined.

Lemma validate_images_first_offender_witness :
  validate_images (file_system (Outside := StubWorld.outside))
    ["shot1.png"; "shots"; "gone.png"]%string
  = Thrown (Raised (ValueError "Not a file: shots")).
Proof.
  apply (validate_images_first_offender
           (file_system (Outside := StubWorld.outside))
           ["shot1.png"]%string ["gone.png"]%string "shots");
    reflexivity.
Defined.

Lemma format_conversation_lines_witness :
  length
    (split_on LF
       (Chat.format_conversation
          [Chat.mk_ChatMessage "Alice"
             (String.append "hello" (String LF "how are you"))
             (Some "2:30 PM"%string) 0;
           Chat.mk_ChatMessage "Bob" "fine" None 2] true))
  = 14%nat.
Proof.
  rewrite (format_conversation_lines
             [Chat.mk_ChatMessage "Alice"
                (String.append "hello" (String LF "how are you"))
                (Some "2:30 PM"%string) 0;
              Chat.mk_ChatMessage "Bob" "fine" None 2] true).
  - reflexivity.
  - discriminate.
  - repeat constructor; simpl; try reflexivity;
      intros t [= <-]; reflexivity.
Defined.

Lemma extract_messages_continuation_witness :
  ChatDetector.extract_messages (re := StubPatterns.patterns)
    (String.append "Alice: hello" (String LF "  how are you "))
  = [] ++ [ChatDetector.continued
             (Chat.mk_ChatMessage "Alice" "hello" None 0) "how are you"].
Proof.
  apply (extract_messages_continuation (re := StubPatterns.patterns)
           "Alice: hello" "  how are you " []
           (Chat.mk_ChatMessage "Alice" "hello" None 0));
    reflexivity.
Defined.

Lemma extract_text_with_boxes_witness :
  exists text_blocks,
    Cli.extract_text_with_boxes (cv := Stub.cv_match)
      (tess := StubWorld.tesseract) "eng" (Stub.bgr_image 20 4) false
    = ([], Returned text_blocks) /\
    map Cli.block_text text_blocks = ["Alice:"%string].
Proof.
  destruct (extract_text_with_boxes_keeps_confident_words
              (cv := Stub.cv_match) (tess := StubWorld.tesseract)
              "eng" (Stub.bgr_image 20 4) (Stub.bgr_image 20 4) false
              StubWorld.words eq_refl eq_refl)
    as (blocks & E & -> & _).
  - repeat split.
  - eexists. split; [ exact E | reflexivity ].
Defined.

Lemma main_writes_nothing_witness :
  snd (Cli.main (cv := Stub.cv_match) (tess := StubWorld.tesseract)
         (world := StubWorld.outside) (re := StubPatterns.patterns)
         (StubWorld.args ["shot1.png"; "gone.png"]%string true false)) = 1 /\
  Cli.writes
    (fst (Cli.main (cv := Stub.cv_match) (tess := StubWorld.tesseract)
            (world := StubWorld.outside) (re := StubPatterns.patterns)
            (StubWorld.args ["shot1.png"; "gone.png"]%string true false)))
  = [].
Proof.
  apply (main_writes_nothing_when_stitching_fails
           (cv := Stub.cv_match) (tess := StubWorld.tesseract)
           (world := StubWorld.outside) (re := StubPatterns.patterns)).
  left. eexists. reflexivity.
Defined.

Lemma main_without_text_witness :
  snd (Cli.main (cv := Stub.cv_match) (tess := StubWorld.tesseract)
         (world := StubWorld.outside) (re := StubPatterns.patterns)
         (StubWorld.args ["shot1.png"]%string true false)) = 1 /\
  Cli.writes
    (fst (Cli.main (cv := Stub.cv_match) (tess := StubWorld.tesseract)
            (world := StubWorld.outside) (re := StubPatterns.patterns)
            (StubWorld.args ["shot1.png"]%string true false)))
  = [Cli.ImwriteCall "stitched_output.png" (Stub.bgr_image 20 4)].
Proof.
  apply (main_without_text
           (cv := Stub.cv_match) (tess := StubWorld.tesseract)
           (world := StubWorld.outside) (re := StubPatterns.patterns)
           (StubWorld.args ["shot1.png"]%string true false)
           ["shot1.png"]%string (Stub.bgr_image 20 4) true
           EmptyString); reflexivity.
Defined.

Lemma main_success_witness :
  snd (Cli.main (cv := Stub.cv_match) (tess := StubWorld.tesseract)
         (world := StubWorld.outside) (re := StubPatterns.patterns)
         (StubWorld.args ["shot1.png"; "shot2.png"]%string true true)) = 0 /\
  exists text,
    Cli.writes
      (fst (Cli.main (cv := Stub.cv_match) (tess := StubWorld.tesseract)
              (world := StubWorld.outside) (re := StubPatterns.patterns)
              (StubWorld.args ["shot1.png"; "shot2.png"]%string true true)))
    = [Cli.WriteCall "extracted_text.txt" text].
Proof.
  assert (H : snd (Cli.main (cv := Stub.cv_match)
                     (tess := StubWorld.tesseract)
                     (world := StubWorld.outside)
                     (re := StubPatterns.patterns)
                     (StubWorld.args ["shot1.png"; "shot2.png"]%string
                        true true)) = 0)
    by (vm_compute; reflexivity).
  split; [ exact H | ].
  destruct (main_success (cv := Stub.cv_match)
              (tess := StubWorld.tesseract) (world := StubWorld.outside)
              (re := StubPatterns.patterns) _ H)
    as (stitched & text & _ & _ & _ & _ & W).
  eexists. exact W.
Defined.

(** ** [extract_structured_text] *)

Section StructuredFacts.

Import ChatDetector Cli Structured.

Context `{cv : Cv2} `{tess : Tesseract}.

Lemma update_at_last {A} (f : A -> A) (l : list A) (x : A) :
  update_at (length l) f (l ++ [x]) = l ++ [f x].
Proof. induction l as [ | y l IH ]; simpl; [ reflexivity | now rewrite IH ]. Qed.

Lemma nth_error_last {A} (l : list A) (x : A) :
  nth_error (l ++ [x]) (length l) = Some x.
Proof. induction l as [ | y l IH ]; simpl; [ reflexivity | exact IH ]. Qed.

Lemma paragraphs_at_last (bs : list Block) (blk : Block) :
  paragraphs_at (bs ++ [blk]) (length bs) = paragraphs blk.
Proof. unfold paragraphs_at. now rewrite nth_error_last. Qed.

Lemma lines_at_last (bs : list Block) (n : Z) (ps : list Paragraph)
  (par : Paragraph) :
  lines_at (bs ++ [mk_Block n (ps ++ [par])]) (length bs) (length ps)
  = lines par.
Proof.
  unfold lines_at. rewrite paragraphs_at_last. simpl.
  now rewrite nth_error_last.
Qed.

(** The words of the three shapes. *)
Lemma all_words_last (bs : list Block) (blk : Block) :
  all_words (bs ++ [blk]) = all_words bs ++ words_of_block blk.
Proof. unfold all_words. rewrite flat_map_app. simpl. now rewrite app_nil_r. Qed.

Lemma words_of_block_last (n : Z) (ps : list Paragraph) (par : Paragraph) :
  words_of_block (mk_Block n (ps ++ [par])) =
  words_of_block (mk_Block n ps) ++ flat_map words (lines par).
Proof.
  unfold words_of_block. simpl. rewrite flat_map_app. simpl.
  now rewrite app_nil_r.
Qed.

Lemma all_words_pointed bs n ps pn ls ln ws :
  all_words (built (pointed bs n ps pn ls ln ws)) =
  all_words bs ++ words_of_block (mk_Block n ps) ++ flat_map words ls ++ ws.
Proof.
  unfold pointed. simpl. rewrite all_words_last, words_of_block_last.
  simpl. rewrite flat_map_app. simpl. rewrite app_nil_r, <- ?app_assoc.
  reflexivity.
Qed.

(** The three [if]s on the three shapes. *)
Lemma open_paragraph_in_new_block bs n level par :
  open_paragraph (block_opened bs n) (length bs) level par =
  (paragraph_opened bs n [] par, 0%nat).
Proof.
  unfold open_paragraph, block_opened, paragraph_opened. simpl.
  rewrite paragraphs_at_last. simpl. unfold append_paragraph.
  now rewrite update_at_last.
Qed.

Lemma open_line_in_new_paragraph bs n ps pn level line :
  open_line (paragraph_opened bs n ps pn) (length bs) (length ps) level line =
  (pointed bs n ps pn [] line [], 0%nat).
Proof.
  unfold open_line, paragraph_opened, pointed. simpl.
  rewrite lines_at_last. simpl. unfold append_line.
  rewrite update_at_last. simpl. now rewrite update_at_last.
Qed.

Lemma open_block_pointed bs n ps pn ls ln ws level block :
  open_block (pointed bs n ps pn ls ln ws) level block =
  if level =? 2
  then (block_opened
          (bs ++ [mk_Block n
                    (ps ++ [mk_Paragraph pn (ls ++ [mk_Line ln ws])])])
          block,
        length (bs ++ [mk_Block n
                         (ps ++ [mk_Paragraph pn (ls ++ [mk_Line ln ws])])]))
  else (pointed bs n ps pn ls ln ws, length bs).
Proof. reflexivity. Qed.

Lemma open_paragraph_pointed bs n ps pn ls ln ws level par :
  open_paragraph (pointed bs n ps pn ls ln ws) (length bs) level par =
  if (level =? 3) || negb (pn =? par)
  then (paragraph_opened bs n
          (ps ++ [mk_Paragraph pn (ls ++ [mk_Line ln ws])]) par,
        length (ps ++ [mk_Paragraph pn (ls ++ [mk_Line ln ws])]))
  else (pointed bs n ps pn ls ln ws, length ps).
Proof.
  unfold open_paragraph, pointed, paragraph_opened. simpl.
  destruct ((level =? 3) || negb (pn =? par)); [ | reflexivity ].
  rewrite paragraphs_at_last. simpl. unfold append_paragraph.
  now rewrite update_at_last.
Qed.

Lemma open_line_pointed bs n ps pn ls ln ws level line :
  open_line (pointed bs n ps pn ls ln ws) (length bs) (length ps) level line =
  if (level =? 4) || negb (ln =? line)
  then (pointed bs n ps pn (ls ++ [mk_Line ln ws]) line [],
        length (ls ++ [mk_Line ln ws]))
  else (pointed bs n ps pn ls ln ws, length ls).
Proof.
  unfold open_line, pointed. simpl.
  destruct ((level =? 4) || negb (ln =? line)); [ | reflexivity ].
  rewrite lines_at_last. simpl. unfold append_line.
  rewrite update_at_last. simpl. now rewrite update_at_last.
Qed.

Lemma append_word_pointed bs n ps pn ls ln ws word :
  append_word (length bs) (length ps) (length ls) word
    (built (pointed bs n ps pn ls ln ws)) =
  built (pointed bs n ps pn ls ln (ws ++ [word])).
Proof.
  unfold append_word, pointed. simpl.
  rewrite update_at_last. simpl. rewrite update_at_last. simpl.
  now rewrite update_at_last.
Qed.

Lemma nothing_hollow_pointed bs n ps pn ls ln ws :
  nothing_hollow (built (pointed bs n ps pn ls ln ws)) <->
  nothing_hollow bs /\ Forall (fun par => lines par <> []) ps.
Proof.
  unfold nothing_hollow, pointed. simpl. rewrite Forall_app. split.
  - intros [Hb Hl]. split; [ exact Hb | ].
    inversion Hl as [ | ? ? [_ Hp] _ ]; subst. simpl in Hp.
    apply Forall_app in Hp. tauto.
  - intros [Hb Hp]. split; [ exact Hb | ].
    constructor; [ | constructor ]. simpl. split.
    + now destruct ps.
    + apply Forall_app. split; [ exact Hp | ].
      constructor; [ simpl; now destruct ls | constructor ].
Qed.

(** The three [if]s of a row, from the state before the first row or from
    a pointed state: they end in a pointed state, add no word, add a block
    exactly when there was none or the row is of level 2, and leave
    nothing hollow. *)
Lemma row_opened (st : building) (level block par line : Z) :
  settled st ->
  exists st1 st2 bs n ps pn ls ln ws,
    open_block st level block = (st1, length bs) /\
    open_paragraph st1 (length bs) level par = (st2, length ps) /\
    open_line st2 (length bs) (length ps) level line
      = (pointed bs n ps pn ls ln ws, length ls) /\
    all_words (built (pointed bs n ps pn ls ln ws)) = all_words (built st) /\
    length (built (pointed bs n ps pn ls ln ws)) =
      (length (built st) +
       match built st with
       | [] => 1
       | _ :: _ => if (level =? 2)%Z then 1 else 0
       end)%nat /\
    (nothing_hollow (built st) ->
     nothing_hollow (built (pointed bs n ps pn ls ln ws))).
Proof.
  intros [-> | (bs & n & ps & pn & ls & ln & ws & ->)].
  - exists (block_opened [] block), (paragraph_opened [] block [] par),
      [], block, [], par, [], line, [].
    split; [ reflexivity | ].
    split; [ apply (open_paragraph_in_new_block [] block level par) | ].
    split; [ apply (open_line_in_new_paragraph [] block [] par level line) | ].
    split; [ reflexivity | ]. split; [ reflexivity | ].
    intros _. apply nothing_hollow_pointed. split; constructor.
  - set (blk := mk_Block n
                  (ps ++ [mk_Paragraph pn (ls ++ [mk_Line ln ws])])).
    assert (Nonempty : exists x l, built (pointed bs n ps pn ls ln ws) = x :: l).
    { unfold pointed. simpl. destruct bs; simpl; eauto. }
    destruct Nonempty as (x0 & l0 & Ne).
    destruct (level =? 2) eqn:L2.
    + exists (block_opened (bs ++ [blk]) block),
        (paragraph_opened (bs ++ [blk]) block [] par),
        (bs ++ [blk]), block, [], par, [], line, [].
      rewrite open_block_pointed, L2. fold blk.
      split; [ reflexivity | ].
      split; [ apply open_paragraph_in_new_block | ].
      split; [ apply open_line_in_new_paragraph | ].
      split; [ | split ].
      * rewrite all_words_pointed. simpl. now rewrite !app_nil_r.
      * rewrite Ne, <- Ne. unfold pointed. simpl. fold blk.
        rewrite !length_app. simpl. lia.
      * intros H. apply nothing_hollow_pointed. split; [ exact H | constructor ].
    + destruct ((level =? 3) || negb (pn =? par)) eqn:L3.
      * exists (pointed bs n ps pn ls ln ws),
          (paragraph_opened bs n
             (ps ++ [mk_Paragraph pn (ls ++ [mk_Line ln ws])]) par),
          bs, n, (ps ++ [mk_Paragraph pn (ls ++ [mk_Line ln ws])]), par,
          [], line, [].
        rewrite open_block_pointed, L2, open_paragraph_pointed, L3.
        split; [ reflexivity | ]. split; [ reflexivity | ].
        split; [ apply open_line_in_new_paragraph | ].
        split; [ | split ].
        -- rewrite !all_words_pointed. rewrite words_of_block_last. simpl.
           rewrite flat_map_app. simpl. rewrite ?app_nil_r, <- ?app_assoc; reflexivity.
        -- rewrite Ne, <- Ne. unfold pointed. simpl.
           rewrite !length_app. simpl. lia.
        -- intros H. apply nothing_hollow_pointed in H. destruct H as [Hb Hp].
           apply nothing_hollow_pointed. split; [ exact Hb | ].
           apply Forall_app. split; [ exact Hp | ].
           constructor; [ simpl; now destruct ls | constructor ].
      * destruct ((level =? 4) || negb (ln =? line)) eqn:L4.
        -- exists (pointed bs n ps pn ls ln ws), (pointed bs n ps pn ls ln ws),
             bs, n, ps, pn, (ls ++ [mk_Line ln ws]), line, [].
           rewrite open_block_pointed, L2, open_paragraph_pointed, L3.
           rewrite open_line_pointed, L4.
           split; [ reflexivity | ]. split; [ reflexivity | ].
           split; [ reflexivity | ]. split; [ | split ].
           ++ rewrite !all_words_pointed. rewrite flat_map_app. simpl.
              rewrite ?app_nil_r, <- ?app_assoc; reflexivity.
           ++ rewrite Ne, <- Ne. unfold pointed. simpl.
              rewrite !length_app. simpl. lia.
           ++ intros H. apply nothing_hollow_pointed in H.
              now apply nothing_hollow_pointed.
        -- exists (pointed bs n ps pn ls ln ws), (pointed bs n ps pn ls ln ws),
             bs, n, ps, pn, ls, ln, ws.
           rewrite open_block_pointed, L2, open_paragraph_pointed, L3.
           rewrite open_line_pointed, L4.
           split; [ reflexivity | ]. split; [ reflexivity | ].
           split; [ reflexivity | ]. split; [ reflexivity | ].
           split; [ | tauto ].
           rewrite Ne. lia.
Qed.

Lemma and_then_silent {A B} (m : App A) (f : A -> App B) (a : A)
  (r : tried B) :
  m = ([], Returned a) -> f a = ([], r) -> and_then m f = ([], r).
Proof. intros -> E. unfold and_then. simpl. now rewrite E. Qed.

(** One row on rectangular data: no exception, a pointed state, the word
    of the row at the end of the words if the row has one, and one more
    block exactly when the row opens one. *)
Lemma structure_row_settled (data : TessData) (st : building) (i : nat) :
  Structured.rectangular data -> (i < length (data_text data))%nat ->
  settled st ->
  exists st',
    structure_row data st i = ([], Returned st') /\
    (exists bs n ps pn ls ln ws, st' = pointed bs n ps pn ls ln ws) /\
    all_words (built st') = all_words (built st) ++ kept_word data i /\
    (exists level,
       nth_error (data_level data) i = Some level /\
       length (built st') =
         (length (built st) +
          match built st with
          | [] => 1
          | _ :: _ => if (level =? 2)%Z then 1 else 0
          end)%nat) /\
    (nothing_hollow (built st) -> nothing_hollow (built st')).
Proof.
  intros ((R1 & R2 & R3 & R4 & R5) & R6 & R7 & R8 & R9) Hi Hst.
  destruct (item_defined (data_text data) i Hi) as (raw & N0 & I0).
  destruct (item_defined (data_level data) i ltac:(lia)) as (level & N6 & I6).
  destruct (item_defined (data_block_num data) i ltac:(lia))
    as (block & N7 & I7).
  destruct (item_defined (data_par_num data) i ltac:(lia)) as (par & N8 & I8).
  destruct (item_defined (data_line_num data) i ltac:(lia))
    as (line & N9 & I9).
  destruct (item_defined (data_conf data) i ltac:(lia)) as (c & N1 & I1).
  destruct (item_defined (data_left data) i ltac:(lia)) as (x & N2 & I2).
  destruct (item_defined (data_top data) i ltac:(lia)) as (y & N3 & I3).
  destruct (item_defined (data_width data) i ltac:(lia)) as (w & N4 & I4).
  destruct (item_defined (data_height data) i ltac:(lia)) as (h & N5 & I5).
  destruct (row_opened st level block par line Hst)
    as (st1 & st2 & bs & n & ps & pn & ls & ln & ws
        & O1 & O2 & O3 & Wd & Len & Hol).
  unfold structure_row, kept_word. rewrite N0, N6, N1, N2, N3, N4, N5.
  unfold attempt, and_then, done.
  rewrite I0. cbn [fst snd app]. rewrite I6. cbn [fst snd app].
  rewrite I7. cbn [fst snd app]. rewrite I8. cbn [fst snd app].
  rewrite I9. cbn [fst snd app]. rewrite O1, O2, O3.
  destruct (nonempty (strip raw) && (level =? 5)) eqn:K.
  - rewrite I1. cbn [fst snd app]. rewrite I2. cbn [fst snd app].
    rewrite I3. cbn [fst snd app]. rewrite I4. cbn [fst snd app].
    rewrite I5. cbn [fst snd app].
    rewrite append_word_pointed.
    exists (pointed bs n ps pn ls ln
              (ws ++ [mk_Word (strip raw) c x y w h])).
    split; [ reflexivity | ].
    split; [ now exists bs, n, ps, pn, ls, ln,
               (ws ++ [mk_Word (strip raw) c x y w h]) | ].
    split; [ | split ].
    + rewrite <- Wd, !all_words_pointed, <- !app_assoc. reflexivity.
    + exists level. split; [ reflexivity | ].
      rewrite <- Len. unfold pointed. simpl. rewrite !length_app.
      reflexivity.
    + intros H. apply Hol in H. apply nothing_hollow_pointed in H.
      now apply nothing_hollow_pointed.
  - exists (pointed bs n ps pn ls ln ws).
    split; [ reflexivity | ].
    split; [ now exists bs, n, ps, pn, ls, ln, ws | ].
    split; [ now rewrite app_nil_r | ]. split; [ | exact Hol ].
    exists level. split; [ reflexivity | exact Len ].
Qed.

(** The loop from row [i] on. *)
Lemma structure_rows (data : TessData) (count : nat) :
  Structured.rectangular data ->
  forall (i : nat) (st : building),
    (i + count <= length (data_text data))%nat ->
    (i = 0%nat -> st = mk_building [] None None None) ->
    (i <> 0%nat ->
     exists bs n ps pn ls ln ws, st = pointed bs n ps pn ls ln ws) ->
    exists st',
      each (structure_row data) st (seq i count) = ([], Returned st') /\
      all_words (built st') =
        all_words (built st) ++ flat_map (kept_word data) (seq i count) /\
      length (built st') =
        (length (built st)
         + length (filter (opens_block data) (seq i count)))%nat /\
      (nothing_hollow (built st) -> nothing_hollow (built st')).
Proof.
  intros R. induction count as [ | count IH ]; intros i st Hi H0 Hp.
  - exists st. simpl. rewrite app_nil_r, Nat.add_0_r.
    repeat split. tauto.
  - assert (Hst : settled st).
    { destruct (Nat.eq_dec i 0) as [E | E]; [ left; auto | right; auto ]. }
    destruct (structure_row_settled data st i R ltac:(lia) Hst)
      as (st1 & E1 & P1 & W1 & (level & Nl & L1) & Hol1).
    destruct (IH (S i) st1 ltac:(lia) ltac:(discriminate) (fun _ => P1))
      as (st' & E' & W' & L' & Hol').
    exists st'. simpl seq. simpl each. rewrite E1.
    unfold and_then. cbn [fst snd app]. rewrite E'.
    split; [ reflexivity | ]. split; [ | split ].
    + rewrite W', W1. simpl flat_map. now rewrite <- app_assoc.
    + rewrite L', L1. simpl filter. unfold opens_block at 2. rewrite Nl.
      destruct (Nat.eq_dec i 0) as [E | E].
      * subst i. rewrite (H0 eq_refl). simpl. lia.
      * destruct (Hp E) as (bs & n & ps & pn & ls & ln & ws & ->).
        assert (F : (i =? 0)%nat = false) by now apply Nat.eqb_neq.
        rewrite F. simpl orb.
        assert (Ne : exists x l,
                   built (pointed bs n ps pn ls ln ws) = x :: l).
        { unfold pointed. simpl. destruct bs; simpl; eauto. }
        destruct Ne as (x0 & l0 & Ne). rewrite Ne.
        destruct (level =? 2); simpl length; lia.
    + tauto.
Qed.

(** X19: on rectangular data [extract_structured_text] raises nothing and
    loses no word: read block by block, paragraph by paragraph and line by
    line, the words of the structure are, in the order of the data, the
    rows of level 5 whose stripped text is not empty; and [full_text] is
    the stripped answer of Tesseract. *)
Theorem extract_structured_text_keeps_words
  (self_lang : string) (image processed : ndarray) (data : TessData)
  (raw : string) :
  preprocess_image image = ([], Returned processed) ->
  image_to_data processed self_lang = Returned data ->
  image_to_string processed self_lang None = Returned raw ->
  Structured.rectangular data ->
  exists structure,
    extract_structured_text self_lang image = ([], Returned structure) /\
    all_words (blocks structure) =
      flat_map (kept_word data) (seq 0 (length (data_text data))) /\
    full_text structure = strip raw.
Proof.
  intros Hp Hd Hs R.
  destruct (structure_rows data (length (data_text data)) R 0
              (mk_building [] None None None) ltac:(lia)
              (fun _ => eq_refl)
              (fun H => False_ind _ (H eq_refl)))
    as (st & E & W & _ & _).
  eexists. split; [ | split ].
  - unfold extract_structured_text.
    eapply and_then_silent; [ exact Hp | cbv beta ].
    eapply and_then_silent;
      [ unfold attempt; rewrite Hd; reflexivity | cbv beta ].
    eapply and_then_silent; [ exact E | cbv beta ].
    eapply and_then_silent;
      [ unfold attempt; rewrite Hs; reflexivity | cbv beta ].
    reflexivity.
  - exact W.
  - reflexivity.
Qed.

(** X20: the blocks of the structure.  On rectangular data there is one
    block for the first row and one for every later row of level 2, no
    block is without a paragraph and no paragraph without a line. *)
Theorem extract_structured_text_blocks
  (self_lang : string) (image processed : ndarray) (data : TessData)
  (raw : string) :
  preprocess_image image = ([], Returned processed) ->
  image_to_data processed self_lang = Returned data ->
  image_to_string processed self_lang None = Returned raw ->
  Structured.rectangular data ->
  exists structure,
    extract_structured_text self_lang image = ([], Returned structure) /\
    length (blocks structure) =
      length (filter (opens_block data)
                (seq 0 (length (data_text data)))) /\
    nothing_hollow (blocks structure).
Proof.
  intros Hp Hd Hs R.
  destruct (structure_rows data (length (data_text data)) R 0
              (mk_building [] None None None) ltac:(lia)
              (fun _ => eq_refl)
              (fun H => False_ind _ (H eq_refl)))
    as (st & E & _ & L & Hol).
  eexists. split; [ | split ].
  - unfold extract_structured_text.
    eapply and_then_silent; [ exact Hp | cbv beta ].
    eapply and_then_silent;
      [ unfold attempt; rewrite Hd; reflexivity | cbv beta ].
    eapply and_then_silent; [ exact E | cbv beta ].
    eapply and_then_silent;
      [ unfold attempt; rewrite Hs; reflexivity | cbv beta ].
    reflexivity.
  - exact L.
  - apply Hol. constructor.
Qed.

End StructuredFacts.

(** ** Instances for the structured text *)

Lemma extract_structured_text_keeps_words_witness :
  exists structure,
    Structured.extract_structured_text (cv := Stub.cv_match)
      (tess := StubWorld.tesseract) "eng" (Stub.bgr_image 20 4)
    = ([], Returned structure) /\
    map Structured.word_text
      (Structured.all_words (Structured.blocks structure))
    = ["hello"; "x"]%string.
Proof.
  destruct (extract_structured_text_keeps_words
              (cv := Stub.cv_match) (tess := StubWorld.tesseract)
              "eng" (Stub.bgr_image 20 4) _ StubWorld.words _
              eq_refl eq_refl eq_refl)
    as (structure & E & W & _).
  - repeat split.
  - exists structure. split; [ exact E | rewrite W; reflexivity ].
Defined.

Lemma extract_structured_text_blocks_witness :
  exists structure,
    Structured.extract_structured_text (cv := Stub.cv_match)
      (tess := StubWorld.tesseract) "eng" (Stub.bgr_image 20 4)
    = ([], Returned structure) /\
    length (Structured.blocks structure) = 2%nat /\
    Structured.nothing_hollow (Structured.blocks structure).
Proof.
  destruct (extract_structured_text_blocks
              (cv := Stub.cv_match) (tess := StubWorld.tesseract)
              "eng" (Stub.bgr_image 20 4) _ StubWorld.words _
              eq_refl eq_refl eq_refl)
    as (structure & E & L & Hol).
  - repeat split.
  - exists structure. split; [ exact E | split; [ exact L | exact Hol ] ].
Defined.
